(** * Verification of the formatting utilities of [sample_scripts]

    The development embeds two Python modules:

    - [timestamp_conversion.py]: the template translator
      [_convert_readable_to_strftime] and the converter
      [convert_timestamp_format];
    - [parse_number_to_string.py]: [format_number] and [format_difference].

    Python values are represented as follows.  A [str] is a list of
    characters, an [int] is a [Z], a [float] is a binary64 value of the
    Standard Library's [SpecFloat] (precision 53, maximal exponent 1024),
    and a call that can raise returns a [result].  The parts of Python's
    standard library the two modules call ([str.replace], [str.zfill],
    [datetime.fromisoformat], [datetime.astimezone], [datetime.timestamp],
    [datetime.strftime], true division, the [.2f] format) are modelled
    after CPython in the first part of the file.  What CPython leaves to
    the host (the local time zone, the padding of the year by [%Y], the
    output of the C library for the conversions the translator does not
    write) is a parameter of the model, the class [Host].

    - Part I holds the definitions: the library, the two modules, and the
      notions in which the properties are stated.
    - Part II proves the properties that the description of the modules
      states, or what holds in their place.
    - Part III and Part IV prove further properties of the two modules. *)

From Stdlib Require Import ZArith List String Ascii Bool Lia.
From Stdlib Require Import QArith Qabs Qminmax Qpower.
From Stdlib Require Import Floats.SpecFloat.
Import ListNotations.

#[local] Open Scope string_scope.
#[local] Open Scope list_scope.
#[local] Open Scope Z_scope.

(* ================================================================= *)
(** * Part I: definitions *)
(* ================================================================= *)

(** ** Python strings *)

Definition str := list ascii.

(** String literals are read as character lists. *)
Coercion list_ascii_of_string : string >-> list.

Definition str_eqb (a b : str) : bool :=
  if list_eq_dec ascii_dec a b then true else false.

(** [s.startswith(p)] *)
Fixpoint startswith (p s : str) : bool :=
  match p, s with
  | [], _ => true
  | _ :: _, [] => false
  | a :: p', b :: s' => Ascii.eqb a b && startswith p' s'
  end.

(** [sub in s] *)
Fixpoint contains (sub s : str) : bool :=
  startswith sub s ||
  match s with
  | [] => false
  | _ :: s' => contains sub s'
  end.

(** [s.replace(old, new)]: the occurrences of [old] are found from left to
    right, without overlap, and each is replaced by [new].  [fuel] bounds the
    number of positions still to be scanned. *)
Fixpoint replace_fuel (fuel : nat) (old new s : str) : str :=
  match fuel with
  | O => s
  | S fuel' =>
      match s with
      | [] => []
      | c :: s' =>
          if startswith old s
          then new ++ replace_fuel fuel' old new (skipn (List.length old) s)
          else c :: replace_fuel fuel' old new s'
      end
  end.

Definition replace (old new s : str) : str :=
  match old with
  | [] => new ++ flat_map (fun c => c :: new) s
  | _ :: _ => replace_fuel (List.length s) old new s
  end.

(** [s.zfill(width)] for a string without sign prefix. *)
Definition zfill (width : nat) (s : str) : str :=
  repeat "0"%char (width - List.length s) ++ s.

(** ** Python integers as text *)

Definition digit_char (d : Z) : ascii := ascii_of_N (Z.to_N (48 + d)).

Definition is_digit (c : ascii) : bool :=
  let n := Z.of_N (N_of_ascii c) in (48 <=? n) && (n <=? 57).

Definition digit_val (c : ascii) : Z := Z.of_N (N_of_ascii c) - 48.

(** Decimal digits of a non-negative integer, least significant first. *)
Fixpoint digits_rev (fuel : nat) (n : Z) : str :=
  match fuel with
  | O => []
  | S fuel' =>
      digit_char (n mod 10) ::
      (if n / 10 =? 0 then [] else digits_rev fuel' (n / 10))
  end.

Definition str_of_nonneg (n : Z) : str :=
  rev (digits_rev (S (Z.to_nat (Z.log2 n))) n).

(** [str(n)] for an [int]. *)
Definition str_of_int (n : Z) : str :=
  if n <? 0 then "-"%char :: str_of_nonneg (- n) else str_of_nonneg n.

(** [repr(s)] for a string without quotes, backslashes or control
    characters (the only ones for which the model is used). *)
Definition repr (s : str) : str := "'" ++ s ++ "'".

(** ** Exceptions *)

Inductive exn_class : Set :=
| ValueError
| OverflowError
| ZeroDivisionError
| UnboundLocalError
| Exception.

Record exn : Set := mk_exn { exn_type : exn_class; exn_msg : str }.

(** The outcome of a call: a value, or a raised exception. *)
Inductive result (A : Type) : Type :=
| Returns (a : A)
| Raises (e : exn).

Arguments Returns {A} a.
Arguments Raises {A} e.

Definition bind {A B : Type} (r : result A) (k : A -> result B) : result B :=
  match r with
  | Returns a => k a
  | Raises e => Raises e
  end.

Notation "x <- c ;; k" := (bind c (fun x => k))
  (at level 61, c at next level, right associativity).

Definition raise {A : Type} (c : exn_class) (msg : str) : result A :=
  Raises (mk_exn c msg).

(** ** The template translator ([timestamp_conversion.py], lines 3-25) *)

Definition _convert_readable_to_strftime (readable_format : str) : str :=
  let result := readable_format in
  let result := replace "YYYY" "%Y" result in
  let result := replace "MM" "%m" result in
  let result := replace "DD" "%d" result in
  let result := replace "HH" "%H" result in
  let result := replace "MI" "%M" result in
  let result := replace "SS" "%S" result in
  let result := replace "offset" "%z" result in
  let result := replace "TZ" "%Z" result in
  result.

(** The same translation as the specification words it: an ordered table of
    (token, pattern) pairs, applied one after the other. *)
Definition substitution_table : list (str * str) :=
  [ ("YYYY" : str, "%Y" : str);
    ("MM" : str, "%m" : str);
    ("DD" : str, "%d" : str);
    ("HH" : str, "%H" : str);
    ("MI" : str, "%M" : str);
    ("SS" : str, "%S" : str);
    ("offset" : str, "%z" : str);
    ("TZ" : str, "%Z" : str) ].

Definition apply_substitutions (table : list (str * str)) (s : str) : str :=
  fold_left (fun acc p => replace (fst p) (snd p) acc) table s.

(** [translates T s o]: [o] is obtained from [s] in one pass from left to
    right, in which some occurrences of tokens of [T] are replaced by their
    pattern and every other character is copied. *)
Inductive translates (T : list (str * str)) : str -> str -> Prop :=
| tr_nil : translates T [] []
| tr_lit c s o : translates T s o -> translates T (c :: s) (c :: o)
| tr_tok tok rep s o :
    In (tok, rep) T -> translates T s o -> translates T (tok ++ s) (rep ++ o).

(** ** Binary64 arithmetic

    Python's [float] is IEEE 754 binary64.  The operations are those of
    [SpecFloat], instantiated at precision 53 and maximal exponent 1024. *)

Definition prec : Z := 53.
Definition emax : Z := 1024.

Definition float := spec_float.

(** The double nearest to an integer (ties to even). *)
Definition float_of_Z (z : Z) : float := binary_normalize prec emax z 0 false.

Definition fmul : float -> float -> float := SFmul prec emax.
Definition fdiv : float -> float -> float := SFdiv prec emax.
Definition fadd : float -> float -> float := SFadd prec emax.
Definition fsub : float -> float -> float := SFsub prec emax.

Definition is_finite (x : float) : bool :=
  match x with
  | S754_zero _ | S754_finite _ _ _ => true
  | _ => false
  end.

Definition is_nan (x : float) : bool :=
  match x with
  | S754_nan => true
  | _ => false
  end.

(** [float(n)] for an [int]: exact below [2^53], correctly rounded above,
    [OverflowError] when the rounded value is not finite. *)
Definition float_of_int (n : Z) : result float :=
  if Z.abs n <? 2 ^ 53 then Returns (float_of_Z n)
  else match float_of_Z n with
       | S754_infinity _ | S754_nan =>
           raise OverflowError "int too large to convert to float"
       | f => Returns f
       end.

(** [a / b] for two [int]s: the correctly rounded quotient.  As in CPython,
    operands below [2^53] in magnitude are converted (exactly) and divided
    as doubles; larger ones are divided as integers and rounded once, and
    a quotient too large for a double raises [OverflowError]. *)
Definition int_true_divide (a b : Z) : result float :=
  if b =? 0 then raise ZeroDivisionError "division by zero"
  else if (Z.abs a <? 2 ^ 53) && (Z.abs b <? 2 ^ 53)
  then Returns (fdiv (float_of_Z a) (float_of_Z b))
  else
    match a with
    | Z0 => Returns (S754_zero (b <? 0))
    | _ =>
        match fdiv (S754_finite (a <? 0) (Z.to_pos (Z.abs a)) 0)
                   (S754_finite (b <? 0) (Z.to_pos (Z.abs b)) 0) with
        | S754_infinity _ | S754_nan =>
            raise OverflowError "integer division result too large for a float"
        | f => Returns f
        end
    end.

(** [int(x)] for a [float]: truncation toward zero. *)
Definition int_of_float (x : float) : result Z :=
  match x with
  | S754_nan => raise ValueError "cannot convert float NaN to integer"
  | S754_infinity _ =>
      raise OverflowError "cannot convert float infinity to integer"
  | S754_zero _ => Returns 0
  | S754_finite s m e =>
      let a := if 0 <=? e then Zpos m * 2 ^ e else Zpos m / 2 ^ (- e) in
      Returns (if s then - a else a)
  end.

(** The integer nearest to [m * 2^e * 10^2], ties to even: the digits that
    the format [.2f] prints for the magnitude [m * 2^e]. *)
Definition round_hundredths (m : Z) (e : Z) : Z :=
  if 0 <=? e then m * 2 ^ e * 100
  else
    let den := 2 ^ (- e) in
    let q := (m * 100) / den in
    let r := (m * 100) mod den in
    match 2 * r ?= den with
    | Lt => q
    | Gt => q + 1
    | Eq => if Z.even q then q else q + 1
    end.

Definition sign_str (s : bool) : str := if s then "-" else "".

(** [format(x, ".2f")] for a [float]. *)
Definition format_2f (x : float) : str :=
  match x with
  | S754_nan => "nan"
  | S754_infinity s => sign_str s ++ "inf"
  | S754_zero s => sign_str s ++ "0.00"
  | S754_finite s m e =>
      let n := round_hundredths (Zpos m) e in
      sign_str s ++ str_of_nonneg (n / 100) ++ "." ++
      zfill 2 (str_of_nonneg (n mod 100))
  end.

(** ** Python's [datetime]

    A [datetime] carries the calendar fields and an optional fixed UTC
    offset, kept in microseconds ([None] for a naive value; [Some 0] is
    [timezone.utc]).  The calendar functions follow the reference
    implementation of the [datetime] module. *)

Record datetime : Set := mk_datetime {
  year : Z;
  month : Z;
  day : Z;
  hour : Z;
  minute : Z;
  second : Z;
  microsecond : Z;
  tzinfo : option Z
}.

Definition _MAXORDINAL : Z := 3652059.

Definition _DAYS_IN_MONTH : list Z :=
  [-1; 31; 28; 31; 30; 31; 30; 31; 31; 30; 31; 30; 31].

Definition _DAYS_BEFORE_MONTH : list Z :=
  [-1; 0; 31; 59; 90; 120; 151; 181; 212; 243; 273; 304; 334].

Definition _is_leap (y : Z) : bool :=
  (y mod 4 =? 0) && (negb (y mod 100 =? 0) || (y mod 400 =? 0)).

Definition _days_before_year (y : Z) : Z :=
  let y := y - 1 in y * 365 + y / 4 - y / 100 + y / 400.

Definition _days_in_month (y m : Z) : Z :=
  if (m =? 2) && _is_leap y then 29 else nth (Z.to_nat m) _DAYS_IN_MONTH (-1).

Definition _days_before_month (y m : Z) : Z :=
  nth (Z.to_nat m) _DAYS_BEFORE_MONTH (-1)
  + (if (2 <? m) && _is_leap y then 1 else 0).

Definition _ymd2ord (y m d : Z) : Z :=
  _days_before_year y + _days_before_month y m + d.

Definition _DI400Y : Z := _days_before_year 401.
Definition _DI100Y : Z := _days_before_year 101.
Definition _DI4Y : Z := _days_before_year 5.

Definition _ord2ymd (n : Z) : Z * Z * Z :=
  let n := n - 1 in
  let n400 := n / _DI400Y in
  let n := n mod _DI400Y in
  let y := n400 * 400 + 1 in
  let n100 := n / _DI100Y in
  let n := n mod _DI100Y in
  let n4 := n / _DI4Y in
  let n := n mod _DI4Y in
  let n1 := n / 365 in
  let n := n mod 365 in
  let y := y + n100 * 100 + n4 * 4 + n1 in
  if (n1 =? 4) || (n100 =? 4) then (y - 1, 12, 31)
  else
    let leapyear := (n1 =? 3) && (negb (n4 =? 24) || (n100 =? 3)) in
    let m := Z.shiftr (n + 50) 5 in
    let preceding :=
      nth (Z.to_nat m) _DAYS_BEFORE_MONTH (-1)
      + (if (2 <? m) && leapyear then 1 else 0) in
    if n <? preceding
    then
      let m := m - 1 in
      let preceding :=
        preceding
        - (nth (Z.to_nat m) _DAYS_IN_MONTH (-1)
           + (if (m =? 2) && leapyear then 1 else 0)) in
      (y, m, n - preceding + 1)
    else (y, m, n - preceding + 1).

(** The constructor [datetime(...)] with its range checks. *)
Definition new_datetime (y mo d h mi s us : Z) (tz : option Z)
  : result datetime :=
  if negb ((1 <=? y) && (y <=? 9999))
  then raise ValueError ("year " ++ str_of_int y ++ " is out of range")
  else if negb ((1 <=? mo) && (mo <=? 12))
  then raise ValueError "month must be in 1..12"
  else if negb ((1 <=? d) && (d <=? _days_in_month y mo))
  then raise ValueError "day is out of range for month"
  else if negb ((0 <=? h) && (h <=? 23))
  then raise ValueError "hour must be in 0..23"
  else if negb ((0 <=? mi) && (mi <=? 59))
  then raise ValueError "minute must be in 0..59"
  else if negb ((0 <=? s) && (s <=? 59))
  then raise ValueError "second must be in 0..59"
  else if negb ((0 <=? us) && (us <=? 999999))
  then raise ValueError "microsecond must be in 0..999999"
  else Returns (mk_datetime y mo d h mi s us tz).

(** [repr(timedelta(microseconds=us))]: the days, seconds and microseconds
    of the normalised value that are not zero. *)
Definition repr_timedelta (us : Z) : str :=
  let days := us / 86400000000 in
  let seconds := us mod 86400000000 / 1000000 in
  let microseconds := us mod 1000000 in
  let part (name : str) (v : Z) : list str :=
    if v =? 0 then [] else [name ++ "=" ++ str_of_int v] in
  let parts :=
    part "days" days ++ part "seconds" seconds
    ++ part "microseconds" microseconds in
  "datetime.timedelta("
  ++ match parts with
     | [] => "0"
     | p :: ps => p ++ flat_map (fun q => ", " ++ q) ps
     end
  ++ ")".

(** [timezone(timedelta(microseconds=off))]; a zero offset is
    [timezone.utc]. *)
Definition new_timezone (off : Z) : result Z :=
  if (-86400000000 <? off) && (off <? 86400000000) then Returns off
  else raise ValueError
    ("offset must be a timedelta strictly between -timedelta(hours=24) "
     ++ "and timedelta(hours=24), not " ++ repr_timedelta off ++ ".").

(** *** [datetime.fromisoformat]

    The accepted strings are those of the grammar that the function reads
    in Python 3.7 to 3.10,
    [YYYY-MM-DD[*HH[:MM[:SS[.fff[fff]]]][+HH:MM[:SS[.ffffff]]]]], where [*]
    is any single character.  In particular an offset written without a
    colon is rejected: the function under verification exists to add it.
    From Python 3.11 on the function reads more of ISO 8601 (dates without
    dashes, week dates, offsets without colon, a final [Z]); the properties
    below are stated so that they do not depend on the rejection of such
    strings, except where a statement says so. *)

(** Exactly [n] decimal digits, accumulated into [acc]. *)
Fixpoint parse_digits (n : nat) (acc : Z) (s : str) : option (Z * str) :=
  match n with
  | O => Some (acc, s)
  | S n' =>
      match s with
      | [] => None
      | c :: s' =>
          if is_digit c then parse_digits n' (acc * 10 + digit_val c) s'
          else None
      end
  end.

(** The next character must be [c]. *)
Definition expect (c : ascii) (s : str) : option str :=
  match s with
  | [] => None
  | x :: s' => if Ascii.eqb x c then Some s' else None
  end.

(** [YYYY-MM-DD], the whole string. *)
Definition parse_isoformat_date (dtstr : str) : option (Z * Z * Z) :=
  match parse_digits 4 0 dtstr with
  | None => None
  | Some (y, s1) =>
      match expect "-" s1 with
      | None => None
      | Some s2 =>
          match parse_digits 2 0 s2 with
          | None => None
          | Some (mo, s3) =>
              match expect "-" s3 with
              | None => None
              | Some s4 =>
                  match parse_digits 2 0 s4 with
                  | Some (d, []) => Some (y, mo, d)
                  | _ => None
                  end
              end
          end
      end
  end.

(** [fff] or [ffffff], the whole string, in microseconds. *)
Definition parse_fraction (s : str) : option Z :=
  match parse_digits 3 0 s with
  | None => None
  | Some (ms, []) => Some (ms * 1000)
  | Some (ms, s') =>
      match parse_digits 3 ms s' with
      | Some (us, []) => Some us
      | _ => None
      end
  end.

(** [HH[:MM[:SS[.fff[fff]]]]], the whole string. *)
Definition parse_hh_mm_ss_ff (tstr : str) : option (Z * Z * Z * Z) :=
  match parse_digits 2 0 tstr with
  | None => None
  | Some (h, []) => Some (h, 0, 0, 0)
  | Some (h, s1) =>
      match expect ":" s1 with
      | None => None
      | Some s2 =>
          match parse_digits 2 0 s2 with
          | None => None
          | Some (mi, []) => Some (h, mi, 0, 0)
          | Some (mi, s3) =>
              match expect ":" s3 with
              | None => None
              | Some s4 =>
                  match parse_digits 2 0 s4 with
                  | None => None
                  | Some (s, []) => Some (h, mi, s, 0)
                  | Some (s, s5) =>
                      match expect "." s5 with
                      | None => None
                      | Some s6 =>
                          match parse_fraction s6 with
                          | Some us => Some (h, mi, s, us)
                          | None => None
                          end
                      end
                  end
              end
          end
      end
  end.

Definition is_sign (c : ascii) : bool :=
  Ascii.eqb c "+" || Ascii.eqb c "-".

(** The time string up to the first sign, and what follows the sign. *)
Fixpoint split_tz (tstr : str) : str * option (ascii * str) :=
  match tstr with
  | [] => ([], None)
  | c :: s' =>
      if is_sign c then ([], Some (c, s'))
      else let '(t, z) := split_tz s' in (c :: t, z)
  end.

Definition tz_length_ok (tzstr : str) : bool :=
  let n := List.length tzstr in
  Nat.eqb n 5 || Nat.eqb n 8 || Nat.eqb n 15.

(** The time fields and, when the string has an offset, its sign and its
    fields. *)
Definition parse_isoformat_time (tstr : str)
  : option (Z * Z * Z * Z * option (ascii * (Z * Z * Z * Z))) :=
  let '(timestr, tz) := split_tz tstr in
  match parse_hh_mm_ss_ff timestr with
  | None => None
  | Some comps =>
      match tz with
      | None => Some (comps, None)
      | Some (sgn, tzstr) =>
          if tz_length_ok tzstr then
            match parse_hh_mm_ss_ff tzstr with
            | Some tzc => Some (comps, Some (sgn, tzc))
            | None => None
            end
          else None
      end
  end.

(** The offset of the parsed fields.  When its whole seconds are zero the
    zone is [timezone.utc], whatever the microseconds. *)
Definition tz_of_components (tz : option (ascii * (Z * Z * Z * Z)))
  : result (option Z) :=
  match tz with
  | None => Returns None
  | Some (sgn, (h, mi, s, us)) =>
      let tzsign := if Ascii.eqb sgn "-" then -1 else 1 in
      let tzoffset := tzsign * (h * 3600 + mi * 60 + s) in
      let tzmicrosecond := tzsign * us in
      if tzoffset =? 0 then Returns (Some 0)
      else
        off <- new_timezone (tzoffset * 1000000 + tzmicrosecond) ;;
        Returns (Some off)
  end.

Definition fromisoformat (date_string : str) : result datetime :=
  let invalid : result datetime :=
    raise ValueError ("Invalid isoformat string: " ++ repr date_string) in
  match parse_isoformat_date (firstn 10 date_string) with
  | None => invalid
  | Some (y, mo, d) =>
      match skipn 10 date_string with
      | [] => new_datetime y mo d 0 0 0 0 None
      | _ :: tstr =>
          match parse_isoformat_time tstr with
          | None => invalid
          | Some (h, mi, s, us, tz) =>
              tzi <- tz_of_components tz ;;
              new_datetime y mo d h mi s us tzi
          end
      end
  end.

(** *** What the host decides

    Three things are not fixed by Python: the time zone in which a naive
    value is read; whether the year of [%Y] is written with at least four
    digits (the GNU C library writes the year 999 as [999], others as
    [0999]); and what the C library's [strftime] prints from the first
    conversion on that is not one of [%Y %m %d %H %M %S %%].  They are
    parameters. *)

Class Host : Type := {
  (** seconds east of UTC that the host's zone gives a naive local time *)
  local_utcoffset : datetime -> Z;
  (** whether [%Y] is padded with zeros to four digits *)
  libc_pads_year : bool;
  (** output of the C library for a format that begins with a [%] which
      does not start one of [%Y %m %d %H %M %S %%] *)
  libc_strftime : str -> datetime -> str
}.

(** *** Arithmetic on instants *)

(** Seconds from midnight of ordinal day 0 to the wall-clock fields. *)
Definition wall_seconds (dt : datetime) : Z :=
  _ymd2ord (year dt) (month dt) (day dt) * 86400
  + hour dt * 3600 + minute dt * 60 + second dt.

Definition wall_micros (dt : datetime) : Z :=
  wall_seconds dt * 1000000 + microsecond dt.

(** Ordinal of 1970-01-01, in seconds. *)
Definition epoch_seconds : Z := _ymd2ord 1970 1 1 * 86400.

(** [dt + timedelta(microseconds=delta)], keeping [tzinfo]. *)
Definition add_micros (dt : datetime) (delta : Z) : result datetime :=
  let total := wall_micros dt + delta in
  let days := total / 86400000000 in
  let rest := total mod 86400000000 in
  let secs := rest / 1000000 in
  let us := rest mod 1000000 in
  if (0 <? days) && (days <=? _MAXORDINAL) then
    let '(y, m, d) := _ord2ymd days in
    Returns (mk_datetime y m d (secs / 3600) (secs mod 3600 / 60)
               (secs mod 60) us (tzinfo dt))
  else raise OverflowError "date value out of range".

Definition replace_tzinfo (dt : datetime) (tz : option Z) : datetime :=
  mk_datetime (year dt) (month dt) (day dt) (hour dt) (minute dt)
    (second dt) (microsecond dt) tz.

(** [dt.astimezone(timezone.utc)] *)
Definition astimezone_utc `{Host} (dt : datetime) : result datetime :=
  match tzinfo dt with
  | Some 0 => Returns dt
  | Some off =>
      utc <- add_micros dt (- off) ;;
      Returns (replace_tzinfo utc (Some 0))
  | None =>
      utc <- add_micros dt (- (local_utcoffset dt * 1000000)) ;;
      Returns (replace_tzinfo utc (Some 0))
  end.

(** Microseconds from the epoch to an aware value. *)
Definition utc_micros (dt : datetime) (off : Z) : Z :=
  wall_micros dt - epoch_seconds * 1000000 - off.

(** [dt.timestamp()]: the total of microseconds divided by [10**6] for an
    aware value; whole seconds plus [microsecond / 1e6] for a naive one. *)
Definition timestamp `{Host} (dt : datetime) : result float :=
  match tzinfo dt with
  | Some off => int_true_divide (utc_micros dt off) 1000000
  | None =>
      let s := wall_seconds dt - epoch_seconds - local_utcoffset dt in
      whole <- float_of_int s ;;
      Returns (fadd whole (fdiv (float_of_Z (microsecond dt))
                                (float_of_Z 1000000)))
  end.

(** *** [datetime.strftime] *)

(** The fields of an offset as [%z] and [tzname()] print them. *)
Definition offset_fields (off : Z) : bool * Z * Z * Z * Z :=
  let a := Z.abs off in
  (off <? 0,
   a / 3600000000,
   a mod 3600000000 / 60000000,
   a mod 60000000 / 1000000,
   a mod 1000000).

Definition pad (width : nat) (n : Z) : str := zfill width (str_of_int n).

(** [%z]: [+HHMM], with seconds and microseconds when they are not zero. *)
Definition format_offset (off : Z) : str :=
  let '(neg, h, m, s, u) := offset_fields off in
  (if neg then "-" else "+") ++ pad 2 h ++ pad 2 m ++
  (if negb (u =? 0) then pad 2 s ++ "." ++ pad 6 u
   else if negb (s =? 0) then pad 2 s
   else []).

(** [%Z]: the name of a fixed-offset zone. *)
Definition tzname (off : Z) : str :=
  if off =? 0 then "UTC"
  else
    let '(neg, h, m, s, u) := offset_fields off in
    "UTC" ++ (if neg then "-" else "+") ++ pad 2 h ++ ":" ++ pad 2 m ++
    (if negb (u =? 0) then ":" ++ pad 2 s ++ "." ++ pad 6 u
     else if negb (s =? 0) then ":" ++ pad 2 s
     else []).

Definition NUL : ascii := "000"%char.

(** The first phase of [dt.strftime(format)]: the format is scanned up to
    its end or to a NUL character; [%z], [%Z] and [%f] are replaced by
    their text, any other [%] is copied with the character after it. *)
Fixpoint wrap_strftime (dt : datetime) (format : str) : str :=
  match format with
  | [] => []
  | ch :: rest =>
      if Ascii.eqb ch NUL then []
      else if Ascii.eqb ch "%" then
        match rest with
        | [] => "%"
        | ch' :: rest' =>
            if Ascii.eqb ch' NUL then "%"
            else if Ascii.eqb ch' "z" then
              match tzinfo dt with
              | Some off => format_offset off
              | None => []
              end ++ wrap_strftime dt rest'
            else if Ascii.eqb ch' "Z" then
              match tzinfo dt with
              | Some off => replace "%" "%%" (tzname off)
              | None => []
              end ++ wrap_strftime dt rest'
            else if Ascii.eqb ch' "f" then
              pad 6 (microsecond dt) ++ wrap_strftime dt rest'
            else "%"%char :: ch' :: wrap_strftime dt rest'
        end
      else ch :: wrap_strftime dt rest
  end.

(** The year as [%Y] writes it. *)
Definition year_text `{Host} (y : Z) : str :=
  if libc_pads_year then pad 4 y else str_of_int y.

(** The conversions of the C standard that do not depend on the locale,
    among those the translator writes. *)
Definition c_conversion `{Host} (dt : datetime) (c : ascii) : option str :=
  if Ascii.eqb c "Y" then Some (year_text (year dt))
  else if Ascii.eqb c "m" then Some (pad 2 (month dt))
  else if Ascii.eqb c "d" then Some (pad 2 (day dt))
  else if Ascii.eqb c "H" then Some (pad 2 (hour dt))
  else if Ascii.eqb c "M" then Some (pad 2 (minute dt))
  else if Ascii.eqb c "S" then Some (pad 2 (second dt))
  else if Ascii.eqb c "%" then Some ("%" : str)
  else None.

(** The second phase, [time.strftime(newformat, dt.timetuple())]: ordinary
    characters are copied and the conversions above are written; from the
    first other conversion on, the output is the C library's. *)
Fixpoint time_strftime `{Host} (dt : datetime) (format : str) : str :=
  match format with
  | [] => []
  | c :: rest =>
      if Ascii.eqb c "%" then
        match rest with
        | [] => libc_strftime format dt
        | d :: rest' =>
            match c_conversion dt d with
            | Some text => text ++ time_strftime dt rest'
            | None => libc_strftime format dt
            end
        end
      else c :: time_strftime dt rest
  end.

(** [dt.strftime(fmt)] *)
Definition strftime `{Host} (dt : datetime) (fmt : str) : str :=
  time_strftime dt (wrap_strftime dt fmt).

(** ** The converter ([timestamp_conversion.py], lines 28-139) *)

(** [ts[-k]] *)
Definition char_from_end (k : nat) (ts : str) : ascii :=
  nth (List.length ts - k) ts "000"%char.

(** Lines 66-79: the input is parsed as it is and, when that fails and the
    string ends in a sign followed by four characters, once more with a
    colon before the last two. *)
Definition parse_timestamp (ts : str) : result datetime :=
  dt <- match fromisoformat ts with
        | Returns d => Returns (Some d)
        | Raises _ =>
            if (5 <=? List.length ts)%nat
               && is_sign (char_from_end 5 ts)
               && negb (Ascii.eqb (char_from_end 3 ts) ":")
            then
              let ts_with_colon :=
                firstn (List.length ts - 2) ts ++ ":" ++
                skipn (List.length ts - 2) ts in
              d <- fromisoformat ts_with_colon ;;
              Returns (Some d)
            else Returns None
        end ;;
  match dt with
  | None => raise ValueError ("Could not parse timestamp: " ++ ts)
  | Some d => Returns d
  end.

(** [str(microseconds * 1000).zfill(9)] *)
Definition nanos_str (dt : datetime) : str :=
  zfill 9 (str_of_int (microsecond dt * 1000)).

(** The body of the outer [try]. *)
Definition convert_body `{Host} (ts target_format : str) : result str :=
  dt <- parse_timestamp ts ;;
  if str_eqb target_format "epoch_ms" then
    t <- timestamp dt ;;
    n <- int_of_float (fmul t (float_of_Z 1000)) ;;
    Returns (str_of_int n)
  else if str_eqb target_format "epoch_sec" then
    t <- timestamp dt ;;
    n <- int_of_float t ;;
    Returns (str_of_int n)
  else if contains "nnnnnnnnn" target_format then
    let nanos_str := nanos_str dt in
    result <-
      (if contains "Z" target_format then
         dt_utc <- astimezone_utc dt ;;
         let dt_utc := replace_tzinfo dt_utc None in
         let strftime_format :=
           replace "Z" "" (replace "nnnnnnnnn" "{NANOS}" target_format) in
         let strftime_format :=
           _convert_readable_to_strftime strftime_format in
         Returns (strftime dt_utc strftime_format ++ "Z")
       else
         let strftime_format := replace "nnnnnnnnn" "{NANOS}" target_format in
         let strftime_format :=
           _convert_readable_to_strftime strftime_format in
         Returns (strftime dt strftime_format)) ;;
    Returns (replace "{NANOS}" nanos_str result)
  else if contains "Z" target_format then
    dt_utc <- astimezone_utc dt ;;
    let dt_utc := replace_tzinfo dt_utc None in
    let strftime_format := replace "Z" "" target_format in
    let strftime_format := _convert_readable_to_strftime strftime_format in
    Returns (strftime dt_utc strftime_format ++ "Z")
  else
    let strftime_format := _convert_readable_to_strftime target_format in
    Returns (strftime dt strftime_format).

(** Line 138: whatever the body raises is raised again as an [Exception]
    whose message is prefixed. *)
Definition convert_timestamp_format `{Host} (ts target_format : str)
  : result str :=
  match convert_body ts target_format with
  | Returns s => Returns s
  | Raises e =>
      raise Exception ("Error converting timestamp: " ++ exn_msg e)
  end.

(** A C library for the examples: beyond the seven conversions above it
    knows [%T], which C99 defines as [%H:%M:%S], and it copies a conversion
    it does not know, as the GNU C library does. *)
Fixpoint sample_strftime (pads_year : bool) (format : str) (dt : datetime)
  : str :=
  match format with
  | [] => []
  | c :: rest =>
      if Ascii.eqb c "%" then
        match rest with
        | [] => "%"
        | d :: rest' =>
            (if Ascii.eqb d "T"
             then pad 2 (hour dt) ++ ":" ++ pad 2 (minute dt) ++ ":"
                  ++ pad 2 (second dt)
             else if Ascii.eqb d "Y"
             then (if pads_year then pad 4 (year dt)
                   else str_of_int (year dt))
             else if Ascii.eqb d "m" then pad 2 (month dt)
             else if Ascii.eqb d "d" then pad 2 (day dt)
             else if Ascii.eqb d "H" then pad 2 (hour dt)
             else if Ascii.eqb d "M" then pad 2 (minute dt)
             else if Ascii.eqb d "S" then pad 2 (second dt)
             else if Ascii.eqb d "%" then "%"
             else [c; d])
            ++ sample_strftime pads_year rest' dt
        end
      else c :: sample_strftime pads_year rest dt
  end.

(** A host whose zone is UTC and whose C library does not pad the year. *)
Definition utc_host : Host :=
  {| local_utcoffset := fun _ => 0;
     libc_pads_year := false;
     libc_strftime := sample_strftime false |}.

(** A host one hour east of UTC whose C library pads the year. *)
Definition padding_host : Host :=
  {| local_utcoffset := fun _ => 3600;
     libc_pads_year := true;
     libc_strftime := sample_strftime true |}.

(** ** Python numbers

    The arguments of [format_number] are [int]s or [float]s.  Comparisons
    between the two are exact, as in Python; arithmetic that involves a
    [float] converts the [int] operand first. *)

Inductive number : Set :=
| PyInt (z : Z)
| PyFloat (x : float).

(** The exact value of a number: not a number, an infinity, or [m * 2^e]. *)
Inductive extended : Set :=
| XNaN
| XInf (neg : bool)
| XFin (m e : Z).

Definition ext (x : number) : extended :=
  match x with
  | PyInt z => XFin z 0
  | PyFloat S754_nan => XNaN
  | PyFloat (S754_infinity s) => XInf s
  | PyFloat (S754_zero _) => XFin 0 0
  | PyFloat (S754_finite s m e) => XFin (if s then Zneg m else Zpos m) e
  end.

Definition fin_compare (m1 e1 m2 e2 : Z) : comparison :=
  let e := Z.min e1 e2 in
  (m1 * 2 ^ (e1 - e)) ?= (m2 * 2 ^ (e2 - e)).

Definition num_compare (a b : number) : option comparison :=
  match ext a, ext b with
  | XNaN, _ | _, XNaN => None
  | XInf s1, XInf s2 =>
      Some (match s1, s2 with
            | true, false => Lt
            | false, true => Gt
            | _, _ => Eq
            end)
  | XInf s, XFin _ _ => Some (if s then Lt else Gt)
  | XFin _ _, XInf s => Some (if s then Gt else Lt)
  | XFin m1 e1, XFin m2 e2 => Some (fin_compare m1 e1 m2 e2)
  end.

(** [a < b], [a > b], [a >= b] *)
Definition num_lt (a b : number) : bool :=
  match num_compare a b with
  | Some Lt => true
  | _ => false
  end.

Definition num_gt (a b : number) : bool :=
  match num_compare a b with
  | Some Gt => true
  | _ => false
  end.

Definition num_ge (a b : number) : bool :=
  match num_compare a b with
  | Some Gt | Some Eq => true
  | _ => false
  end.

(** [abs(x)] *)
Definition num_abs (x : number) : number :=
  match x with
  | PyInt z => PyInt (Z.abs z)
  | PyFloat f => PyFloat (SFabs f)
  end.

(** [max(a, b)]: the first argument unless the second is greater. *)
Definition num_max (a b : number) : number :=
  if num_gt b a then b else a.

(** [a - b] *)
Definition num_sub (a b : number) : result number :=
  match a, b with
  | PyInt x, PyInt y => Returns (PyInt (x - y))
  | PyFloat x, PyFloat y => Returns (PyFloat (fsub x y))
  | PyInt x, PyFloat y =>
      x' <- float_of_int x ;; Returns (PyFloat (fsub x' y))
  | PyFloat x, PyInt y =>
      y' <- float_of_int y ;; Returns (PyFloat (fsub x y'))
  end.

(** [a / b] for an [int] divisor *)
Definition num_truediv (a : number) (b : Z) : result float :=
  match a with
  | PyInt x => int_true_divide x b
  | PyFloat x =>
      if b =? 0 then raise ZeroDivisionError "float division by zero"
      else b' <- float_of_int b ;; Returns (fdiv x b')
  end.

(** [f"{x:.2f}"] *)
Definition num_format_2f (x : number) : result str :=
  match x with
  | PyInt z => f <- float_of_int z ;; Returns (format_2f f)
  | PyFloat f => Returns (format_2f f)
  end.

(** ** The magnitude formatter ([parse_number_to_string.py]) *)

Definition suffixes : list (Z * str) :=
  [ (1000000000, "B" : str); (1000000, "M" : str); (1000, "K" : str) ].

(** The loop of lines 31-35: the first threshold that [num_abs] reaches. *)
Fixpoint first_threshold (num_abs : number) (l : list (Z * str))
  : option str * Z :=
  match l with
  | [] => (None, 1)
  | (threshold, suffix) :: l' =>
      if num_ge num_abs (PyInt threshold) then (Some suffix, threshold)
      else first_threshold num_abs l'
  end.

(** Lines 4-50. *)
Definition format_number (num : number) : result (str * option str * Z) :=
  let is_negative := num_lt num (PyInt 0) in
  let num_abs := num_abs num in
  let '(chosen_suffix, chosen_magnitude) :=
    if num_ge num_abs (PyInt 1000) then first_threshold num_abs suffixes
    else (None, 1) in
  result <-
    match chosen_suffix with
    | Some suffix =>
        scaled <- num_truediv num chosen_magnitude ;;
        Returns (format_2f scaled ++ suffix)
    | None => num_format_2f num
    end ;;
  let result :=
    if is_negative && num_ge num_abs (PyInt 1000) then "-" ++ result
    else if is_negative then "-" ++ result
    else result in
  Returns (result, chosen_suffix, chosen_magnitude).

(** Lines 53-97.  When none of the four tests of lines 74-85 holds, the two
    variables are not bound and line 91 raises. *)
Definition format_difference (x1 x2 : number) : result str :=
  _ <- format_number x1 ;;
  _ <- format_number x2 ;;
  let largest_num := num_max (num_abs x1) (num_abs x2) in
  let to_use : option (Z * option str) :=
    if num_lt largest_num (PyInt 1000) then Some (1, None)
    else if num_ge largest_num (PyInt 1000000000)
    then Some (1000000000, Some ("B" : str))
    else if num_ge largest_num (PyInt 1000000)
    then Some (1000000, Some ("M" : str))
    else if num_ge largest_num (PyInt 1000)
    then Some (1000, Some ("K" : str))
    else None in
  difference <- num_sub x1 x2 ;;
  match to_use with
  | None =>
      raise UnboundLocalError
        "local variable 'suffix_to_use' referenced before assignment"
  | Some (magnitude_to_use, Some suffix_to_use) =>
      scaled_diff <- num_truediv difference magnitude_to_use ;;
      Returns (format_2f scaled_diff ++ suffix_to_use)
  | Some (_, None) => num_format_2f difference
  end.

(** ** Notions used to state the properties *)

Definition all_digits (s : str) : Prop := Forall (fun c => is_digit c = true) s.

(** The characters of a time or offset string. *)
Definition time_char (c : ascii) : bool :=
  is_digit c || Ascii.eqb c ":" || Ascii.eqb c ".".

(** The order of the table matters for one reason: a later token must not
    begin in the middle of a pattern written by an earlier substitution.
    [table_ok done T] checks it: every pattern is [%] and one letter, no
    token contains [%], and no token starts with a letter of [done], the
    letters of the patterns written so far. *)
Fixpoint table_ok (done : list ascii) (T : list (str * str)) : bool :=
  match T with
  | [] => true
  | (h :: tok, [p; d]) :: T' =>
      Ascii.eqb p "%"
      && negb (existsb (Ascii.eqb h) done)
      && negb (existsb (Ascii.eqb "%") (h :: tok))
      && table_ok (d :: done) T'
  | _ => false
  end.

(** Every pattern of [T] is [%] followed by a letter of [done]. *)
Definition patterns_in (done : list ascii) (T : list (str * str)) : Prop :=
  forall tok rep, In (tok, rep) T ->
    exists d, rep = ["%"%char; d] /\ In d done.

(** The values that the constructor [datetime(...)] accepts. *)
Definition valid_datetime (dt : datetime) : Prop :=
  1 <= year dt <= 9999
  /\ 1 <= month dt <= 12
  /\ 1 <= day dt <= _days_in_month (year dt) (month dt)
  /\ 0 <= hour dt <= 23
  /\ 0 <= minute dt <= 59
  /\ 0 <= second dt <= 59
  /\ 0 <= microsecond dt <= 999999
  /\ match tzinfo dt with
     | Some off => -86400000000 < off < 86400000000
     | None => True
     end.

(** [s] ends with [suffix]. *)
Definition endswith (suffix s : str) : Prop := exists d, s = d ++ suffix.

(** The number that a run of digits writes, continuing from [acc]. *)
Definition digits_value (acc : Z) (ds : str) : Z :=
  fold_left (fun a c => a * 10 + digit_val c) ds acc.

(** The instant of an aware value, in microseconds from the epoch. *)
Definition instant (dt : datetime) : option Z :=
  match tzinfo dt with
  | Some off => Some (utc_micros dt off)
  | None => None
  end.

(** The value without its fraction of a second. *)
Definition whole_seconds (dt : datetime) : datetime :=
  mk_datetime (year dt) (month dt) (day dt) (hour dt) (minute dt)
    (second dt) 0 (tzinfo dt).

(** Writing [ts], parsed as [dt], with the template
    [YYYY-MM-DDTHH:MI:SSoffset] gives a string that the converter parses
    again, to the instant of [dt]. *)
Definition round_trips `{Host} (ts : str) (dt : datetime) : Prop :=
  exists out dt',
    convert_timestamp_format ts "YYYY-MM-DDTHH:MI:SSoffset" = Returns out
    /\ parse_timestamp out = Returns dt'
    /\ instant dt' = instant dt.

(** The first seven substitutions of the translator. *)
Definition substitutions_before_TZ (s : str) : str :=
  replace "offset" "%z"
    (replace "SS" "%S"
       (replace "MI" "%M"
          (replace "HH" "%H"
             (replace "DD" "%d" (replace "MM" "%m" (replace "YYYY" "%Y" s)))))).

(** What [strftime] writes for the conversions that the translator can
    write. *)
Definition conversion `{Host} (dt : datetime) (c : ascii) : str :=
  if Ascii.eqb c "z"
  then match tzinfo dt with Some off => format_offset off | None => [] end
  else if Ascii.eqb c "Z"
  then match tzinfo dt with Some off => tzname off | None => [] end
  else match c_conversion dt c with
       | Some text => text
       | None => []
       end.

(** A character that every phase of [strftime] copies. *)
Definition ordinary (c : ascii) : Prop := c <> "%"%char /\ c <> NUL.

(** The year of the value is written with four digits: the host pads it,
    or it has four digits. *)
Definition four_digit_year `{Host} (dt : datetime) : Prop :=
  libc_pads_year = true \/ 1000 <= year dt.

(** The string begins with a date written [YYYY-MM-DD]. *)
Definition begins_with_date (ts : str) : bool :=
  match ts with
  | y0 :: y1 :: y2 :: y3 :: s1 :: m0 :: m1 :: s2 :: d0 :: d1 :: _ =>
      forallb is_digit [y0; y1; y2; y3; m0; m1; d0; d1]
      && Ascii.eqb s1 "-" && Ascii.eqb s2 "-"
  | _ => false
  end.

(** Words joined by a separator character. *)
Fixpoint join (c : ascii) (words : list str) : str :=
  match words with
  | [] => []
  | [w] => w
  | w :: ws => w ++ c :: join c ws
  end.

(** The table with the substitutions of [MM] and [MI] exchanged. *)
Definition exchanged_table : list (str * str) :=
  [ ("YYYY" : str, "%Y" : str);
    ("MI" : str, "%M" : str);
    ("DD" : str, "%d" : str);
    ("HH" : str, "%H" : str);
    ("MM" : str, "%m" : str);
    ("SS" : str, "%S" : str);
    ("offset" : str, "%z" : str);
    ("TZ" : str, "%Z" : str) ].

(** A check on the [2^k] integers from [base] on, by halving; [guarded]
    limits it to the integers below a bound. *)
Fixpoint forall_range (k : nat) (f : Z -> bool) (base : Z) : bool :=
  match k with
  | O => f base
  | S k' =>
      forall_range k' f base && forall_range k' f (base + 2 ^ Z.of_nat k')
  end.

Definition guarded (bound : Z) (f : Z -> bool) (i : Z) : bool :=
  if bound <=? i then true else f i.

(** Month and day of the [n]-th day (from 0) of a year, as the last lines
    of [_ord2ymd] compute them. *)
Definition month_and_day (leapyear : bool) (n : Z) : Z * Z :=
  let m := Z.shiftr (n + 50) 5 in
  let preceding :=
    nth (Z.to_nat m) _DAYS_BEFORE_MONTH (-1)
    + (if (2 <? m) && leapyear then 1 else 0) in
  if n <? preceding
  then
    let m := m - 1 in
    let preceding :=
      preceding
      - (nth (Z.to_nat m) _DAYS_IN_MONTH (-1)
         + (if (m =? 2) && leapyear then 1 else 0)) in
    (m, n - preceding + 1)
  else (m, n - preceding + 1).

Definition not_nan (x : number) : Prop := ext x <> XNaN.

(** An [int] whose conversion is exact, or any [float]. *)
Definition exact_or_float (x : number) : Prop :=
  match x with
  | PyInt z => Z.abs z < 2 ^ 53
  | PyFloat _ => True
  end.

(** The scale class that the tests of lines 74-85 (and the loop of lines
    31-35) select for a magnitude: the largest of the thresholds [10^9],
    [10^6], [10^3] that it reaches, with its suffix, and scale 1 without
    suffix below [10^3]. *)
Definition scale_class (largest : number) : Z * str :=
  if num_ge largest (PyInt 1000000000) then (1000000000, "B" : str)
  else if num_ge largest (PyInt 1000000) then (1000000, "M" : str)
  else if num_ge largest (PyInt 1000) then (1000, "K" : str)
  else (1, [] : str).

(** The value that is rendered: the number itself at scale 1, the number
    divided by the scale otherwise. *)
Definition scaled_by (x : number) (scale : Z) : result float :=
  if scale =? 1 then
    match x with
    | PyInt z => float_of_int z
    | PyFloat f => Returns f
    end
  else num_truediv x scale.

(** The real number that an [int] or a finite [float] stands for. *)
Definition real_value (x : number) : Q :=
  match x with
  | PyInt z => inject_Z z
  | PyFloat (S754_finite s m e) =>
      (inject_Z (if s then Zneg m else Zpos m) * 2 ^ e)%Q
  | PyFloat _ => 0%Q
  end.

(** An [int], or a [float] that is neither a NaN nor an infinity. *)
Definition real_number (x : number) : Prop :=
  match x with
  | PyInt _ => True
  | PyFloat f => is_finite f = true
  end.

(** The real numbers within the range of a [float]: a finite [float], or an
    [int] below [2^1023] in magnitude. *)
Definition in_float_range (x : number) : Prop :=
  match x with
  | PyInt z => Z.abs z < 2 ^ 1023
  | PyFloat f => is_finite f = true
  end.

(** The scale class of a magnitude, as the specification words it: the
    largest threshold among [10^9], [10^6], [10^3] that the magnitude
    reaches, with its suffix; scale 1 and no suffix below [10^3]. *)
Definition class_of (largest : Q) : Z * str :=
  if Qle_bool (inject_Z 1000000000) largest then (1000000000, "B" : str)
  else if Qle_bool (inject_Z 1000000) largest then (1000000, "M" : str)
  else if Qle_bool (inject_Z 1000) largest then (1000, "K" : str)
  else (1, [] : str).

(** A decimal numeral with exactly two digits after the point. *)
Definition two_decimals (text : str) : Prop :=
  exists sign int_digits d1 d2,
    text = sign ++ int_digits ++ "."%char :: [d1; d2]
    /\ (sign = [] \/ sign = ["-"%char])
    /\ int_digits <> [] /\ all_digits int_digits
    /\ is_digit d1 = true /\ is_digit d2 = true.

(** The sign bit of a float that is not a NaN. *)
Definition sign_of (x : float) : option bool :=
  match x with
  | S754_nan => None
  | S754_zero s | S754_infinity s | S754_finite s _ _ => Some s
  end.

(** The double of a positive integer below [2^53]: the integer shifted to
    53 bits, with the exponent that undoes the shift. *)
Definition normal_double (s : bool) (k : Z) : float :=
  S754_finite s (Z.to_pos (k * 2 ^ (52 - Z.log2 k))) (Z.log2 k - 52).

Definition days_in_year (y : Z) : Z := if _is_leap y then 366 else 365.

(** Whether [format_number] returns the given display string, suffix and
    scale. *)
Definition format_number_is (n : Z) (text suffix : str) (scale : Z) : bool :=
  match format_number (PyInt n) with
  | Returns (t, Some s, m) => str_eqb t text && str_eqb s suffix && (m =? scale)
  | _ => false
  end.

(* ================================================================= *)
(** * Part II: properties *)
(* ================================================================= *)

(** ** Strings *)

Lemma startswith_app (p r : str) : startswith p (p ++ r) = true.
Proof.
  induction p as [|a p IH]; simpl; [reflexivity|].
  now rewrite Ascii.eqb_refl, IH.
Qed.

Lemma startswith_split (p s : str) :
  startswith p s = true -> s = p ++ skipn (List.length p) s.
Proof.
  revert s; induction p as [|a p IH]; intros s Hs; simpl in *.
  - reflexivity.
  - destruct s as [|b s]; [discriminate|].
    apply andb_prop in Hs as [Hab Hs].
    apply Ascii.eqb_eq in Hab; subst b.
    simpl. f_equal. now apply IH.
Qed.

Lemma startswith_head (h c : ascii) (p s : str) :
  h <> c -> startswith (h :: p) (c :: s) = false.
Proof.
  intros Hne; simpl.
  destruct (Ascii.eqb h c) eqn:E; [|reflexivity].
  apply Ascii.eqb_eq in E; contradiction.
Qed.

Lemma replace_fuel_enough (old new : str) (f1 f2 : nat) (s : str) :
  old <> [] ->
  (List.length s <= f1)%nat -> (List.length s <= f2)%nat ->
  replace_fuel f1 old new s = replace_fuel f2 old new s.
Proof.
  intros Hold; revert f2 s.
  induction f1 as [|f1 IH]; intros f2 s H1 H2.
  - destruct s; [|simpl in H1; lia]. now destruct f2.
  - destruct s as [|c s]; [now destruct f2|].
    destruct f2 as [|f2]; [simpl in H2; lia|].
    simpl in H1, H2. cbn [replace_fuel].
    destruct (startswith old (c :: s)).
    + f_equal. destruct old as [|a old]; [congruence|].
      cbn [List.length skipn].
      pose proof (length_skipn (List.length old) s) as L.
      apply IH; lia.
    + f_equal. apply IH; lia.
Qed.

Lemma replace_nil (old new : str) : old <> [] -> replace old new [] = [].
Proof. destruct old; [congruence|reflexivity]. Qed.

Lemma replace_match (old new s : str) :
  old <> [] -> startswith old s = true ->
  replace old new s = new ++ replace old new (skipn (List.length old) s).
Proof.
  intros Hold Hs. unfold replace.
  destruct old as [|a old]; [congruence|].
  destruct s as [|c s]; [discriminate|].
  cbn [List.length replace_fuel]. rewrite Hs. f_equal.
  apply replace_fuel_enough; [congruence| |lia].
  cbn [skipn]. pose proof (length_skipn (List.length old) s). lia.
Qed.

Lemma replace_skip (old new : str) (c : ascii) (s : str) :
  old <> [] -> startswith old (c :: s) = false ->
  replace old new (c :: s) = c :: replace old new s.
Proof.
  intros Hold Hs. unfold replace.
  destruct old as [|a old]; [congruence|].
  cbn [List.length replace_fuel]. now rewrite Hs.
Qed.

(** A first occurrence at the front is replaced, and the scan goes on
    behind it. *)
Lemma replace_app (old new r : str) :
  old <> [] -> replace old new (old ++ r) = new ++ replace old new r.
Proof.
  intros Hold.
  rewrite replace_match by (auto using startswith_app).
  now rewrite skipn_app, skipn_all, Nat.sub_diag.
Qed.

Lemma contains_false_startswith (sub s : str) :
  contains sub s = false -> startswith sub s = false.
Proof.
  destruct s; simpl; intros H; apply orb_false_elim in H; tauto.
Qed.

Lemma contains_false_tail (sub : str) (c : ascii) (s : str) :
  contains sub (c :: s) = false -> contains sub s = false.
Proof.
  cbn [contains]. intros H; apply orb_false_elim in H; tauto.
Qed.

(** Without an occurrence, nothing changes. *)
Lemma replace_absent (old new s : str) :
  old <> [] -> contains old s = false -> replace old new s = s.
Proof.
  intros Hold. induction s as [|c s IH]; intros H.
  - now apply replace_nil.
  - rewrite replace_skip by auto using contains_false_startswith.
    f_equal. apply IH. eapply contains_false_tail; eauto.
Qed.

(** Induction along the scan of [replace]: at each position either an
    occurrence starts, and the scan jumps behind it, or one character is
    copied. *)
Lemma replace_scan_ind (old : str) (P : str -> Prop) :
  old <> [] ->
  P [] ->
  (forall s, startswith old s = true ->
             P (skipn (List.length old) s) -> P s) ->
  (forall x s, startswith old (x :: s) = false -> P s -> P (x :: s)) ->
  forall s, P s.
Proof.
  intros Hold Hnil Hmatch Hskip s.
  remember (List.length s) as n eqn:En.
  revert s En. induction n as [n IH] using lt_wf_ind. intros s En.
  destruct s as [|x s]; [exact Hnil|].
  destruct (startswith old (x :: s)) eqn:E.
  - apply Hmatch; [exact E|].
    destruct old as [|a old]; [congruence|].
    eapply IH; [|reflexivity].
    pose proof (length_skipn (List.length (a :: old)) (x :: s)) as L.
    simpl in L, En |- *. lia.
  - apply Hskip; [exact E|].
    eapply IH; [|reflexivity]. simpl in En. lia.
Qed.

Lemma in_skipn {A : Type} (c : A) (n : nat) (s : list A) :
  In c (skipn n s) -> In c s.
Proof.
  intros H. rewrite <- (firstn_skipn n s). apply in_or_app. now right.
Qed.

(** A character that is neither in the string nor in the replacement is
    not in the result. *)
Lemma replace_preserves_absent (c : ascii) (old new s : str) :
  old <> [] -> ~ In c new -> ~ In c s -> ~ In c (replace old new s).
Proof.
  intros Hold Hnew. revert s.
  apply (replace_scan_ind old (fun s => ~ In c s ->
                                        ~ In c (replace old new s)) Hold).
  - intros _. rewrite replace_nil by exact Hold. intros [].
  - intros s E IH Hs. rewrite replace_match by assumption.
    intros Hin. apply in_app_or in Hin as [Hin|Hin]; [auto|].
    apply IH; [|exact Hin]. intros Hc. apply Hs. eapply in_skipn; eauto.
  - intros x s E IH Hs. rewrite replace_skip by assumption.
    intros [->|Hin]; [apply Hs; now left|].
    apply IH; [|exact Hin]. intros Hc. apply Hs. now right.
Qed.

(** An occurrence cannot reach over a character that [old] does not
    contain. *)
Lemma startswith_barrier (c : ascii) (old : str) :
  ~ In c old ->
  forall a b, startswith old (a ++ c :: b) = startswith old a.
Proof.
  induction old as [|h old IH]; intros Hc a b; [now destruct a|].
  destruct a as [|x a]; cbn [app startswith].
  - destruct (Ascii.eqb h c) eqn:E; [|reflexivity].
    apply Ascii.eqb_eq in E. subst. exfalso. apply Hc. now left.
  - rewrite IH; [reflexivity|]. intros Hin. apply Hc. now right.
Qed.

(** So the replacement works separately on both sides of it. *)
Lemma replace_barrier (c : ascii) (old new : str) :
  old <> [] -> ~ In c old ->
  forall a b,
    replace old new (a ++ c :: b)
    = replace old new a ++ c :: replace old new b.
Proof.
  intros Hold Hc a b. revert a.
  apply (replace_scan_ind old
           (fun a => replace old new (a ++ c :: b)
                     = replace old new a ++ c :: replace old new b) Hold).
  - cbn [app]. rewrite (replace_nil old new) by exact Hold.
    rewrite replace_skip; [reflexivity|exact Hold|].
    pose proof (startswith_barrier c old Hc [] b) as S. cbn [app] in S.
    rewrite S. now destruct old.
  - intros a E IH.
    rewrite (replace_match old new (a ++ c :: b))
      by (try exact Hold; now rewrite startswith_barrier).
    rewrite (replace_match old new a) by assumption.
    rewrite <- app_assoc. f_equal. rewrite <- IH. f_equal.
    rewrite skipn_app.
    assert (List.length old <= List.length a)%nat as L
      by (rewrite (startswith_split _ _ E), length_app; lia).
    replace (List.length old - List.length a)%nat with 0%nat by lia.
    reflexivity.
  - intros x a E IH.
    assert (startswith old (x :: a ++ c :: b) = false) as E'.
    { pose proof (startswith_barrier c old Hc (x :: a) b) as S.
      cbn [app] in S. now rewrite S. }
    cbn [app]. rewrite (replace_skip old new x (a ++ c :: b)) by assumption.
    rewrite (replace_skip old new x a) by assumption.
    cbn [app]. now rewrite IH.
Qed.

(** A string without [c] has no occurrence of a word with [c]. *)
Lemma absent_char_no_occurrence (c : ascii) (old s : str) :
  In c old -> ~ In c s -> contains old s = false.
Proof.
  intros Hold. induction s as [|x s IH]; intros Hs.
  - destruct old; [destruct Hold|reflexivity].
  - cbn [contains]. rewrite IH by (intros Hin; apply Hs; now right).
    rewrite orb_false_r.
    destruct (startswith old (x :: s)) eqn:E; [|reflexivity].
    apply startswith_split in E. exfalso. apply Hs.
    rewrite E. apply in_or_app. now left.
Qed.

(** ** The template translator *)

Lemma translates_weaken (T T' : list (str * str)) (s o : str) :
  (forall p, In p T -> In p T') -> translates T s o -> translates T' s o.
Proof.
  intros Hin H; induction H; econstructor; eauto.
Qed.

Lemma translates_refl (T : list (str * str)) (s : str) : translates T s s.
Proof. induction s; constructor; auto. Qed.

Lemma existsb_eqb_false (c : ascii) (l : list ascii) :
  existsb (Ascii.eqb c) l = false -> ~ In c l.
Proof.
  intros H Hin.
  assert (existsb (Ascii.eqb c) l = true) as E
    by (apply existsb_exists; exists c; split; [auto|apply Ascii.eqb_refl]).
  congruence.
Qed.

(** A run of the output that contains no [%] was copied. *)
Lemma translates_literal_prefix (done : list ascii) (T : list (str * str))
      (t : str) :
  patterns_in done T -> ~ In "%"%char t ->
  forall s o, translates T s (t ++ o) ->
    exists s', s = t ++ s' /\ translates T s' o.
Proof.
  intros HT. induction t as [|a t IH]; intros Hno s o H.
  - exists s; auto.
  - simpl in H. inversion H as [|c s0 o0 H0|tok rep s0 o0 Hin H0 E1 E2]; subst.
    + destruct (IH (fun X => Hno (or_intror X)) s0 o H0) as (s' & -> & Hs').
      exists s'; auto.
    + destruct (HT _ _ Hin) as (d & -> & _).
      simpl in E2. injection E2 as E2 _. subst a.
      exfalso; apply Hno; now left.
Qed.

(** One substitution turns a one-pass translation into a one-pass
    translation over the extended table. *)
Lemma translates_replace (done : list ascii) (T : list (str * str))
      (h : ascii) (tok rep : str) :
  patterns_in done T ->
  ~ In h done -> ~ In "%"%char (h :: tok) ->
  forall n s o, (List.length o <= n)%nat -> translates T s o ->
    translates ((h :: tok, rep) :: T) s (replace (h :: tok) rep o).
Proof.
  intros HT Hh Hno.
  induction n as [|n IH]; intros s o Hlen H.
  - destruct o; [|simpl in Hlen; lia].
    rewrite replace_nil by congruence.
    eapply translates_weaken; [|exact H]. intros; now right.
  - destruct o as [|x o].
    { rewrite replace_nil by congruence.
      eapply translates_weaken; [|exact H]. intros; now right. }
    destruct (startswith (h :: tok) (x :: o)) eqn:E.
    + pose proof (startswith_split _ _ E) as Eo.
      rewrite replace_match by (congruence || assumption).
      rewrite Eo in H.
      destruct (translates_literal_prefix done T _ HT Hno _ _ H)
        as (s' & -> & Hs').
      apply tr_tok; [now left|].
      apply IH; [|exact Hs'].
      pose proof (length_skipn (List.length (h :: tok)) (x :: o)) as L.
      simpl in L, Hlen |- *. lia.
    + rewrite replace_skip by (congruence || assumption).
      inversion H as [|c s0 o0 H0|tok0 rep0 s0 o0 Hin H0 E1 E2]; subst.
      * apply tr_lit. apply IH; [simpl in Hlen; lia|exact H0].
      * destruct (HT _ _ Hin) as (d & -> & Hd).
        simpl in E2. injection E2 as E2 E3. subst x o.
        rewrite replace_skip; [|congruence|].
        -- change ("%"%char :: d :: replace (h :: tok) rep o0)
             with (["%"%char; d] ++ replace (h :: tok) rep o0).
           apply tr_tok; [now right|].
           apply IH; [simpl in Hlen; lia|exact H0].
        -- apply startswith_head. intros ->. contradiction.
Qed.

Lemma translates_table (T : list (str * str)) :
  forall done Tprev s o,
    table_ok done T = true -> patterns_in done Tprev ->
    translates Tprev s o ->
    translates (rev T ++ Tprev) s (apply_substitutions T o).
Proof.
  induction T as [|[tok rep] T IH]; intros done Tprev s o Hok HT H.
  - exact H.
  - simpl in Hok.
    destruct tok as [|h tok]; [discriminate|].
    destruct rep as [|p [|d [|? ?]]]; try discriminate.
    repeat (apply andb_prop in Hok as [Hok ?]).
    apply Ascii.eqb_eq in Hok; subst p.
    cbn [apply_substitutions fold_left fst snd rev].
    rewrite <- app_assoc. cbn [app].
    apply (IH (d :: done)); [assumption| |].
    + intros tok0 rep0 [E|Hin].
      * injection E as <- <-. exists d; split; [reflexivity|now left].
      * destruct (HT _ _ Hin) as (d0 & -> & Hd0).
        exists d0; split; [reflexivity|now right].
    + eapply translates_replace with (n := List.length o); eauto.
      * apply existsb_eqb_false. now apply negb_true_iff.
      * apply existsb_eqb_false. now apply negb_true_iff.
Qed.

Lemma convert_readable_is_table (s : str) :
  _convert_readable_to_strftime s = apply_substitutions substitution_table s.
Proof. reflexivity. Qed.

Lemma no_token_identity (s : str) :
  (forall tok rep, In (tok, rep) substitution_table ->
                   contains tok s = false) ->
  _convert_readable_to_strftime s = s.
Proof.
  intros H. unfold _convert_readable_to_strftime.
  assert (forall tok rep, In (tok, rep) substitution_table ->
                          replace tok rep s = s) as R.
  { intros tok rep Hin. apply replace_absent; [|eauto].
    simpl in Hin. intuition (inversion H0; subst; discriminate). }
  cbv zeta.
  rewrite (R "YYYY" "%Y") by (simpl; tauto).
  rewrite (R "MM" "%m") by (simpl; tauto).
  rewrite (R "DD" "%d") by (simpl; tauto).
  rewrite (R "HH" "%H") by (simpl; tauto).
  rewrite (R "MI" "%M") by (simpl; tauto).
  rewrite (R "SS" "%S") by (simpl; tauto).
  rewrite (R "offset" "%z") by (simpl; tauto).
  rewrite (R "TZ" "%Z") by (simpl; tauto).
  reflexivity.
Qed.

(** The result is a one-pass rewriting of the template. *)
Lemma convert_readable_translates (s : str) :
  translates substitution_table s (_convert_readable_to_strftime s).
Proof.
  rewrite convert_readable_is_table.
  eapply translates_weaken;
    [|apply (translates_table substitution_table [] [] s s)].
  - intros p Hp. rewrite app_nil_r in Hp. now apply in_rev.
  - reflexivity.
  - intros ? ? [].
  - apply translates_refl.
Qed.

(** One substitution works word by word when the separator does not occur
    in the token. *)
Lemma replace_join (c : ascii) (old new : str) (words : list str) :
  old <> [] -> ~ In c old ->
  replace old new (join c words) = join c (map (replace old new) words).
Proof.
  intros Hold Hc. induction words as [|w [|w' ws] IH].
  - apply replace_nil, Hold.
  - reflexivity.
  - change (join c (w :: w' :: ws)) with (w ++ c :: join c (w' :: ws)).
    rewrite replace_barrier by assumption. rewrite IH. reflexivity.
Qed.

Lemma convert_readable_join (c : ascii) (words : list str) :
  (forall tok rep, In (tok, rep) substitution_table -> ~ In c tok) ->
  _convert_readable_to_strftime (join c words)
  = join c (map _convert_readable_to_strftime words).
Proof.
  intros Hc. unfold _convert_readable_to_strftime. cbv zeta.
  assert (forall tok rep, In (tok, rep) substitution_table ->
            forall ws, replace tok rep (join c ws)
                       = join c (map (replace tok rep) ws)) as R.
  { intros tok rep Hin ws. apply replace_join; [|eauto].
    cbn in Hin.
    repeat (destruct Hin as [Hin|Hin];
            [injection Hin as <- <-; discriminate|]).
    destruct Hin. }
  rewrite (R "YYYY" "%Y") by (cbn; tauto).
  rewrite (R "MM" "%m") by (cbn; tauto).
  rewrite (R "DD" "%d") by (cbn; tauto).
  rewrite (R "HH" "%H") by (cbn; tauto).
  rewrite (R "MI" "%M") by (cbn; tauto).
  rewrite (R "SS" "%S") by (cbn; tauto).
  rewrite (R "offset" "%z") by (cbn; tauto).
  rewrite (R "TZ" "%Z") by (cbn; tauto).
  rewrite !map_map. reflexivity.
Qed.

(** C8. The translator is a total function on strings (it cannot raise).
    It is the left-to-right application of the eight substitutions of the
    table, in the table's order, where a substitution is the global one of
    [str.replace]: the string is scanned from the left, an occurrence found
    at the current position is replaced and the scan goes on behind it,
    any other character is copied.  Its result is a one-pass rewriting of
    the template in which occurrences of the eight tokens are replaced by
    their pattern and every other character is copied unchanged; a template
    without any token is returned as it is; each token on its own is
    translated to its pattern; and the translation works word by word on
    words joined by a character that occurs in no token, so that a token
    is replaced wherever it stands as such a word.  On the examples every
    token is replaced, also twice and side by side; and the order shows:
    in [MMI] it is [MM] that is replaced, while the table with [MI] before
    [MM] would replace [MI]. *)
Theorem translator_ordered_substitutions (template : str) :
  substitution_table =
    [ ("YYYY" : str, "%Y" : str); ("MM" : str, "%m" : str);
      ("DD" : str, "%d" : str); ("HH" : str, "%H" : str);
      ("MI" : str, "%M" : str); ("SS" : str, "%S" : str);
      ("offset" : str, "%z" : str); ("TZ" : str, "%Z" : str) ]
  /\ _convert_readable_to_strftime template
     = fold_left (fun acc p => replace (fst p) (snd p) acc)
         substitution_table template
  /\ (forall old new : str, old <> [] ->
        replace old new [] = []
        /\ (forall s, startswith old s = true ->
              replace old new s
              = new ++ replace old new (skipn (List.length old) s))
        /\ (forall c s, startswith old (c :: s) = false ->
              replace old new (c :: s) = c :: replace old new s))
  /\ translates substitution_table template
       (_convert_readable_to_strftime template)
  /\ ((forall tok rep, In (tok, rep) substitution_table ->
                       contains tok template = false) ->
      _convert_readable_to_strftime template = template)
  /\ (forall tok rep, In (tok, rep) substitution_table ->
        _convert_readable_to_strftime tok = rep)
  /\ (forall (c : ascii) (words : list str),
        (forall tok rep, In (tok, rep) substitution_table -> ~ In c tok) ->
        _convert_readable_to_strftime (join c words)
        = join c (map _convert_readable_to_strftime words))
  /\ _convert_readable_to_strftime "YYYY-MM-DDTHH:MI:SSoffset TZ"
     = ("%Y-%m-%dT%H:%M:%S%z %Z" : str)
  /\ _convert_readable_to_strftime "YYYYMMDD YYYYMMDD"
     = ("%Y%m%d %Y%m%d" : str)
  /\ _convert_readable_to_strftime "MMI" = ("%mI" : str)
  /\ fold_left (fun acc p => replace (fst p) (snd p) acc)
       exchanged_table "MMI" = ("M%M" : str).
Proof.
  split; [reflexivity|]. split; [reflexivity|]. split.
  { intros old new Hold. split; [now apply replace_nil|]. split.
    - intros s. now apply replace_match.
    - intros c s. now apply replace_skip. }
  split; [apply convert_readable_translates|].
  split; [apply no_token_identity|]. split.
  { intros tok rep Hin. cbn in Hin.
    repeat (destruct Hin as [Hin|Hin];
            [injection Hin as <- <-; reflexivity|]).
    destruct Hin. }
  split; [intros c words; apply convert_readable_join|].
  repeat split; vm_compute; reflexivity.
Qed.

(** ** The shape of the strings that [fromisoformat] accepts *)

Lemma parse_digits_spec (n : nat) :
  forall acc s v r, parse_digits n acc s = Some (v, r) ->
    exists d, s = d ++ r /\ List.length d = n /\ all_digits d.
Proof.
  induction n as [|n IH]; intros acc s v r H; simpl in H.
  - injection H as <- <-. exists []. repeat split. constructor.
  - destruct s as [|c s]; [discriminate|].
    destruct (is_digit c) eqn:E; [|discriminate].
    destruct (IH _ _ _ _ H) as (d & -> & L & D).
    exists (c :: d). repeat split; simpl; auto. constructor; auto.
Qed.

Lemma expect_spec (c : ascii) (s r : str) :
  expect c s = Some r -> s = c :: r.
Proof.
  destruct s as [|x s]; simpl; [discriminate|].
  destruct (Ascii.eqb x c) eqn:E; [|discriminate].
  apply Ascii.eqb_eq in E. intros [= <-]. now subst.
Qed.

Lemma sign_cases (c : ascii) :
  is_sign c = true -> c = "+"%char \/ c = "-"%char.
Proof.
  unfold is_sign. intros H.
  apply orb_prop in H as [H|H]; apply Ascii.eqb_eq in H; auto.
Qed.

Lemma sign_not_digit (c : ascii) : is_sign c = true -> is_digit c = false.
Proof. intros H. destruct (sign_cases c H); subst; reflexivity. Qed.

Lemma sign_not_time_char (c : ascii) :
  is_sign c = true -> time_char c = false.
Proof. intros H. destruct (sign_cases c H); subst; reflexivity. Qed.

Lemma all_digits_time (d : str) :
  all_digits d -> Forall (fun c => time_char c = true) d.
Proof.
  apply Forall_impl. intros c H. unfold time_char. now rewrite H.
Qed.

Lemma parse_fraction_spec (s : str) (v : Z) :
  parse_fraction s = Some v ->
  all_digits s /\ (List.length s = 3 \/ List.length s = 6)%nat.
Proof.
  unfold parse_fraction. intros H.
  destruct (parse_digits 3 0 s) as [[ms s1]|] eqn:E1; [|discriminate].
  apply parse_digits_spec in E1 as (d1 & -> & L1 & D1).
  destruct s1 as [|c s1].
  - rewrite app_nil_r. auto.
  - destruct (parse_digits 3 ms (c :: s1)) as [[us s2]|] eqn:E2;
      [|discriminate].
    apply parse_digits_spec in E2 as (d2 & -> & L2 & D2).
    destruct s2; [|discriminate]. rewrite app_nil_r. split.
    + apply Forall_app; auto.
    + rewrite length_app. lia.
Qed.

Lemma parse_hh_mm_ss_ff_spec (t : str) (r : Z * Z * Z * Z) :
  parse_hh_mm_ss_ff t = Some r ->
  Forall (fun c => time_char c = true) t /\
  In (List.length t) [2; 5; 8; 12; 15]%nat.
Proof.
  unfold parse_hh_mm_ss_ff. intros H.
  assert (time_char ":" = true) as C1 by reflexivity.
  assert (time_char "." = true) as C2 by reflexivity.
  destruct (parse_digits 2 0 t) as [[h s1]|] eqn:E1; [|discriminate].
  apply parse_digits_spec in E1 as (d1 & -> & L1 & D1).
  apply all_digits_time in D1.
  destruct s1 as [|c1 s1].
  { rewrite app_nil_r, L1. simpl; auto. }
  destruct (expect ":" (c1 :: s1)) as [s2|] eqn:X1; [|discriminate].
  apply expect_spec in X1. rewrite X1. clear X1 c1 s1.
  destruct (parse_digits 2 0 s2) as [[mi s3]|] eqn:E2; [|discriminate].
  apply parse_digits_spec in E2 as (d2 & -> & L2 & D2).
  apply all_digits_time in D2.
  destruct s3 as [|c2 s3].
  { rewrite app_nil_r. split.
    - apply Forall_app; split; auto.
    - repeat (rewrite length_app; simpl). rewrite L1, L2. simpl; auto. }
  destruct (expect ":" (c2 :: s3)) as [s4|] eqn:X2; [|discriminate].
  apply expect_spec in X2. rewrite X2. clear X2 c2 s3.
  destruct (parse_digits 2 0 s4) as [[sec s5]|] eqn:E3; [|discriminate].
  apply parse_digits_spec in E3 as (d3 & -> & L3 & D3).
  apply all_digits_time in D3.
  destruct s5 as [|c3 s5].
  { rewrite app_nil_r. split.
    - apply Forall_app; split; auto. constructor; auto.
      apply Forall_app; split; auto.
    - repeat (rewrite length_app; simpl). rewrite L1, L2, L3. simpl; auto. }
  destruct (expect "." (c3 :: s5)) as [s6|] eqn:X3; [|discriminate].
  apply expect_spec in X3. rewrite X3. clear X3 c3 s5.
  destruct (parse_fraction s6) eqn:F; [|discriminate].
  apply parse_fraction_spec in F as [F1 F2]. apply all_digits_time in F1.
  split.
  - apply Forall_app; split; auto. constructor; auto.
    apply Forall_app; split; auto. constructor; auto.
    apply Forall_app; split; auto.
  - repeat (rewrite length_app; simpl). rewrite L1, L2, L3.
    destruct F2 as [-> | ->]; simpl; auto 10.
Qed.

Lemma split_tz_spec (t : str) :
  forall a z, split_tz t = (a, z) ->
    Forall (fun c => is_sign c = false) a /\
    match z with
    | None => t = a
    | Some (c, r) => t = a ++ c :: r /\ is_sign c = true
    end.
Proof.
  induction t as [|c t IH]; intros a z H; simpl in H.
  - injection H as <- <-. auto.
  - destruct (is_sign c) eqn:S.
    + injection H as <- <-. auto.
    + destruct (split_tz t) as [a' z'] eqn:E. injection H as <- <-.
      destruct (IH _ _ eq_refl) as [Fa Hz]. split; [constructor; auto|].
      destruct z' as [[c' r]|]; [destruct Hz as [-> Hc]; auto|now subst].
Qed.

(** A list has at most one decomposition around an element with a property
    that no other element has. *)
Lemma unique_split {A : Type} (P : A -> bool) (a q : list A) (c s : A)
      (z r : list A) :
  a ++ c :: z = q ++ s :: r ->
  Forall (fun x => P x = false) a -> Forall (fun x => P x = false) z ->
  P c = true -> P s = true ->
  a = q /\ z = r.
Proof.
  revert q. induction a as [|x a IH]; intros q E Fa Fz Pc Ps.
  - destruct q as [|y q]; simpl in E.
    + injection E as _ <-. auto.
    + injection E as <- E. subst z.
      apply Forall_app in Fz as [_ Fz]. inversion Fz; congruence.
  - inversion Fa as [|? ? Px Fa']; subst.
    destruct q as [|y q]; simpl in E.
    + injection E as -> _. congruence.
    + injection E as <- E. destruct (IH q E Fa' Fz Pc Ps) as [-> ->]. auto.
Qed.

Lemma time_chars_no_sign (t : str) :
  Forall (fun c => time_char c = true) t ->
  Forall (fun c => is_sign c = false) t.
Proof.
  apply Forall_impl. intros c H.
  destruct (is_sign c) eqn:S; [|reflexivity].
  apply sign_not_time_char in S. congruence.
Qed.

(** What an accepted time string looks like: a time, or a time, a sign and
    an offset of 5, 8 or 15 characters; the only sign is the one between
    them. *)
Lemma parse_isoformat_time_spec (t : str) r :
  parse_isoformat_time t = Some r ->
  exists a z,
    split_tz t = (a, z) /\
    Forall (fun c => is_sign c = false) a /\
    In (List.length a) [2; 5; 8; 12; 15]%nat /\
    match z with
    | None => t = a
    | Some (c, tz) =>
        t = a ++ c :: tz /\ is_sign c = true /\
        Forall (fun c => is_sign c = false) tz /\
        In (List.length tz) [5; 8; 15]%nat
    end.
Proof.
  unfold parse_isoformat_time. intros H.
  destruct (split_tz t) as [a z] eqn:E.
  destruct (split_tz_spec _ _ _ E) as [Fa Hz].
  destruct (parse_hh_mm_ss_ff a) as [comps|] eqn:Pa; [|discriminate].
  apply parse_hh_mm_ss_ff_spec in Pa as [_ La].
  exists a, z. repeat split; auto.
  destruct z as [[c tz]|]; [|assumption].
  destruct Hz as [-> Hc].
  destruct (tz_length_ok tz) eqn:L; [|discriminate].
  destruct (parse_hh_mm_ss_ff tz) as [tzc|] eqn:Pz; [|discriminate].
  apply parse_hh_mm_ss_ff_spec in Pz as [Fz _].
  repeat split; auto using time_chars_no_sign.
  unfold tz_length_ok in L.
  repeat (apply orb_prop in L as [L|L]); apply Nat.eqb_eq in L;
    rewrite L; simpl; auto.
Qed.

Lemma parse_isoformat_time_length (t : str) r :
  parse_isoformat_time t = Some r ->
  (List.length t = 2 \/ 5 <= List.length t)%nat.
Proof.
  intros H. apply parse_isoformat_time_spec in H
    as (a & z & _ & _ & La & Hz).
  destruct z as [[c tz]|].
  - destruct Hz as (-> & _ & _ & Lz). rewrite length_app. simpl in *. lia.
  - subst a. simpl in La. lia.
Qed.

Lemma parse_isoformat_date_spec (d : str) r :
  parse_isoformat_date d = Some r ->
  exists y0 y1 y2 y3 m0 m1 d0 d1,
    d = [y0; y1; y2; y3; "-"%char; m0; m1; "-"%char; d0; d1] /\
    all_digits [y0; y1; y2; y3; m0; m1; d0; d1].
Proof.
  unfold parse_isoformat_date. intros H.
  destruct (parse_digits 4 0 d) as [[y s1]|] eqn:E1; [|discriminate].
  apply parse_digits_spec in E1 as (dy & -> & Ly & Dy).
  destruct (expect "-" s1) as [s2|] eqn:X1; [|discriminate].
  apply expect_spec in X1 as ->.
  destruct (parse_digits 2 0 s2) as [[mo s3]|] eqn:E2; [|discriminate].
  apply parse_digits_spec in E2 as (dm & -> & Lm & Dm).
  destruct (expect "-" s3) as [s4|] eqn:X2; [|discriminate].
  apply expect_spec in X2 as ->.
  destruct (parse_digits 2 0 s4) as [[dd s5]|] eqn:E3; [|discriminate].
  apply parse_digits_spec in E3 as (ddd & -> & Ld & Dd).
  destruct s5; [|discriminate]. rewrite app_nil_r.
  destruct dy as [|y0 [|y1 [|y2 [|y3 [|]]]]]; try discriminate.
  destruct dm as [|m0 [|m1 [|]]]; try discriminate.
  destruct ddd as [|d0 [|d1 [|]]]; try discriminate.
  exists y0, y1, y2, y3, m0, m1, d0, d1. split; [reflexivity|].
  unfold all_digits in *.
  repeat match goal with
         | H : Forall _ (_ :: _) |- _ => inversion H; clear H; subst
         end.
  repeat constructor; assumption.
Qed.

Ltac digits_vs_sign :=
  unfold all_digits in *;
  repeat match goal with
         | H : Forall _ (_ :: _) |- _ => inversion H; clear H; subst
         end;
  match goal with
  | S : is_sign ?c = true, D : is_digit ?c = true |- _ =>
      apply sign_not_digit in S; congruence
  end.

(** A string that ends in a sign and four more characters is rejected:
    the offsets that [fromisoformat] reads have a colon. *)
Lemma fromisoformat_rejects_colonless (p : str) (s : ascii) (r : str) :
  is_sign s = true -> List.length r = 4%nat ->
  exists e, fromisoformat (p ++ s :: r) = Raises e.
Proof.
  intros Hs Hr.
  destruct (fromisoformat (p ++ s :: r)) as [dt|e] eqn:F; [exfalso|eauto].
  unfold fromisoformat in F.
  destruct (parse_isoformat_date (firstn 10 (p ++ s :: r)))
    as [[[y mo] d]|] eqn:D; [|discriminate].
  apply parse_isoformat_date_spec in D
    as (y0 & y1 & y2 & y3 & m0 & m1 & d0 & d1 & D & Dg).
  destruct r as [|h1 [|h2 [|m1' [|m2' [|]]]]]; try discriminate. clear Hr.
  destruct p as [|p0 [|p1 [|p2 [|p3 [|p4 [|p5 [|p6 [|p7 [|p8 [|p9 [|p10 p]
    ]]]]]]]]]]; cbn [app firstn skipn] in D, F;
    try discriminate D; injection D as D; subst;
    try digits_vs_sign.
  - (* the sign is the second date separator *)
    destruct (parse_isoformat_time [m2']) eqn:T; [|discriminate].
    apply parse_isoformat_time_length in T. simpl in T. lia.
  - (* the sign is the separator between date and time *)
    destruct (parse_isoformat_time [h1; h2; m1'; m2']) eqn:T; [|discriminate].
    apply parse_isoformat_time_length in T. simpl in T. lia.
  - (* the sign is in the time string *)
    destruct (parse_isoformat_time (p ++ s :: [h1; h2; m1'; m2']))
      eqn:T; [|discriminate].
    apply parse_isoformat_time_spec in T as (a & z & _ & Fa & _ & Hz).
    destruct z as [[c tz]|].
    + destruct Hz as (E & Hc & Fz & Lz).
      symmetry in E.
      destruct (unique_split is_sign _ _ _ _ _ _ E Fa Fz Hc Hs) as [_ ->].
      simpl in Lz. intuition discriminate.
    + subst a. apply Forall_app in Fa as [_ Fa].
      inversion Fa; congruence.
Qed.

(** ** Parsing the input (lines 64-79) *)

Lemma firstn_length_app {A : Type} (a b : list A) :
  firstn (List.length a) (a ++ b) = a.
Proof.
  rewrite firstn_app, Nat.sub_diag, firstn_all. simpl. apply app_nil_r.
Qed.

Lemma skipn_length_app {A : Type} (a b : list A) :
  skipn (List.length a) (a ++ b) = b.
Proof. now rewrite skipn_app, Nat.sub_diag, skipn_all. Qed.

(** For a string that ends in a sign and four characters, the third last
    of which is not a colon, line 76 decides: the result is the one of
    [fromisoformat] on the string with a colon before the last two. *)
Lemma parse_timestamp_colonless (p : str) (s h1 h2 m1 m2 : ascii) :
  is_sign s = true -> h2 <> ":"%char ->
  parse_timestamp (p ++ [s; h1; h2; m1; m2])
  = fromisoformat (p ++ [s; h1; h2; ":"%char; m1; m2]).
Proof.
  intros Hs Hc. unfold parse_timestamp.
  destruct (fromisoformat_rejects_colonless p s [h1; h2; m1; m2] Hs eq_refl)
    as [e ->].
  assert (List.length (p ++ [s; h1; h2; m1; m2]) = (List.length p + 5)%nat)
    as L by (rewrite length_app; reflexivity).
  unfold char_from_end. rewrite L.
  replace (List.length p + 5 - 5)%nat with (List.length p) by lia.
  replace (List.length p + 5 - 3)%nat with (List.length p + 2)%nat by lia.
  replace (List.length p + 5 - 2)%nat with (List.length p + 3)%nat by lia.
  rewrite nth_middle, Hs.
  rewrite app_nth2_plus. cbn [nth].
  destruct (Ascii.eqb h2 ":") eqn:E;
    [apply Ascii.eqb_eq in E; contradiction|].
  destruct (5 <=? List.length p + 5)%nat eqn:E5;
    [|apply Nat.leb_gt in E5; lia].
  cbn [andb negb].
  change (p ++ [s; h1; h2; m1; m2]) with (p ++ [s; h1; h2] ++ [m1; m2]).
  rewrite (app_assoc p [s; h1; h2] [m1; m2]).
  replace (List.length p + 3)%nat with (List.length (p ++ [s; h1; h2]))
    by (rewrite length_app; reflexivity).
  rewrite firstn_length_app, skipn_length_app.
  rewrite <- app_assoc. cbn [app list_ascii_of_string].
  destruct (fromisoformat (p ++ [s; h1; h2; ":"%char; m1; m2])); reflexivity.
Qed.

(** The result of the converter depends on the input only through the
    parsed value. *)
Lemma convert_same_parse `{Host} (ts1 ts2 target_format : str) :
  parse_timestamp ts1 = parse_timestamp ts2 ->
  convert_timestamp_format ts1 target_format
  = convert_timestamp_format ts2 target_format.
Proof.
  intros E. unfold convert_timestamp_format, convert_body. now rewrite E.
Qed.

Lemma parse_timestamp_direct (ts : str) (dt : datetime) :
  fromisoformat ts = Returns dt -> parse_timestamp ts = Returns dt.
Proof. intros E. unfold parse_timestamp. now rewrite E. Qed.

(** C5. An offset [+HHMM] or [-HHMM] at the end of the input is read as the
    same offset written [+HH:MM] or [-HH:MM]: when the string with the colon
    is a timestamp that [fromisoformat] accepts, the converter gives the same
    outcome for both strings, whatever the target format. *)
Theorem colonless_offset_same_as_colon `{Host}
        (p : str) (s h1 h2 m1 m2 : ascii) (target_format : str)
        (dt : datetime) :
  is_sign s = true ->
  all_digits [h1; h2; m1; m2] ->
  fromisoformat (p ++ [s; h1; h2; ":"%char; m1; m2]) = Returns dt ->
  convert_timestamp_format (p ++ [s; h1; h2; m1; m2]) target_format
  = convert_timestamp_format (p ++ [s; h1; h2; ":"%char; m1; m2])
      target_format.
Proof.
  intros Hs Hd Hdt. apply convert_same_parse.
  rewrite parse_timestamp_colonless; auto.
  - now rewrite (parse_timestamp_direct _ _ Hdt).
  - intros ->. inversion Hd as [|? ? _ Hd1]; subst.
    inversion Hd1 as [|? ? D _]; subst. discriminate D.
Qed.

Lemma colonless_offset_same_as_colon_witness :
  convert_timestamp_format (H := utc_host) "2025-11-01T00:00:00-0800"
    "YYYY-MM-DD"
  = convert_timestamp_format (H := utc_host) "2025-11-01T00:00:00-08:00"
      "YYYY-MM-DD"
  /\ convert_timestamp_format (H := utc_host) "2025-11-01T00:00:00-0800"
       "YYYY-MM-DD" = Returns ("2025-11-01" : str).
Proof.
  split.
  - apply (colonless_offset_same_as_colon (H := utc_host)
             "2025-11-01T00:00:00" "-" "0" "8" "0" "0" "YYYY-MM-DD"
             (mk_datetime 2025 11 1 0 0 0 0 (Some (-28800000000)))).
    + reflexivity.
    + repeat constructor.
    + vm_compute. reflexivity.
  - vm_compute. reflexivity.
Defined.

(** ** Failures (lines 78-79 and 138-139) *)

(** Whatever the parsing step raises comes out as an [Exception] whose
    message is the prefix followed by the message of what was raised; no
    value is returned, whatever the target format. *)
Lemma parse_failure_is_wrapped `{Host} (ts target_format : str) (e : exn) :
  parse_timestamp ts = Raises e ->
  convert_timestamp_format ts target_format
  = Raises (mk_exn Exception ("Error converting timestamp: " ++ exn_msg e)).
Proof.
  intros E. unfold convert_timestamp_format, convert_body. now rewrite E.
Qed.

(** When the retry of line 76 does not apply, the message names the input. *)
Lemma parse_failure_names_input (ts : str) (e : exn) :
  fromisoformat ts = Raises e ->
  (5 <=? List.length ts)%nat
    && is_sign (char_from_end 5 ts)
    && negb (Ascii.eqb (char_from_end 3 ts) ":") = false ->
  parse_timestamp ts
  = Raises (mk_exn ValueError ("Could not parse timestamp: " ++ ts)).
Proof.
  intros E C. unfold parse_timestamp. rewrite E, C. reflexivity.
Qed.

(** C9, at the input on which the code departs from it.  The month 13 is
    rejected on both attempts; the second attempt is not guarded, so what
    reaches the caller is the message of [fromisoformat] about the month,
    in which the input does not occur. *)
Theorem unguarded_retry_loses_input `{Host} (target_format : str) :
  let ts : str := "2025-13-01T00:00:00-0800" in
  let msg : str := "Error converting timestamp: month must be in 1..12" in
  convert_timestamp_format ts target_format = Raises (mk_exn Exception msg)
  /\ contains ts msg = false.
Proof.
  split; [|reflexivity].
  apply (parse_failure_is_wrapped _ _
           (mk_exn ValueError "month must be in 1..12")).
  vm_compute. reflexivity.
Qed.

(** The same input with the colon takes the guarded path and is named. *)
Example guarded_path_names_input `{Host} (target_format : str) :
  convert_timestamp_format "2025-13-01T00:00:00-08:00" target_format
  = Raises (mk_exn Exception
      ("Error converting timestamp: Could not parse timestamp: "
       ++ "2025-13-01T00:00:00-08:00")).
Proof.
  apply (parse_failure_is_wrapped _ _
           (mk_exn ValueError
              ("Could not parse timestamp: " ++ "2025-13-01T00:00:00-08:00"))).
  vm_compute. reflexivity.
Qed.

(* ----------------------------------------------------------------- *)
(** ** Decimal numerals *)

(** A property checked on [0 .. n-1] by computation holds on that range. *)
Lemma forall_below (f : Z -> bool) (n : nat) :
  forallb f (map Z.of_nat (seq 0 n)) = true ->
  forall k, 0 <= k < Z.of_nat n -> f k = true.
Proof.
  intros H k Hk. rewrite forallb_forall in H. apply H.
  apply in_map_iff. exists (Z.to_nat k). split; [lia|].
  apply in_seq. lia.
Qed.

Lemma is_digit_digit_char (d : Z) :
  0 <= d < 10 -> is_digit (digit_char d) = true.
Proof.
  apply (forall_below (fun d => is_digit (digit_char d)) 10). reflexivity.
Qed.

Lemma digits_rev_all_digits (fuel : nat) :
  forall n, all_digits (digits_rev fuel n).
Proof.
  induction fuel as [|fuel IH]; intros n; simpl; [constructor|].
  constructor.
  - apply is_digit_digit_char. apply Z.mod_pos_bound. lia.
  - destruct (n / 10 =? 0); [constructor|apply IH].
Qed.

Lemma str_of_nonneg_all_digits (n : Z) : all_digits (str_of_nonneg n).
Proof.
  unfold str_of_nonneg, all_digits. apply Forall_rev.
  apply digits_rev_all_digits.
Qed.

Lemma str_of_nonneg_not_nil (n : Z) : str_of_nonneg n <> [].
Proof.
  unfold str_of_nonneg. cbn [digits_rev rev].
  intros E. apply app_eq_nil in E as [_ E]. discriminate.
Qed.

(** Below one hundred, [zfill(2)] gives exactly two digits. *)
Lemma zfill_2_two_digits (k : Z) :
  0 <= k < 100 ->
  exists d1 d2, zfill 2 (str_of_nonneg k) = [d1; d2]
                /\ is_digit d1 = true /\ is_digit d2 = true.
Proof.
  intros Hk.
  pose (check := fun k => match zfill 2 (str_of_nonneg k) with
                          | [d1; d2] => is_digit d1 && is_digit d2
                          | _ => false
                          end).
  assert (check k = true) as C
    by (apply (forall_below check 100); [vm_compute; reflexivity|exact Hk]).
  unfold check in C.
  destruct (zfill 2 (str_of_nonneg k)) as [|d1 [|d2 [|? ?]]];
    try discriminate.
  apply andb_prop in C as [C1 C2]. eauto.
Qed.

(** The format [.2f] of a finite value has exactly two digits after the
    point. *)
Lemma format_2f_two_decimals (x : float) :
  is_finite x = true -> two_decimals (format_2f x).
Proof.
  destruct x as [s|s| |s m e]; try discriminate; intros _.
  - exists (sign_str s), ["0"%char], "0"%char, "0"%char.
    repeat split; try reflexivity.
    + destruct s; auto.
    + discriminate.
    + repeat constructor.
  - cbn [format_2f].
    set (n := round_hundredths (Zpos m) e).
    destruct (zfill_2_two_digits (n mod 100)) as (d1 & d2 & -> & D1 & D2).
    { apply Z.mod_pos_bound. lia. }
    exists (sign_str s), (str_of_nonneg (n / 100)), d1, d2.
    repeat split; auto.
    + destruct s; auto.
    + apply str_of_nonneg_not_nil.
    + apply str_of_nonneg_all_digits.
Qed.

(** ** Comparisons of numbers *)

Lemma num_abs_not_nan (x : number) : not_nan x -> not_nan (num_abs x).
Proof.
  destruct x as [z|[s|s| |s m e]]; unfold not_nan; simpl; congruence.
Qed.

(** Against an [int], a number that is not a NaN is below or not below. *)
Lemma num_lt_not_ge (x : number) (t : Z) :
  not_nan x -> num_lt x (PyInt t) = negb (num_ge x (PyInt t)).
Proof.
  unfold not_nan, num_lt, num_ge, num_compare. intros H.
  destruct (ext x) as [|s|m e]; [congruence|now destruct s|].
  cbn [ext]. now destruct (fin_compare m e t 0).
Qed.

(** A number that reaches a threshold reaches every smaller one. *)
Lemma num_ge_monotone (x : number) (a b : Z) :
  b <= a -> num_ge x (PyInt a) = true -> num_ge x (PyInt b) = true.
Proof.
  unfold num_ge, num_compare. intros Hba.
  destruct (ext x) as [|s|m e]; [discriminate|now destruct s|].
  cbn [ext]. unfold fin_compare. cbv zeta.
  set (e' := Z.min e 0).
  assert (0 < 2 ^ (0 - e')) as HK by (apply Z.pow_pos_nonneg; lia).
  set (A := m * 2 ^ (e - e')). set (K := 2 ^ (0 - e')) in *.
  clearbody A K.
  destruct (A ?= a * K) eqn:C; try discriminate; intros _.
  - apply Z.compare_eq in C.
    destruct (A ?= b * K) eqn:C'; auto.
    rewrite Z.compare_lt_iff in C'. nia.
  - rewrite Z.compare_gt_iff in C.
    destruct (A ?= b * K) eqn:C'; auto.
    rewrite Z.compare_lt_iff in C'. nia.
Qed.

(** ** The magnitude formatter *)

Lemma float_of_int_small (z : Z) :
  Z.abs z < 2 ^ 53 -> float_of_int z = Returns (float_of_Z z).
Proof.
  intros H. unfold float_of_int.
  destruct (Z.abs z <? 2 ^ 53) eqn:E; [reflexivity|].
  apply Z.ltb_ge in E. lia.
Qed.

Lemma int_true_divide_small (a b : Z) :
  Z.abs a < 2 ^ 53 -> 0 < b < 2 ^ 53 ->
  int_true_divide a b = Returns (fdiv (float_of_Z a) (float_of_Z b)).
Proof.
  intros Ha Hb. unfold int_true_divide.
  destruct (b =? 0) eqn:E0; [apply Z.eqb_eq in E0; lia|].
  destruct (Z.abs a <? 2 ^ 53) eqn:Ea; [|apply Z.ltb_ge in Ea; lia].
  destruct (Z.abs b <? 2 ^ 53) eqn:Eb; [reflexivity|].
  apply Z.ltb_ge in Eb. lia.
Qed.

Lemma num_truediv_returns (x : number) (b : Z) :
  exact_or_float x -> 0 < b < 2 ^ 53 ->
  exists f, num_truediv x b = Returns f.
Proof.
  intros Hx Hb. destruct x as [z|f]; simpl in *.
  - rewrite int_true_divide_small by assumption. eauto.
  - destruct (b =? 0) eqn:E0; [apply Z.eqb_eq in E0; lia|].
    rewrite float_of_int_small by lia. simpl. eauto.
Qed.

Lemma num_format_2f_scaled (x : number) :
  num_format_2f x = (f <- scaled_by x 1 ;; Returns (format_2f f)).
Proof. destruct x; reflexivity. Qed.

Lemma scaled_by_returns (x : number) (scale : Z) :
  exact_or_float x -> 0 < scale < 2 ^ 53 ->
  exists f, scaled_by x scale = Returns f.
Proof.
  intros Hx Hs. unfold scaled_by. destruct (scale =? 1).
  - destruct x as [z|f]; simpl in *; [|eauto].
    rewrite float_of_int_small by assumption. eauto.
  - now apply num_truediv_returns.
Qed.

Lemma first_threshold_cases (num_abs : number) :
  first_threshold num_abs suffixes = (Some ("B" : str), 1000000000)
  \/ first_threshold num_abs suffixes = (Some ("M" : str), 1000000)
  \/ first_threshold num_abs suffixes = (Some ("K" : str), 1000)
  \/ first_threshold num_abs suffixes = (None, 1).
Proof.
  unfold suffixes. cbn [first_threshold].
  destruct (num_ge num_abs (PyInt 1000000000)); auto.
  destruct (num_ge num_abs (PyInt 1000000)); auto.
  destruct (num_ge num_abs (PyInt 1000)); auto.
Qed.

(** [format_number] does not raise on an [int] below [2^53] in magnitude
    nor on a [float]. *)
Lemma format_number_returns (num : number) :
  exact_or_float num -> exists r, format_number num = Returns r.
Proof.
  intros Hx. unfold format_number.
  assert (exists f, num_format_2f num = Returns f) as [f0 F0].
  { rewrite num_format_2f_scaled.
    destruct (scaled_by_returns num 1 Hx) as [f ->]; [lia|].
    simpl. eauto. }
  destruct (num_ge (num_abs num) (PyInt 1000)).
  - destruct (first_threshold_cases (num_abs num)) as [E|[E|[E|E]]];
      rewrite E; cbv beta iota zeta;
      try (match goal with
           | |- context [num_truediv num ?t] =>
               destruct (num_truediv_returns num t Hx) as [f ->]; [lia|]
           end; cbn [bind]; eauto).
    rewrite F0. cbn [bind]. eauto.
  - rewrite F0. cbn [bind]. eauto.
Qed.

(** The four tests of lines 74-85 select the scale class. *)
Lemma to_use_scale_class (largest : number) :
  not_nan largest ->
  (if num_lt largest (PyInt 1000) then Some (1, None)
   else if num_ge largest (PyInt 1000000000)
   then Some (1000000000, Some ("B" : str))
   else if num_ge largest (PyInt 1000000)
   then Some (1000000, Some ("M" : str))
   else if num_ge largest (PyInt 1000)
   then Some (1000, Some ("K" : str))
   else None)
  = Some (fst (scale_class largest),
          match snd (scale_class largest) with
          | [] => None
          | s => Some s
          end).
Proof.
  intros HL. rewrite (num_lt_not_ge _ _ HL). unfold scale_class.
  pose proof (num_ge_monotone largest 1000000000 1000) as M93.
  pose proof (num_ge_monotone largest 1000000 1000) as M63.
  destruct (num_ge largest (PyInt 1000)).
  - cbn [negb].
    destruct (num_ge largest (PyInt 1000000000)); [reflexivity|].
    destruct (num_ge largest (PyInt 1000000)); reflexivity.
  - cbn [negb].
    destruct (num_ge largest (PyInt 1000000000));
      [discriminate M93; [lia|reflexivity]|].
    destruct (num_ge largest (PyInt 1000000));
      [discriminate M63; [lia|reflexivity]|].
    reflexivity.
Qed.

Lemma scale_class_cases (largest : number) :
  scale_class largest = (1000000000, "B" : str)
  \/ scale_class largest = (1000000, "M" : str)
  \/ scale_class largest = (1000, "K" : str)
  \/ scale_class largest = (1, [] : str).
Proof.
  unfold scale_class.
  destruct (num_ge largest (PyInt 1000000000)); auto.
  destruct (num_ge largest (PyInt 1000000)); auto.
  destruct (num_ge largest (PyInt 1000)); auto.
Qed.

(** What [format_number] returns on every number in range: the scale and
    the suffix of the class of [|num|], and as display string the [.2f]
    rendering of the scaled number followed by the suffix -- preceded, for
    a negative number, by a ["-"] that lines 45-48 add to a rendering which
    already carries the sign. *)
Lemma format_number_spec (num : number) :
  exact_or_float num -> not_nan num ->
  let scale := fst (scale_class (num_abs num)) in
  let suffix := snd (scale_class (num_abs num)) in
  exists scaled,
    scaled_by num scale = Returns scaled
    /\ format_number num
       = Returns ((if num_lt num (PyInt 0) then ["-"%char] else [])
                  ++ format_2f scaled ++ suffix,
                  match suffix with [] => None | s => Some s end,
                  scale).
Proof.
  intros Hx Hn scale suffix.
  assert (0 < scale < 2 ^ 53) as Hs.
  { subst scale.
    destruct (scale_class_cases (num_abs num)) as [E|[E|[E|E]]]; rewrite E;
      simpl; lia. }
  destruct (scaled_by_returns num scale Hx Hs) as [f Hf].
  exists f. split; [exact Hf|].
  unfold format_number. subst scale suffix. unfold scale_class in *.
  unfold suffixes. cbn [first_threshold].
  pose proof (num_ge_monotone (num_abs num) 1000000000 1000) as M93.
  pose proof (num_ge_monotone (num_abs num) 1000000 1000) as M63.
  destruct (num_ge (num_abs num) (PyInt 1000)).
  - destruct (num_ge (num_abs num) (PyInt 1000000000));
      [|destruct (num_ge (num_abs num) (PyInt 1000000))];
      cbn [fst snd list_ascii_of_string] in *;
      unfold scaled_by in Hf; cbn in Hf; rewrite Hf; cbn [bind andb];
      destruct (num_lt num (PyInt 0)); reflexivity.
  - destruct (num_ge (num_abs num) (PyInt 1000000000));
      [discriminate M93; [lia|reflexivity]|].
    destruct (num_ge (num_abs num) (PyInt 1000000));
      [discriminate M63; [lia|reflexivity]|].
    cbn [fst snd] in *.
    rewrite num_format_2f_scaled, Hf. cbn [bind andb].
    rewrite app_nil_r.
    destruct (num_lt num (PyInt 0)); reflexivity.
Qed.

(** C1, at the input on which the code departs from it.  The rendering of
    [-500] by [f"{num:.2f}"] is ["-500.00"]; line 48 puts one more ["-"] in
    front of it. *)
Theorem format_number_doubles_the_sign :
  format_number (PyInt (-500)) = Returns ("--500.00" : str, None, 1).
Proof. vm_compute. reflexivity. Qed.

(** C7, at the input on which the code departs from it.  The threshold,
    the suffix and the scaled rendering are the ones of the claim, but for
    a negative number the display string is not the rendering of
    [n / threshold] followed by the suffix: it has one more ["-"].  On the
    positive number of the specification the result is the stated one. *)
Theorem format_number_negative_billions :
  format_number (PyInt (-1234567890))
  = Returns ("--1.23B" : str, Some ("B" : str), 1000000000)
  /\ format_number (PyInt 1234567890)
     = Returns ("1.23B" : str, Some ("B" : str), 1000000000).
Proof. split; vm_compute; reflexivity. Qed.

(* ----------------------------------------------------------------- *)
(** ** The epoch formats (lines 82-88) *)

Lemma str_eqb_eq (a b : str) : str_eqb a b = true <-> a = b.
Proof.
  unfold str_eqb. destruct (list_eq_dec ascii_dec a b); split; congruence.
Qed.

Lemma str_eqb_refl (a : str) : str_eqb a a = true.
Proof. now apply str_eqb_eq. Qed.

(** The two names are tested first: no template is read for them. *)
Lemma epoch_ms_dispatch `{Host} (ts : str) (dt : datetime) :
  parse_timestamp ts = Returns dt ->
  convert_body ts "epoch_ms"
  = (t <- timestamp dt ;;
     n <- int_of_float (fmul t (float_of_Z 1000)) ;;
     Returns (str_of_int n)).
Proof.
  intros E. unfold convert_body. rewrite E. cbn [bind].
  now rewrite str_eqb_refl.
Qed.

Lemma epoch_sec_dispatch `{Host} (ts : str) (dt : datetime) :
  parse_timestamp ts = Returns dt ->
  convert_body ts "epoch_sec"
  = (t <- timestamp dt ;;
     n <- int_of_float t ;;
     Returns (str_of_int n)).
Proof.
  intros E. unfold convert_body. rewrite E. cbn [bind].
  replace (str_eqb "epoch_sec" "epoch_ms") with false by reflexivity.
  now rewrite str_eqb_refl.
Qed.

(** C3, at inputs on which the code departs from it.  The seconds since
    the epoch are first rounded to a double, and the milliseconds are the
    truncation of that double times 1000, rounded again.  The instant
    2004-05-19T20:53:20.001Z lies 1085000000001 ms after the epoch; the
    double nearest to 1085000000.001 is below it, the product is
    1085000000000.9999 and the answer is 1085000000000.  In the same way
    the seconds of 2600-01-01T00:00:00.999999Z round up to the next whole
    second.  On the example of the specification the value is exact. *)
Theorem epoch_from_rounded_float `{Host} :
  (exists dt,
      parse_timestamp "2004-05-19T20:53:20.001+00:00" = Returns dt
      /\ tzinfo dt = Some 0
      /\ utc_micros dt 0 = 1085000000001 * 1000
      /\ convert_timestamp_format "2004-05-19T20:53:20.001+00:00" "epoch_ms"
         = Returns ("1085000000000" : str))
  /\ (exists dt,
      parse_timestamp "2600-01-01T00:00:00.999999+00:00" = Returns dt
      /\ tzinfo dt = Some 0
      /\ utc_micros dt 0 = 19880899200 * 1000000 + 999999
      /\ convert_timestamp_format "2600-01-01T00:00:00.999999+00:00"
           "epoch_sec"
         = Returns ("19880899201" : str))
  /\ convert_timestamp_format "2025-11-01T00:00:00-08:00" "epoch_ms"
     = Returns ("1761984000000" : str).
Proof.
  split; [|split].
  - exists (mk_datetime 2004 5 19 20 53 20 1000 (Some 0)).
    repeat split; vm_compute; reflexivity.
  - exists (mk_datetime 2600 1 1 0 0 0 999999 (Some 0)).
    repeat split; vm_compute; reflexivity.
  - vm_compute. reflexivity.
Qed.

(* ----------------------------------------------------------------- *)
(** ** Parsed values are valid *)

Lemma new_datetime_spec (y mo d h mi s us : Z) (tz : option Z)
      (dt : datetime) :
  new_datetime y mo d h mi s us tz = Returns dt ->
  dt = mk_datetime y mo d h mi s us tz
  /\ 1 <= y <= 9999 /\ 1 <= mo <= 12 /\ 1 <= d <= _days_in_month y mo
  /\ 0 <= h <= 23 /\ 0 <= mi <= 59 /\ 0 <= s <= 59 /\ 0 <= us <= 999999.
Proof.
  unfold new_datetime.
  repeat match goal with
         | |- context [negb (?a && ?b)] =>
             let E := fresh "E" in
             destruct (a && b) eqn:E; cbn [negb];
             [apply andb_prop in E as [?%Z.leb_le ?%Z.leb_le]
             |intros; discriminate]
         end.
  intros [= <-]. repeat split; assumption.
Qed.

Lemma new_timezone_spec (off off' : Z) :
  new_timezone off = Returns off' ->
  off' = off /\ -86400000000 < off < 86400000000.
Proof.
  unfold new_timezone.
  destruct ((-86400000000 <? off) && (off <? 86400000000)) eqn:E;
    [|discriminate].
  apply andb_prop in E as [?%Z.ltb_lt ?%Z.ltb_lt].
  intros [= <-]. auto.
Qed.

Lemma fromisoformat_valid (s : str) (dt : datetime) :
  fromisoformat s = Returns dt -> valid_datetime dt.
Proof.
  unfold fromisoformat.
  destruct (parse_isoformat_date (firstn 10 s)) as [[[y mo] d]|];
    [|discriminate].
  destruct (skipn 10 s) as [|sep tstr].
  - intros E. apply new_datetime_spec in E as (-> & E).
    unfold valid_datetime; cbn. intuition lia.
  - destruct (parse_isoformat_time tstr) as [[[[[h mi] sec] us] tz]|];
      [|discriminate].
    destruct (tz_of_components tz) as [tzi|e] eqn:T; [|discriminate].
    cbn [bind]. intros E. apply new_datetime_spec in E as (-> & E).
    unfold valid_datetime; cbn. repeat split; try (intuition lia).
    destruct tz as [[sgn [[[th tm] tsec] tus]]|];
      cbn [tz_of_components] in T.
    + destruct (_ =? 0); [injection T as <-; lia|].
      destruct (new_timezone _) as [off|] eqn:N; [|discriminate].
      cbn [bind] in T. injection T as <-.
      apply new_timezone_spec in N as [-> N]. exact N.
    + injection T as <-. exact I.
Qed.

Lemma parse_timestamp_spec (ts : str) (dt : datetime) :
  parse_timestamp ts = Returns dt ->
  fromisoformat ts = Returns dt
  \/ (exists e, fromisoformat ts = Raises e)
     /\ fromisoformat
          (firstn (List.length ts - 2) ts ++ ":" ++
           skipn (List.length ts - 2) ts) = Returns dt.
Proof.
  unfold parse_timestamp.
  destruct (fromisoformat ts) as [d|e].
  - cbn [bind]. intros [= <-]. now left.
  - destruct (_ && _); [|discriminate].
    destruct (fromisoformat _) as [d|e']; [|discriminate].
    cbn [bind]. intros [= <-]. right. eauto.
Qed.

Lemma parse_timestamp_valid (ts : str) (dt : datetime) :
  parse_timestamp ts = Returns dt -> valid_datetime dt.
Proof.
  intros E. apply parse_timestamp_spec in E as [E|[_ E]];
    eapply fromisoformat_valid; eauto.
Qed.

(* ----------------------------------------------------------------- *)
(** ** The calendar: shifting a value keeps the instant *)

Lemma forall_range_spec (k : nat) (f : Z -> bool) :
  forall base, forall_range k f base = true ->
    forall i, base <= i < base + 2 ^ Z.of_nat k -> f i = true.
Proof.
  induction k as [|k IH]; intros base H i Hi.
  - simpl in *. replace i with base by lia. exact H.
  - cbn [forall_range] in H. apply andb_prop in H as [H1 H2].
    rewrite Nat2Z.inj_succ, Z.pow_succ_r in Hi by lia.
    destruct (Z_lt_ge_dec i (base + 2 ^ Z.of_nat k)).
    + apply (IH base H1). lia.
    + apply (IH _ H2). lia.
Qed.

Lemma forall_guarded (k : nat) (bound : Z) (f : Z -> bool) :
  bound <= 2 ^ Z.of_nat k ->
  forall_range k (guarded bound f) 0 = true ->
  forall i, 0 <= i < bound -> f i = true.
Proof.
  intros Hb H i Hi.
  pose proof (forall_range_spec k _ 0 H i ltac:(lia)) as G.
  unfold guarded in G.
  destruct (bound <=? i) eqn:E; [apply Z.leb_le in E; lia|exact G].
Qed.

(** The month and the day found for a day of the year add up to it
    (365 days, leap year or not, checked one by one). *)
Lemma month_and_day_spec (leapyear : bool) (n : Z) :
  0 <= n < 365 ->
  let '(m, d) := month_and_day leapyear n in
  nth (Z.to_nat m) _DAYS_BEFORE_MONTH (-1)
  + (if (2 <? m) && leapyear then 1 else 0) + d = n + 1.
Proof.
  intros Hn.
  pose (check := fun leap n =>
          let '(m, d) := month_and_day leap n in
          nth (Z.to_nat m) _DAYS_BEFORE_MONTH (-1)
          + (if (2 <? m) && leap then 1 else 0) + d =? n + 1).
  assert (check leapyear n = true) as C.
  { destruct leapyear;
      apply (forall_guarded 9 365 (check _)); try assumption;
      vm_compute; try reflexivity; discriminate. }
  unfold check in C. destruct (month_and_day leapyear n) as [m d].
  now apply Z.eqb_eq.
Qed.

(** The days before a year of the first 400, and whether it is a leap
    year, from its position in the centuries and the four-year cycles
    (400 years, checked one by one). *)
Lemma year_in_cycle (i : Z) :
  0 <= i < 400 ->
  _days_before_year (i + 1)
  = 36524 * (i / 100) + 1461 * (i mod 100 / 4) + 365 * (i mod 4)
  /\ _is_leap (i + 1)
     = ((i mod 4 =? 3)
        && (negb (i mod 100 / 4 =? 24) || (i / 100 =? 3))).
Proof.
  intros Hi.
  pose (check := fun i =>
          (_days_before_year (i + 1)
           =? 36524 * (i / 100) + 1461 * (i mod 100 / 4) + 365 * (i mod 4))
          && Bool.eqb (_is_leap (i + 1))
               ((i mod 4 =? 3)
                && (negb (i mod 100 / 4 =? 24) || (i / 100 =? 3)))).
  assert (check i = true) as C.
  { apply (forall_guarded 9 400 check); try assumption;
      vm_compute; try reflexivity; discriminate. }
  unfold check in C. apply andb_prop in C as [C1 C2].
  split; [now apply Z.eqb_eq|now apply Bool.eqb_prop].
Qed.

(** Within the first 400 years, the date of an ordinal has that ordinal. *)
Lemma ord2ymd_cycle (r : Z) :
  0 <= r < _DI400Y ->
  let '(y, m, d) := _ord2ymd (r + 1) in _ymd2ord y m d = r + 1.
Proof.
  change _DI400Y with 146097. intros Hr.
  unfold _ord2ymd. cbv zeta.
  change _DI400Y with 146097. change _DI100Y with 36524.
  change _DI4Y with 1461.
  replace (r + 1 - 1) with r by lia.
  rewrite (Z.mod_small r 146097), (Z.div_small r 146097) by lia.
  set (n100 := r / 36524). set (r1 := r mod 36524).
  set (n4 := r1 / 1461). set (r2 := r1 mod 1461).
  set (n1 := r2 / 365). set (r3 := r2 mod 365).
  assert (r = 36524 * n100 + 1461 * n4 + 365 * n1 + r3
          /\ 0 <= n100 <= 4 /\ 0 <= n4 <= 24 /\ 0 <= n1 <= 4
          /\ 0 <= r3 < 365 /\ (n1 = 4 -> r3 = 0 /\ n4 <= 23 /\ n100 <= 3)
          /\ (n100 = 4 -> n4 = 0 /\ n1 = 0 /\ r3 = 0)) as D.
  { subst n100 r1 n4 r2 n1 r3. Z.div_mod_to_equations. lia. }
  clearbody n100 r1 n4 r2 n1 r3.
  destruct D as (Er & B100 & B4 & B1 & B3 & S1 & S100).
  destruct ((n1 =? 4) || (n100 =? 4)) eqn:Sp.
  - (* the last day of a leap year *)
    apply orb_prop in Sp as [Sp|Sp]; apply Z.eqb_eq in Sp.
    + destruct (S1 Sp) as (E3 & B4' & B100'). subst n1 r3.
      set (i := 100 * n100 + 4 * n4 + 3).
      replace (0 * 400 + 1 + n100 * 100 + n4 * 4 + 4 - 1) with (i + 1)
        by (subst i; lia).
      assert (0 <= i < 400 /\ i / 100 = n100 /\ i mod 100 / 4 = n4
              /\ i mod 4 = 3) as (Bi & I100 & I4 & I1).
      { subst i. Z.div_mod_to_equations. lia. }
      destruct (year_in_cycle i Bi) as [Y L].
      rewrite I100, I4, I1 in Y, L.
      replace (n4 =? 24) with false in L
        by (symmetry; apply Z.eqb_neq; lia).
      unfold _ymd2ord, _days_before_month. rewrite Y, L.
      change (nth (Z.to_nat 12) _DAYS_BEFORE_MONTH (-1)) with 334.
      change (2 <? 12) with true. rewrite Z.eqb_refl. cbn [andb orb negb].
      lia.
    + destruct (S100 Sp) as (E4 & E1 & E3). subst n100 n4 n1 r3 r.
      reflexivity.
  - apply orb_false_elim in Sp as [Sp1 Sp100].
    apply Z.eqb_neq in Sp1, Sp100.
    set (i := 100 * n100 + 4 * n4 + n1).
    replace (0 * 400 + 1 + n100 * 100 + n4 * 4 + n1) with (i + 1)
      by (subst i; lia).
    assert (0 <= i < 400 /\ i / 100 = n100 /\ i mod 100 / 4 = n4
            /\ i mod 4 = n1) as (Bi & I100 & I4 & I1).
    { subst i. Z.div_mod_to_equations. lia. }
    destruct (year_in_cycle i Bi) as [Y L].
    rewrite I100, I4, I1 in Y, L.
    set (leapyear := (n1 =? 3) && (negb (n4 =? 24) || (n100 =? 3))) in *.
    pose proof (month_and_day_spec leapyear r3 B3) as M.
    unfold month_and_day in M. cbv zeta in M.
    match goal with
    | |- context [if r3 <? ?p then _ else _] => destruct (r3 <? p)
    end; unfold _ymd2ord, _days_before_month; rewrite Y, L; lia.
Qed.

(** Ordinals 400 years apart have the same month and day. *)
Lemma ord2ymd_period (n : Z) :
  _ord2ymd n =
  let '(y, m, d) := _ord2ymd ((n - 1) mod _DI400Y + 1) in
  (y + 400 * ((n - 1) / _DI400Y), m, d).
Proof.
  assert (0 <= (n - 1) mod _DI400Y < _DI400Y) as Hr
    by (apply Z.mod_pos_bound; reflexivity).
  unfold _ord2ymd. cbv zeta.
  replace ((n - 1) mod _DI400Y + 1 - 1) with ((n - 1) mod _DI400Y) by lia.
  rewrite (Z.mod_small ((n - 1) mod _DI400Y) _DI400Y) by exact Hr.
  rewrite (Z.div_small ((n - 1) mod _DI400Y) _DI400Y) by exact Hr.
  set (r := (n - 1) mod _DI400Y). set (q := (n - 1) / _DI400Y).
  destruct ((r mod _DI100Y mod _DI4Y / 365 =? 4) || (r / _DI100Y =? 4)).
  - f_equal. f_equal. lia.
  - match goal with
    | |- (if ?c then _ else _) = _ => destruct c
    end; f_equal; f_equal; lia.
Qed.

Lemma days_before_year_period (y k : Z) :
  _days_before_year (y + 400 * k) = _days_before_year y + _DI400Y * k.
Proof.
  unfold _days_before_year. cbv zeta. change _DI400Y with 146097.
  replace (y + 400 * k - 1) with (y - 1 + 400 * k) by lia.
  replace ((y - 1 + 400 * k) / 4) with ((y - 1) / 4 + 100 * k)
    by (replace (400 * k) with ((100 * k) * 4) by lia;
        now rewrite Z.div_add).
  replace ((y - 1 + 400 * k) / 100) with ((y - 1) / 100 + 4 * k)
    by (replace (400 * k) with ((4 * k) * 100) by lia;
        now rewrite Z.div_add).
  replace ((y - 1 + 400 * k) / 400) with ((y - 1) / 400 + k)
    by (replace (400 * k) with (k * 400) by lia; now rewrite Z.div_add).
  lia.
Qed.

Lemma is_leap_period (y k : Z) : _is_leap (y + 400 * k) = _is_leap y.
Proof.
  unfold _is_leap.
  replace ((y + 400 * k) mod 4) with (y mod 4)
    by (replace (400 * k) with ((100 * k) * 4) by lia;
        now rewrite Z.mod_add).
  replace ((y + 400 * k) mod 100) with (y mod 100)
    by (replace (400 * k) with ((4 * k) * 100) by lia;
        now rewrite Z.mod_add).
  replace ((y + 400 * k) mod 400) with (y mod 400)
    by (replace (400 * k) with (k * 400) by lia; now rewrite Z.mod_add).
  reflexivity.
Qed.

Lemma ymd2ord_period (y m d k : Z) :
  _ymd2ord (y + 400 * k) m d = _ymd2ord y m d + _DI400Y * k.
Proof.
  unfold _ymd2ord, _days_before_month.
  rewrite days_before_year_period, is_leap_period. lia.
Qed.

(** The date of an ordinal has that ordinal. *)
Lemma ymd2ord_ord2ymd (n : Z) :
  let '(y, m, d) := _ord2ymd n in _ymd2ord y m d = n.
Proof.
  rewrite ord2ymd_period.
  assert (0 <= (n - 1) mod _DI400Y < _DI400Y) as Hr
    by (apply Z.mod_pos_bound; reflexivity).
  pose proof (ord2ymd_cycle _ Hr) as C.
  destruct (_ord2ymd ((n - 1) mod _DI400Y + 1)) as [[y m] d].
  rewrite ymd2ord_period, C.
  pose proof (Z.div_mod (n - 1) _DI400Y ltac:(discriminate)). lia.
Qed.

(** [dt + timedelta] lies [delta] microseconds later on the wall clock. *)
Lemma add_micros_spec (dt u : datetime) (delta : Z) :
  add_micros dt delta = Returns u ->
  wall_micros u = wall_micros dt + delta /\ tzinfo u = tzinfo dt.
Proof.
  unfold add_micros. cbv zeta.
  set (total := wall_micros dt + delta).
  destruct ((0 <? total / 86400000000)
            && (total / 86400000000 <=? _MAXORDINAL)); [|discriminate].
  pose proof (ymd2ord_ord2ymd (total / 86400000000)) as Y.
  destruct (_ord2ymd (total / 86400000000)) as [[y m] d].
  intros [= <-]. split; [|reflexivity].
  unfold wall_micros, wall_seconds. cbn [year month day hour minute second
                                         microsecond].
  rewrite Y. fold total. clearbody total. clear Y.
  Z.div_mod_to_equations. lia.
Qed.

Lemma wall_micros_replace_tzinfo (dt : datetime) (tz : option Z) :
  wall_micros (replace_tzinfo dt tz) = wall_micros dt.
Proof. reflexivity. Qed.

(** [astimezone(timezone.utc)] gives a value with offset zero whose wall
    clock is the one of the argument moved back by its offset (the host's
    offset for a naive argument). *)
Lemma astimezone_utc_spec `{Host} (dt u : datetime) :
  astimezone_utc dt = Returns u ->
  tzinfo u = Some 0
  /\ wall_micros u
     = wall_micros dt
       - match tzinfo dt with
         | Some off => off
         | None => local_utcoffset dt * 1000000
         end.
Proof.
  unfold astimezone_utc.
  destruct (tzinfo dt) as [[|p|p]|] eqn:T.
  - intros [= <-]. split; [exact T|lia].
  - destruct (add_micros dt (- Z.pos p)) as [x|e] eqn:A; [|discriminate].
    cbn [bind]. intros [= <-]. apply add_micros_spec in A as [A _].
    split; [reflexivity|]. rewrite wall_micros_replace_tzinfo. lia.
  - destruct (add_micros dt (- Z.neg p)) as [x|e] eqn:A; [|discriminate].
    cbn [bind]. intros [= <-]. apply add_micros_spec in A as [A _].
    split; [reflexivity|]. rewrite wall_micros_replace_tzinfo. lia.
  - destruct (add_micros dt _) as [x|e] eqn:A; [|discriminate].
    cbn [bind]. intros [= <-]. apply add_micros_spec in A as [A _].
    split; [reflexivity|]. rewrite wall_micros_replace_tzinfo. lia.
Qed.

(** For an aware value it is the same instant, read in UTC. *)
Lemma astimezone_utc_same_instant `{Host} (dt u : datetime) (off : Z) :
  tzinfo dt = Some off -> astimezone_utc dt = Returns u ->
  tzinfo u = Some 0 /\ utc_micros u 0 = utc_micros dt off.
Proof.
  intros T A. apply astimezone_utc_spec in A as [A1 A2].
  rewrite T in A2. split; [exact A1|]. unfold utc_micros. lia.
Qed.

(* ----------------------------------------------------------------- *)
(** ** Nanoseconds and UTC (lines 96-122) *)

Lemma digits_rev_length (d : nat) :
  forall fuel n, (1 <= d)%nat -> 0 <= n < 10 ^ Z.of_nat d ->
    (List.length (digits_rev fuel n) <= d)%nat.
Proof.
  induction d as [|d IH]; intros fuel n Hd Hn; [lia|].
  destruct fuel as [|fuel]; cbn [digits_rev List.length]; [lia|].
  destruct (n / 10 =? 0) eqn:E; cbn [List.length]; [lia|].
  apply Z.eqb_neq in E.
  rewrite Nat2Z.inj_succ, Z.pow_succ_r in Hn by lia.
  assert (0 <= n / 10 < 10 ^ Z.of_nat d) as Hq
    by (split; [apply Z.div_pos; lia|apply Z.div_lt_upper_bound; lia]).
  destruct d as [|d'].
  - simpl in Hq. lia.
  - apply le_n_S. apply IH; [lia|exact Hq].
Qed.

Lemma str_of_nonneg_length (d : nat) (n : Z) :
  (1 <= d)%nat -> 0 <= n < 10 ^ Z.of_nat d ->
  (List.length (str_of_nonneg n) <= d)%nat.
Proof.
  intros Hd Hn. unfold str_of_nonneg. rewrite length_rev.
  now apply digits_rev_length.
Qed.

Lemma str_of_int_nonneg (n : Z) : 0 <= n -> str_of_int n = str_of_nonneg n.
Proof.
  intros Hn. unfold str_of_int.
  destruct (n <? 0) eqn:E; [apply Z.ltb_lt in E; lia|reflexivity].
Qed.

Lemma zfill_length (w : nat) (s : str) :
  (List.length s <= w)%nat -> List.length (zfill w s) = w.
Proof.
  intros H. unfold zfill. rewrite length_app, repeat_length. lia.
Qed.

Lemma zfill_all_digits (w : nat) (s : str) :
  all_digits s -> all_digits (zfill w s).
Proof.
  intros H. unfold zfill, all_digits. apply Forall_app. split; [|exact H].
  apply Forall_forall. intros c Hc. apply repeat_spec in Hc. now subst.
Qed.

Lemma zfill_endswith (w : nat) (suffix s : str) :
  endswith suffix s -> endswith suffix (zfill w s).
Proof.
  intros [d ->]. unfold zfill. rewrite app_assoc. eexists; reflexivity.
Qed.

Lemma digits_rev_thousands (fuel : nat) (k : Z) :
  0 < k ->
  digits_rev (S (S (S fuel))) (k * 1000)
  = "0"%char :: "0"%char :: "0"%char :: digits_rev fuel k.
Proof.
  intros Hk.
  assert (forall n, 0 < n -> (n * 10) mod 10 = 0 /\ n * 10 / 10 = n) as T
    by (intros n Hn; split; [apply Z.mod_mul; lia|apply Z.div_mul; lia]).
  replace (k * 1000) with (k * 100 * 10) by lia.
  cbn [digits_rev]. destruct (T (k * 100)) as [-> ->]; [lia|].
  replace (k * 100 =? 0) with false by (symmetry; apply Z.eqb_neq; lia).
  replace (k * 100) with (k * 10 * 10) by lia.
  destruct (T (k * 10)) as [-> ->]; [lia|].
  replace (k * 10 =? 0) with false by (symmetry; apply Z.eqb_neq; lia).
  destruct (T k Hk) as [-> ->].
  replace (k =? 0) with false by (symmetry; apply Z.eqb_neq; lia).
  reflexivity.
Qed.

(** The numeral of a positive multiple of one thousand ends in three
    zeros. *)
Lemma str_of_nonneg_thousands (k : Z) :
  0 < k -> endswith "000" (str_of_nonneg (k * 1000)).
Proof.
  intros Hk. unfold str_of_nonneg.
  assert (9 <= Z.log2 (k * 1000)) as L
    by (apply Z.log2_le_pow2; [lia|change (2 ^ 9) with 512; lia]).
  remember (Z.to_nat (Z.log2 (k * 1000))) as n eqn:En.
  assert (exists f, S n = S (S (S f))) as [f ->]
    by (exists (n - 2)%nat; lia).
  rewrite digits_rev_thousands by exact Hk.
  exists (rev (digits_rev f k)). cbn [rev].
  repeat rewrite <- app_assoc. reflexivity.
Qed.

(** The nine characters spliced in for [nnnnnnnnn]: digits, the last three
    of them zeros. *)
Lemma nanos_str_spec (dt : datetime) :
  0 <= microsecond dt <= 999999 ->
  List.length (nanos_str dt) = 9%nat
  /\ all_digits (nanos_str dt)
  /\ endswith "000" (nanos_str dt).
Proof.
  intros Hus. unfold nanos_str.
  rewrite str_of_int_nonneg by lia.
  repeat split.
  - apply zfill_length. apply str_of_nonneg_length; [lia|].
    change (10 ^ Z.of_nat 9) with 1000000000. lia.
  - apply zfill_all_digits, str_of_nonneg_all_digits.
  - destruct (Z.eq_dec (microsecond dt) 0) as [->|Hne].
    + exists "000000". reflexivity.
    + apply zfill_endswith, str_of_nonneg_thousands. lia.
Qed.

Lemma startswith_single (c x : ascii) (s : str) :
  startswith [c] (x :: s) = Ascii.eqb c x.
Proof. simpl. apply andb_true_r. Qed.

(** [replace(c, "")] leaves no [c]. *)
Lemma replace_removes_char (c : ascii) (s : str) :
  ~ In c (replace [c] [] s).
Proof.
  induction s as [|x s IH].
  - rewrite replace_nil by discriminate. intros [].
  - destruct (Ascii.eqb c x) eqn:E.
    + rewrite replace_match
        by (discriminate || (rewrite startswith_single; exact E)).
      exact IH.
    + rewrite replace_skip
        by (discriminate || (rewrite startswith_single; exact E)).
      intros [->|Hin]; [|exact (IH Hin)].
      rewrite Ascii.eqb_refl in E. discriminate.
Qed.

(** A format in which [sub] occurs is not a name in which it does not. *)
Lemma contains_not_name (sub target_format name : str) :
  contains sub target_format = true -> contains sub name = false ->
  str_eqb target_format name = false.
Proof.
  intros Hc Hn. destruct (str_eqb target_format name) eqn:E; [|reflexivity].
  apply str_eqb_eq in E. subst. congruence.
Qed.



(* ----------------------------------------------------------------- *)
(** ** The token [TZ] (lines 104-109, 125-130 and 23) *)

(** An occurrence found by [in] splits the string. *)
Lemma contains_split (sub s : str) :
  contains sub s = true -> exists a b, s = a ++ sub ++ b.
Proof.
  induction s as [|x s IH]; cbn [contains]; intros H.
  - rewrite orb_false_r in H. apply startswith_split in H.
    exists [], (skipn (List.length sub) []). exact H.
  - apply orb_prop in H as [H|H].
    + apply startswith_split in H.
      exists [], (skipn (List.length sub) (x :: s)). exact H.
    + destruct (IH H) as (a & b & ->). exists (x :: a), b. reflexivity.
Qed.

Lemma contains_app (sub a b : str) : contains sub (a ++ sub ++ b) = true.
Proof.
  induction a as [|x a IH]; cbn [app].
  - destruct (sub ++ b) eqn:E; cbn [contains]; rewrite <- E;
      now rewrite startswith_app.
  - cbn [contains]. rewrite IH. apply orb_true_r.
Qed.

(** The test ["Z" in target_format] holds as soon as [TZ] occurs. *)
Lemma contains_TZ_contains_Z (s : str) :
  contains "TZ" s = true -> contains "Z" s = true.
Proof.
  intros H. apply contains_split in H as (a & b & ->).
  change (a ++ "TZ" ++ b) with (a ++ ["T"%char] ++ "Z" ++ b).
  rewrite app_assoc. apply contains_app.
Qed.

Ltac not_in_literal := cbn; intuition discriminate.

Lemma convert_readable_last_step (s : str) :
  _convert_readable_to_strftime s
  = replace "TZ" "%Z" (substitutions_before_TZ s).
Proof. reflexivity. Qed.

Lemma substitutions_before_TZ_no_Z (s : str) :
  ~ In "Z"%char s -> ~ In "Z"%char (substitutions_before_TZ s).
Proof.
  intros H. unfold substitutions_before_TZ.
  repeat (apply replace_preserves_absent;
          [discriminate|not_in_literal|]).
  exact H.
Qed.

(** Without a [Z] there is no [TZ] to translate. *)
Lemma convert_readable_without_Z (s : str) :
  ~ In "Z"%char s ->
  _convert_readable_to_strftime s = substitutions_before_TZ s
  /\ ~ In "Z"%char (_convert_readable_to_strftime s).
Proof.
  intros H. apply substitutions_before_TZ_no_Z in H.
  rewrite convert_readable_last_step.
  rewrite replace_absent; [auto|discriminate|].
  apply (absent_char_no_occurrence "Z"); [not_in_literal|exact H].
Qed.

(** No token other than [TZ] contains a [T]: the translation works
    separately on both sides of a [T]. *)
Lemma substitutions_before_TZ_barrier (a b : str) :
  substitutions_before_TZ (a ++ "T"%char :: b)
  = substitutions_before_TZ a ++ "T"%char :: substitutions_before_TZ b.
Proof.
  unfold substitutions_before_TZ.
  repeat (rewrite (replace_barrier "T"); [|discriminate|not_in_literal]).
  reflexivity.
Qed.

Lemma convert_readable_T_barrier (a b : str) :
  ~ In "Z"%char a -> ~ In "Z"%char b ->
  _convert_readable_to_strftime (a ++ "T"%char :: b)
  = _convert_readable_to_strftime a ++ "T"%char ::
    _convert_readable_to_strftime b.
Proof.
  intros Ha Hb.
  destruct (convert_readable_without_Z a Ha) as [-> _].
  destruct (convert_readable_without_Z b Hb) as [-> _].
  destruct (convert_readable_without_Z (a ++ "T"%char :: b)) as [-> _].
  - intros Hin. apply in_app_or in Hin as [Hin|[Hin|Hin]];
      [auto|discriminate|auto].
  - apply substitutions_before_TZ_barrier.
Qed.

Lemma digits_no_Z (s : str) : all_digits s -> ~ In "Z"%char s.
Proof.
  intros H Hin. unfold all_digits in H. rewrite Forall_forall in H.
  apply H in Hin. discriminate.
Qed.

Lemma str_of_int_no_Z (n : Z) : ~ In "Z"%char (str_of_int n).
Proof.
  unfold str_of_int. intros Hin. destruct (n <? 0).
  - destruct Hin as [Hin|Hin]; [discriminate|].
    revert Hin. apply digits_no_Z, str_of_nonneg_all_digits.
  - revert Hin. apply digits_no_Z, str_of_nonneg_all_digits.
Qed.

Lemma pad_no_Z (w : nat) (n : Z) : ~ In "Z"%char (pad w n).
Proof.
  unfold pad, zfill. intros Hin.
  apply in_app_or in Hin as [Hin|Hin].
  - apply repeat_spec in Hin. discriminate.
  - revert Hin. apply str_of_int_no_Z.
Qed.

(** ** [strftime] on the patterns of the translator *)

Lemma time_strftime_copies `{Host} (dt : datetime) (a w : str) :
  ~ In "%"%char a -> time_strftime dt (a ++ w) = a ++ time_strftime dt w.
Proof.
  induction a as [|c a IH]; intros Ha; [reflexivity|].
  cbn [app time_strftime].
  destruct (Ascii.eqb c "%") eqn:E.
  - apply Ascii.eqb_eq in E. subst. exfalso. apply Ha. now left.
  - rewrite IH; [reflexivity|]. intros X. apply Ha. now right.
Qed.

(** An ordinary character is copied. *)
Lemma strftime_ordinary `{Host} (dt : datetime) (c : ascii) (fmt : str) :
  ordinary c -> strftime dt (c :: fmt) = c :: strftime dt fmt.
Proof.
  intros [Hp Hn]. unfold strftime. cbn [wrap_strftime].
  replace (Ascii.eqb c NUL) with false
    by (symmetry; now apply Ascii.eqb_neq).
  replace (Ascii.eqb c "%") with false
    by (symmetry; now apply Ascii.eqb_neq).
  cbn [time_strftime].
  replace (Ascii.eqb c "%") with false
    by (symmetry; now apply Ascii.eqb_neq).
  reflexivity.
Qed.

Lemma pad_all_digits (w : nat) (n : Z) : 0 <= n -> all_digits (pad w n).
Proof.
  intros Hn. unfold pad. rewrite str_of_int_nonneg by exact Hn.
  apply zfill_all_digits, str_of_nonneg_all_digits.
Qed.

(** The offset that [%z] writes is made of a sign, digits and a point. *)
Lemma format_offset_chars (off : Z) (c : ascii) :
  In c (format_offset off) ->
  is_digit c = true \/ c = "+"%char \/ c = "-"%char \/ c = "."%char.
Proof.
  unfold format_offset, offset_fields.
  assert (forall w n, 0 <= n -> In c (pad w n) -> is_digit c = true) as D.
  { intros w n Hn Hin. pose proof (pad_all_digits w n Hn) as A.
    unfold all_digits in A. rewrite Forall_forall in A. auto. }
  assert (0 <= Z.abs off / 3600000000) by (apply Z.div_pos; lia).
  assert (0 <= Z.abs off mod 3600000000 / 60000000)
    by (apply Z.div_pos; [apply Z.mod_pos_bound|]; lia).
  assert (0 <= Z.abs off mod 60000000 / 1000000)
    by (apply Z.div_pos; [apply Z.mod_pos_bound|]; lia).
  assert (0 <= Z.abs off mod 1000000) by (apply Z.mod_pos_bound; lia).
  intros Hin.
  apply in_app_or in Hin as [Hin|Hin].
  { destruct (off <? 0); destruct Hin as [<-|[]]; auto. }
  apply in_app_or in Hin as [Hin|Hin]; [eauto|].
  apply in_app_or in Hin as [Hin|Hin]; [eauto|].
  destruct (negb (Z.abs off mod 1000000 =? 0)).
  - apply in_app_or in Hin as [Hin|Hin]; [eauto|].
    destruct Hin as [<-|Hin]; [auto|]. cbn [app list_ascii_of_string] in Hin.
    eauto.
  - destruct (negb (Z.abs off mod 60000000 / 1000000 =? 0));
      [eauto|destruct Hin].
Qed.

(** The conversions that the translator writes, on a naive value or on a
    value with an offset; [%Z] apart, which the converter never hands to
    [strftime]. *)
Lemma strftime_conversion `{Host} (dt : datetime) (d : ascii) (fmt : str) :
  In d ["Y"; "m"; "d"; "H"; "M"; "S"; "z"]%char ->
  strftime dt ("%"%char :: d :: fmt) = conversion dt d ++ strftime dt fmt.
Proof.
  intros Hd. unfold strftime.
  cbn in Hd.
  repeat (destruct Hd as [<-|Hd];
          [cbn [wrap_strftime Ascii.eqb Bool.eqb NUL];
           try reflexivity|]);
    [|destruct Hd].
  unfold conversion. cbn [Ascii.eqb Bool.eqb].
  apply time_strftime_copies.
  destruct (tzinfo dt) as [off|]; [|intros []].
  intros Hin. apply format_offset_chars in Hin as [D|[E|[E|E]]];
    discriminate.
Qed.

(** Formatting a naive value with the translation of a template that has
    neither [%], nor NUL, nor [Z]: the pattern ends where the template ends
    (no conversion is cut), and no [Z] is printed. *)
Lemma strftime_translated `{Host} (u : datetime) :
  tzinfo u = None ->
  forall s o, translates substitution_table s o ->
    ~ In "%"%char s -> ~ In NUL s -> ~ In "Z"%char s ->
    (forall rest, strftime u (o ++ rest) = strftime u o ++ strftime u rest)
    /\ ~ In "Z"%char (strftime u o).
Proof.
  intros Hu s o Tr.
  induction Tr as [|c s o Tr IH|tok rep s o Hin Tr IH]; intros Hp Hn Hz.
  - split; [reflexivity|intros []].
  - destruct IH as [IH1 IH2];
      [intros X; apply Hp; now right|intros X; apply Hn; now right
      |intros X; apply Hz; now right|].
    assert (ordinary c) as Oc.
    { split; intros ->; [apply Hp|apply Hn]; now left. }
    split.
    + intros rest. cbn [app]. rewrite !strftime_ordinary by exact Oc.
      now rewrite IH1.
    + rewrite strftime_ordinary by exact Oc.
      intros [->|X]; [apply Hz; now left|auto].
  - destruct IH as [IH1 IH2];
      [intros X; apply Hp; apply in_or_app; now right
      |intros X; apply Hn; apply in_or_app; now right
      |intros X; apply Hz; apply in_or_app; now right|].
    assert (~ In "Z"%char tok) as Hzt
      by (intros X; apply Hz; apply in_or_app; now left).
    assert (exists d, rep = ["%"%char; d]
                      /\ In d ["Y"; "m"; "d"; "H"; "M"; "S"; "z"]%char
                      /\ ~ In "Z"%char (conversion u d)) as (d & -> & Hd & Hc).
    { cbn in Hin.
      repeat (destruct Hin as [Hin|Hin];
              [injection Hin as <- <-;
               first [exfalso; apply Hzt; cbn; now auto
                     |eexists; split; [reflexivity|]; split; [cbn; tauto|]]
              |]);
        try (destruct Hin).
      - unfold conversion, c_conversion. cbn [Ascii.eqb Bool.eqb].
        unfold year_text.
        destruct libc_pads_year; [apply pad_no_Z|apply str_of_int_no_Z].
      - apply pad_no_Z.
      - apply pad_no_Z.
      - apply pad_no_Z.
      - apply pad_no_Z.
      - apply pad_no_Z.
      - unfold conversion. cbn [Ascii.eqb Bool.eqb]. rewrite Hu. intros []. }
    split.
    + intros rest. cbn [app]. rewrite !strftime_conversion by exact Hd.
      now rewrite IH1, app_assoc.
    + cbn [app]. rewrite strftime_conversion by exact Hd.
      intros X. apply in_app_or in X as [X|X]; auto.
Qed.

(** What is formatted when the template is [pre ++ "TZ" ++ post] and has
    neither [%] nor NUL: the [T] comes out as it is, between two strings
    without [Z]. *)
Lemma formatted_T_literal `{Host} (u : datetime) (pre post : str) :
  tzinfo u = None ->
  ~ In "%"%char (pre ++ "TZ" ++ post) -> ~ In NUL (pre ++ "TZ" ++ post) ->
  exists x y,
    strftime u
      (_convert_readable_to_strftime
         (replace "Z" ""
            (replace "nnnnnnnnn" "{NANOS}" (pre ++ "TZ" ++ post))))
    = x ++ "T"%char :: y
    /\ ~ In "Z"%char x /\ ~ In "Z"%char y.
Proof.
  intros Hu Hp Hn.
  change (pre ++ "TZ" ++ post) with (pre ++ "T"%char :: "Z"%char :: post)
    in *.
  rewrite (replace_barrier "T") by (discriminate || not_in_literal).
  rewrite (replace_barrier "T") by (discriminate || not_in_literal).
  set (A := replace "Z" "" (replace "nnnnnnnnn" "{NANOS}" pre)).
  set (B := replace "Z" ""
              (replace "nnnnnnnnn" "{NANOS}" ("Z"%char :: post))).
  assert (~ In "Z"%char A) as ZA by apply (replace_removes_char "Z").
  assert (~ In "Z"%char B) as ZB by apply (replace_removes_char "Z").
  assert (forall c : ascii,
             ~ In c ("{NANOS}" : str) ->
             ~ In c (pre ++ "T"%char :: "Z"%char :: post) ->
             ~ In c A /\ ~ In c B) as AB.
  { intros c Hc Hin. split.
    - subst A. repeat (apply replace_preserves_absent;
                       [discriminate|first [exact Hc|intros []]|]).
      intros X. apply Hin. apply in_or_app. now left.
    - subst B. repeat (apply replace_preserves_absent;
                       [discriminate|first [exact Hc|intros []]|]).
      intros [X|X]; [apply Hin; apply in_or_app; right; right; now left|].
      apply Hin. apply in_or_app. right. right. now right. }
  destruct (AB "%"%char ltac:(not_in_literal) Hp) as [PA PB].
  destruct (AB NUL ltac:(not_in_literal) Hn) as [NA' NB'].
  rewrite convert_readable_T_barrier by assumption.
  destruct (strftime_translated u Hu A _ (convert_readable_translates A)
              PA NA' ZA) as [SA NA].
  destruct (strftime_translated u Hu B _ (convert_readable_translates B)
              PB NB' ZB) as [_ NB].
  rewrite SA. rewrite strftime_ordinary by (split; discriminate).
  eauto.
Qed.

Lemma nanos_template (target_format : str) :
  (if contains "nnnnnnnnn" target_format
   then replace "nnnnnnnnn" "{NANOS}" target_format
   else target_format)
  = replace "nnnnnnnnn" "{NANOS}" target_format.
Proof.
  destruct (contains "nnnnnnnnn" target_format) eqn:E; [reflexivity|].
  symmetry. apply replace_absent; [discriminate|exact E].
Qed.


(** A NUL character ends the pattern that is formatted: what follows it,
    the [T] of a token included, is not written. *)
Example nul_cuts_the_format :
  convert_timestamp_format (H := utc_host) "2025-11-01T00:00:00-08:00"
    ("YYYY" ++ NUL :: "TZ") = Returns ("2025Z" : str).
Proof. vm_compute. reflexivity. Qed.



(* ----------------------------------------------------------------- *)
(** ** Writing and reading back ([YYYY-MM-DDTHH:MI:SSoffset]) *)

Lemma digit_val_digit_char (d : Z) :
  0 <= d < 10 -> digit_val (digit_char d) = d.
Proof.
  intros Hd.
  assert ((digit_val (digit_char d) =? d) = true) as E
    by (apply (forall_below (fun d => digit_val (digit_char d) =? d) 10);
        [reflexivity|exact Hd]).
  now apply Z.eqb_eq.
Qed.

(** [parse_digits] reads a run of digits as the number they write. *)
Lemma parse_digits_value (ds : str) :
  forall acc rest, all_digits ds ->
    parse_digits (List.length ds) acc (ds ++ rest)
    = Some (digits_value acc ds, rest).
Proof.
  induction ds as [|c ds IH]; intros acc rest Hd; [reflexivity|].
  inversion Hd as [|? ? Hc Hds]; subst.
  cbn [List.length app parse_digits digits_value fold_left].
  rewrite Hc. now apply IH.
Qed.

Lemma digits_value_app (a b : str) (acc : Z) :
  digits_value acc (a ++ b) = digits_value (digits_value acc a) b.
Proof. apply fold_left_app. Qed.

Lemma digits_value_zeros (k : nat) : digits_value 0 (repeat "0"%char k) = 0.
Proof. induction k as [|k IH]; [reflexivity|exact IH]. Qed.

(** The digits of [n], least significant first, write [n]. *)
Lemma digits_rev_value (fuel : nat) :
  forall n, 0 <= n < 2 ^ Z.of_nat fuel ->
    digits_value 0 (rev (digits_rev fuel n)) = n.
Proof.
  induction fuel as [|fuel IH]; intros n Hn.
  - simpl in Hn. cbn. lia.
  - cbn [digits_rev rev]. rewrite digits_value_app.
    rewrite Nat2Z.inj_succ, Z.pow_succ_r in Hn by lia.
    assert (0 <= n mod 10 < 10) as Hm by (apply Z.mod_pos_bound; lia).
    pose proof (Z.div_mod n 10 ltac:(lia)) as D.
    destruct (n / 10 =? 0) eqn:E.
    + apply Z.eqb_eq in E. cbn. rewrite digit_val_digit_char by exact Hm.
      lia.
    + rewrite IH.
      * cbn. rewrite digit_val_digit_char by exact Hm. lia.
      * split; [apply Z.div_pos; lia|].
        apply Z.div_lt_upper_bound; lia.
Qed.

Lemma str_of_nonneg_value (n : Z) :
  0 <= n -> digits_value 0 (str_of_nonneg n) = n.
Proof.
  intros Hn. unfold str_of_nonneg. apply digits_rev_value.
  split; [exact Hn|].
  destruct (Z.eq_dec n 0) as [->|Hne]; [reflexivity|].
  rewrite Nat2Z.inj_succ, Z2Nat.id by apply Z.log2_nonneg.
  apply Z.log2_spec. lia.
Qed.

(** A number written in a field of [w] digits is read back. *)
Lemma parse_digits_pad (w : nat) (n : Z) :
  (1 <= w)%nat -> 0 <= n < 10 ^ Z.of_nat w ->
  List.length (pad w n) = w
  /\ all_digits (pad w n)
  /\ forall rest, parse_digits w 0 (pad w n ++ rest) = Some (n, rest).
Proof.
  intros Hw Hn. unfold pad. rewrite str_of_int_nonneg by lia.
  assert (List.length (zfill w (str_of_nonneg n)) = w) as L
    by (apply zfill_length; now apply str_of_nonneg_length).
  assert (all_digits (zfill w (str_of_nonneg n))) as D
    by apply zfill_all_digits, str_of_nonneg_all_digits.
  split; [exact L|]. split; [exact D|]. intros rest.
  rewrite <- L at 1. rewrite parse_digits_value by exact D.
  f_equal. f_equal. unfold zfill.
  rewrite digits_value_app, digits_value_zeros.
  apply str_of_nonneg_value. lia.
Qed.

Lemma days_in_month_bound (y m : Z) :
  1 <= m <= 12 -> _days_in_month y m <= 31.
Proof.
  intros Hm. unfold _days_in_month.
  destruct ((m =? 2) && _is_leap y); [lia|].
  assert (m = 1 \/ m = 2 \/ m = 3 \/ m = 4 \/ m = 5 \/ m = 6 \/ m = 7
          \/ m = 8 \/ m = 9 \/ m = 10 \/ m = 11 \/ m = 12) as C by lia.
  repeat (destruct C as [->|C]; [vm_compute; discriminate|]).
  subst. vm_compute. discriminate.
Qed.

Lemma digit_not_sign (c : ascii) : is_digit c = true -> is_sign c = false.
Proof.
  intros D. destruct (is_sign c) eqn:S; [|reflexivity].
  apply sign_not_digit in S. congruence.
Qed.

Lemma digit_not_colon (c : ascii) : is_digit c = true -> c <> ":"%char.
Proof. intros D ->. discriminate. Qed.

(** A field of two digits, character by character. *)
Lemma pad_2 (n : Z) :
  0 <= n < 100 ->
  exists a b, pad 2 n = [a; b]
    /\ is_digit a = true /\ is_digit b = true
    /\ forall rest, parse_digits 2 0 (a :: b :: rest) = Some (n, rest).
Proof.
  intros Hn.
  destruct (parse_digits_pad 2 n ltac:(lia) Hn) as (L & D & P).
  destruct (pad 2 n) as [|a [|b [|]]]; try discriminate.
  exists a, b. inversion D as [|? ? Da D']; subst.
  inversion D' as [|? ? Db _]; subst. auto.
Qed.

(** The year, in its field of four digits. *)
Lemma pad_4 (n : Z) :
  0 <= n < 10000 ->
  exists a b c d, pad 4 n = [a; b; c; d]
    /\ forall rest, parse_digits 4 0 (a :: b :: c :: d :: rest)
                    = Some (n, rest).
Proof.
  intros Hn.
  destruct (parse_digits_pad 4 n ltac:(lia) Hn) as (L & D & P).
  destruct (pad 4 n) as [|a [|b [|c [|d [|]]]]]; try discriminate.
  exists a, b, c, d. auto.
Qed.

(** [%z] for an offset of whole minutes: a sign and four digits. *)
Lemma format_offset_minutes (off : Z) :
  off mod 60000000 = 0 ->
  format_offset off
  = (if off <? 0 then "-" else "+")
    ++ pad 2 (Z.abs off / 3600000000)
    ++ pad 2 (Z.abs off mod 3600000000 / 60000000).
Proof.
  intros Hm. unfold format_offset, offset_fields.
  assert (Z.abs off mod 60000000 = 0) as A
    by (Z.div_mod_to_equations; lia).
  assert (Z.abs off mod 1000000 = 0) as B
    by (Z.div_mod_to_equations; lia).
  rewrite A, B. cbn [Z.eqb negb Z.div].
  change (0 / 1000000 =? 0) with true. cbn [negb].
  now rewrite app_nil_r.
Qed.

Lemma strftime_iso_offset `{Host} (dt : datetime) :
  strftime dt "%Y-%m-%dT%H:%M:%S%z"
  = year_text (year dt) ++ "-" ++ pad 2 (month dt) ++ "-" ++ pad 2 (day dt)
    ++ "T" ++ pad 2 (hour dt) ++ ":" ++ pad 2 (minute dt) ++ ":"
    ++ pad 2 (second dt)
    ++ match tzinfo dt with Some off => format_offset off | None => [] end.
Proof.
  cbn [list_ascii_of_string].
  repeat first [rewrite strftime_conversion by (cbn; tauto)
               |rewrite strftime_ordinary by (split; discriminate)].
  unfold conversion, c_conversion. cbn [Ascii.eqb Bool.eqb].
  change (strftime dt []) with ([] : str). rewrite app_nil_r.
  reflexivity.
Qed.

Lemma digit_val_bounds (c : ascii) :
  is_digit c = true -> 0 <= digit_val c <= 9.
Proof.
  unfold is_digit, digit_val. cbv zeta. intros H.
  apply andb_prop in H as [H1 H2].
  apply Z.leb_le in H1, H2. lia.
Qed.

Lemma digits_value_linear (ds : str) :
  forall acc,
    digits_value acc ds
    = acc * 10 ^ Z.of_nat (List.length ds) + digits_value 0 ds.
Proof.
  induction ds as [|c ds IH]; intros acc.
  - cbn. lia.
  - unfold digits_value in *. cbn [fold_left List.length].
    rewrite (IH (acc * 10 + digit_val c)), (IH (0 * 10 + digit_val c)).
    rewrite Nat2Z.inj_succ, Z.pow_succ_r by lia. lia.
Qed.

Lemma digits_value_bounds (ds : str) :
  all_digits ds ->
  0 <= digits_value 0 ds < 10 ^ Z.of_nat (List.length ds).
Proof.
  induction ds as [|c ds IH]; intros D.
  - cbn. lia.
  - inversion D as [|? ? Dc Dd]; subst. specialize (IH Dd).
    pose proof (digit_val_bounds c Dc) as Bc.
    change (digits_value 0 (c :: ds))
      with (digits_value (0 * 10 + digit_val c) ds).
    rewrite digits_value_linear. cbn [List.length].
    rewrite Nat2Z.inj_succ, Z.pow_succ_r by lia. nia.
Qed.

(** A year of four digits is written alike with and without padding. *)
Lemma year_text_four_digits `{Host} (dt : datetime) :
  four_digit_year dt -> 1 <= year dt <= 9999 ->
  year_text (year dt) = pad 4 (year dt).
Proof.
  intros [P|Y] By; unfold year_text; [now rewrite P|].
  destruct libc_pads_year; [reflexivity|].
  unfold pad, zfill. rewrite str_of_int_nonneg by lia.
  pose proof (str_of_nonneg_length 4 (year dt) ltac:(lia) ltac:(lia)) as L.
  pose proof (digits_value_bounds _ (str_of_nonneg_all_digits (year dt)))
    as B.
  rewrite str_of_nonneg_value in B by lia.
  assert (List.length (str_of_nonneg (year dt)) = 4%nat) as ->.
  { destruct (List.length (str_of_nonneg (year dt)))
      as [|[|[|[|[|n]]]]] eqn:E; cbn in B, L; lia. }
  reflexivity.
Qed.

(** What is written for a value with an offset of whole minutes is parsed
    (by the retry of line 76, the offset being written without a colon) to
    the same value without its fraction of a second. *)
Lemma iso_offset_read_back `{Host} (dt : datetime) (off : Z) :
  valid_datetime dt -> tzinfo dt = Some off -> off mod 60000000 = 0 ->
  four_digit_year dt ->
  parse_timestamp (strftime dt "%Y-%m-%dT%H:%M:%S%z")
  = Returns (whole_seconds dt).
Proof.
  intros V T M Y. unfold whole_seconds.
  rewrite strftime_iso_offset, T, format_offset_minutes by exact M.
  rewrite year_text_four_digits
    by (exact Y || (unfold valid_datetime in V; tauto)).
  clear Y.
  destruct dt as [y mo d h mi s us tz]. unfold valid_datetime in V.
  cbn in T, V. subst tz.
  cbn [year month day hour minute second tzinfo].
  destruct V as (Vy & Vmo & Vd & Vh & Vmi & Vs & _ & Voff).
  pose proof (days_in_month_bound y mo Vmo) as Vd'.
  set (a := Z.abs off).
  assert (0 <= a / 3600000000 < 100
          /\ 0 <= a mod 3600000000 / 60000000 < 100
          /\ (a / 3600000000 * 3600 + a mod 3600000000 / 60000000 * 60 + 0)
             * 1000000 + 0 = a) as (Voh & Vom & Ea).
  { subst a. Z.div_mod_to_equations. lia. }
  destruct (pad_4 y ltac:(lia)) as (y0 & y1 & y2 & y3 & -> & Py).
  destruct (pad_2 mo ltac:(lia)) as (m0 & m1 & -> & _ & _ & Pmo).
  destruct (pad_2 d ltac:(lia)) as (d0 & d1 & -> & _ & _ & Pd).
  destruct (pad_2 h ltac:(lia)) as (h0 & h1 & -> & Dh0 & Dh1 & Ph).
  destruct (pad_2 mi ltac:(lia)) as (i0 & i1 & -> & Di0 & Di1 & Pmi).
  destruct (pad_2 s ltac:(lia)) as (s0 & s1 & -> & Ds0 & Ds1 & Ps).
  destruct (pad_2 _ Voh) as (p0 & p1 & -> & Dp0 & Dp1 & Poh).
  destruct (pad_2 _ Vom) as (q0 & q1 & -> & Dq0 & Dq1 & Pom).
  set (sg := if off <? 0 then "-"%char else "+"%char).
  assert (is_sign sg = true) as Sg by (subst sg; now destruct (off <? 0)).
  cbn [app list_ascii_of_string].
  replace (if off <? 0 then ["-"%char] else ["+"%char]) with [sg]
    by (subst sg; now destruct (off <? 0)).
  cbn [app].
  change [y0; y1; y2; y3; "-"; m0; m1; "-"; d0; d1; "T"; h0; h1; ":"; i0; i1;
          ":"; s0; s1; sg; p0; p1; q0; q1]%char
    with ([y0; y1; y2; y3; "-"; m0; m1; "-"; d0; d1; "T"; h0; h1; ":"; i0;
           i1; ":"; s0; s1]%char ++ [sg; p0; p1; q0; q1]).
  rewrite parse_timestamp_colonless
    by (try exact Sg; now apply digit_not_colon).
  cbn [app]. unfold fromisoformat. cbn [firstn skipn].
  unfold parse_isoformat_date. rewrite Py. cbn [expect Ascii.eqb Bool.eqb].
  rewrite Pmo. cbn [expect Ascii.eqb Bool.eqb]. rewrite Pd.
  unfold parse_isoformat_time. cbn [split_tz].
  change (is_sign ":") with false. rewrite Sg.
  rewrite (digit_not_sign h0), (digit_not_sign h1), (digit_not_sign i0),
    (digit_not_sign i1), (digit_not_sign s0), (digit_not_sign s1)
    by assumption.
  cbv iota beta.
  unfold parse_hh_mm_ss_ff at 1. rewrite Ph. cbn [expect Ascii.eqb Bool.eqb].
  rewrite Pmi. cbn [expect Ascii.eqb Bool.eqb]. rewrite Ps.
  change (tz_length_ok [p0; p1; ":"%char; q0; q1]) with true. cbv iota.
  unfold parse_hh_mm_ss_ff. rewrite Poh. cbn [expect Ascii.eqb Bool.eqb].
  rewrite Pom.
  assert (tz_of_components
            (Some (sg, (a / 3600000000, a mod 3600000000 / 60000000, 0, 0)))
          = Returns (Some off)) as ->.
  { assert ((if Ascii.eqb sg "-" then -1 else 1) * a = off) as Es.
    { subst sg a. destruct (off <? 0) eqn:E;
        [apply Z.ltb_lt in E; change (Ascii.eqb "-" "-") with true
        |apply Z.ltb_ge in E; change (Ascii.eqb "+" "-") with false];
        cbv iota; lia. }
    unfold tz_of_components. cbv zeta.
    set (sign := if Ascii.eqb sg "-" then -1 else 1) in *.
    assert (sign = 1 \/ sign = -1) as Hsign
      by (subst sign; destruct (Ascii.eqb sg "-"); auto).
    set (secs := a / 3600000000 * 3600 + a mod 3600000000 / 60000000 * 60
                 + 0) in *.
    destruct (sign * secs =? 0) eqn:E0.
    - apply Z.eqb_eq in E0. f_equal. f_equal. nia.
    - replace (sign * secs * 1000000 + sign * 0) with off by nia.
      unfold new_timezone.
      replace ((-86400000000 <? off) && (off <? 86400000000)) with true;
        [reflexivity|].
      symmetry. apply andb_true_intro. split; apply Z.ltb_lt; lia. }
  cbn [bind]. unfold new_datetime.
  repeat match goal with
  | |- context [negb ((?a <=? ?b) && (?c <=? ?d))] =>
      replace ((a <=? b) && (c <=? d)) with true
        by (symmetry; apply andb_true_intro; split; apply Z.leb_le; lia);
      cbn [negb]
  end.
  reflexivity.
Qed.

(** The template is neither an epoch name nor has [nnnnnnnnn] or [Z]: the
    plain branch (line 132) writes the parsed value as it is. *)
Lemma convert_iso_offset `{Host} (ts : str) (dt : datetime) :
  parse_timestamp ts = Returns dt ->
  convert_timestamp_format ts "YYYY-MM-DDTHH:MI:SSoffset"
  = Returns (strftime dt "%Y-%m-%dT%H:%M:%S%z").
Proof.
  intros P. unfold convert_timestamp_format, convert_body. rewrite P.
  reflexivity.
Qed.

Lemma instant_whole_seconds (dt : datetime) (off : Z) :
  tzinfo dt = Some off ->
  instant (whole_seconds dt) = Some (utc_micros dt off - microsecond dt)
  /\ instant dt = Some (utc_micros dt off).
Proof.
  intros T. unfold instant, whole_seconds. cbn [tzinfo]. rewrite T.
  split; [|reflexivity]. f_equal.
  unfold utc_micros, wall_micros, wall_seconds. cbn. lia.
Qed.

(** The template has no token for the fraction of a second: half a second
    after midnight is written as midnight, and read back as midnight. *)
Lemma round_trip_drops_fraction :
  exists dt,
    parse_timestamp "2025-11-01T00:00:00.500000-08:00" = Returns dt
    /\ tzinfo dt = Some (-28800000000)
    /\ convert_timestamp_format (H := utc_host)
         "2025-11-01T00:00:00.500000-08:00" "YYYY-MM-DDTHH:MI:SSoffset"
       = Returns ("2025-11-01T00:00:00-0800" : str)
    /\ ~ round_trips (H := utc_host) "2025-11-01T00:00:00.500000-08:00" dt.
Proof.
  eexists. split; [vm_compute; reflexivity|]. split; [reflexivity|].
  split; [vm_compute; reflexivity|].
  intros (out & dt' & C & P & I).
  vm_compute in C. injection C as <-.
  vm_compute in P. injection P as <-.
  vm_compute in I. discriminate.
Qed.

(** On a host whose C library does not pad the year, a year below 1000 is
    written with fewer than four digits and is not read back; on a host
    that pads it, it is. *)
Example short_year_not_read_back :
  convert_timestamp_format (H := utc_host)
    "0999-11-01T00:00:00+00:00" "YYYY-MM-DDTHH:MI:SSoffset"
  = Returns ("999-11-01T00:00:00+0000" : str)
  /\ parse_timestamp "999-11-01T00:00:00+0000"
     = Raises (mk_exn ValueError
                 "Invalid isoformat string: '999-11-01T00:00:00+00:00'")
  /\ convert_timestamp_format (H := padding_host)
       "0999-11-01T00:00:00+00:00" "YYYY-MM-DDTHH:MI:SSoffset"
     = Returns ("0999-11-01T00:00:00+0000" : str).
Proof. repeat split; vm_compute; reflexivity. Qed.

(** C4, as it holds.  For every input that the converter parses to a value
    with an offset of whole minutes and a year written with four digits,
    the template [YYYY-MM-DDTHH:MI:SSoffset] writes a string that the
    converter parses again, to the same value without its fraction of a
    second; the instant read back is the instant of the input exactly when
    the input has no fraction of a second. *)
Theorem round_trip_whole_seconds (H : Host) (ts : str) (dt : datetime)
        (off : Z) :
  parse_timestamp ts = Returns dt ->
  tzinfo dt = Some off ->
  off mod 60000000 = 0 ->
  four_digit_year dt ->
  exists out,
    convert_timestamp_format ts "YYYY-MM-DDTHH:MI:SSoffset" = Returns out
    /\ parse_timestamp out = Returns (whole_seconds dt)
    /\ (round_trips ts dt <-> microsecond dt = 0).
Proof.
  intros P T M Y.
  pose proof (convert_iso_offset ts dt P) as C.
  pose proof (iso_offset_read_back dt off (parse_timestamp_valid _ _ P) T M Y)
    as R.
  destruct (instant_whole_seconds dt off T) as [I1 I2].
  eexists. split; [exact C|]. split; [exact R|]. split.
  - intros (out & dt' & C' & P' & I).
    assert (dt' = whole_seconds dt) as -> by congruence.
    rewrite I1, I2 in I. injection I as I. lia.
  - intros U. eexists. eexists. split; [exact C|]. split; [exact R|].
    rewrite I1, I2, U. f_equal. lia.
Qed.

Lemma round_trip_whole_seconds_witness :
  round_trips (H := utc_host) "2025-11-01T00:00:00-08:00"
    (mk_datetime 2025 11 1 0 0 0 0 (Some (-28800000000))).
Proof.
  assert (parse_timestamp "2025-11-01T00:00:00-08:00"
          = Returns (mk_datetime 2025 11 1 0 0 0 0 (Some (-28800000000))))
    as P by (vm_compute; reflexivity).
  destruct (round_trip_whole_seconds utc_host _ _ (-28800000000) P eq_refl
              eq_refl ltac:(right; cbn; lia)) as (out & _ & _ & R).
  apply R. reflexivity.
Defined.

(* ================================================================= *)
(** * Part III: further properties *)
(* ================================================================= *)

(* ----------------------------------------------------------------- *)
(** ** The translator, piece by piece *)

(** X1. A character that occurs in no token of the table separates the
    template: the translation of [a ++ c :: b] is the translation of [a],
    the character, and the translation of [b]. *)
Theorem translator_separator (c : ascii) (a b : str) :
  (forall tok rep, In (tok, rep) substitution_table -> ~ In c tok) ->
  _convert_readable_to_strftime (a ++ c :: b)
  = _convert_readable_to_strftime a ++ c :: _convert_readable_to_strftime b.
Proof.
  intros Hc. unfold _convert_readable_to_strftime. cbv zeta.
  assert (forall tok rep, In (tok, rep) substitution_table ->
            forall x y, replace tok rep (x ++ c :: y)
                        = replace tok rep x ++ c :: replace tok rep y) as R.
  { intros tok rep Hin. apply replace_barrier; [|eauto].
    cbn in Hin.
    repeat (destruct Hin as [Hin|Hin];
            [injection Hin as <- <-; discriminate|]).
    destruct Hin. }
  rewrite (R "YYYY" "%Y") by (cbn; tauto).
  rewrite (R "MM" "%m") by (cbn; tauto).
  rewrite (R "DD" "%d") by (cbn; tauto).
  rewrite (R "HH" "%H") by (cbn; tauto).
  rewrite (R "MI" "%M") by (cbn; tauto).
  rewrite (R "SS" "%S") by (cbn; tauto).
  rewrite (R "offset" "%z") by (cbn; tauto).
  rewrite (R "TZ" "%Z") by (cbn; tauto).
  reflexivity.
Qed.

Lemma translator_separator_witness :
  _convert_readable_to_strftime ("YYYY" ++ "-"%char :: "MM")
  = _convert_readable_to_strftime "YYYY" ++ "-"%char ::
    _convert_readable_to_strftime "MM".
Proof.
  apply translator_separator. intros tok rep Hin. cbn in Hin.
  repeat (destruct Hin as [Hin|Hin];
          [injection Hin as <- <-; cbn; intuition discriminate|]).
  destruct Hin.
Defined.

(* ----------------------------------------------------------------- *)
(** ** Rejected inputs, literal formats and the date (lines 64-79, 132-134) *)

Lemma fromisoformat_date_part (s : str) (dt : datetime) :
  fromisoformat s = Returns dt ->
  exists y0 y1 y2 y3 m0 m1 d0 d1,
    firstn 10 s = [y0; y1; y2; y3; "-"%char; m0; m1; "-"%char; d0; d1]
    /\ all_digits [y0; y1; y2; y3; m0; m1; d0; d1]
    /\ year dt = digits_value 0 [y0; y1; y2; y3]
    /\ month dt = digits_value 0 [m0; m1]
    /\ day dt = digits_value 0 [d0; d1].
Proof.
  unfold fromisoformat. intros F.
  destruct (parse_isoformat_date (firstn 10 s)) as [[[y mo] d]|] eqn:D;
    [|discriminate].
  destruct (parse_isoformat_date_spec _ _ D)
    as (y0 & y1 & y2 & y3 & m0 & m1 & d0 & d1 & E & Dg).
  exists y0, y1, y2, y3, m0, m1, d0, d1.
  split; [exact E|]. split; [exact Dg|].
  rewrite E in D. unfold parse_isoformat_date in D.
  unfold all_digits in Dg.
  assert (all_digits [y0; y1; y2; y3] /\ all_digits [m0; m1]
          /\ all_digits [d0; d1]) as (Gy & Gm & Gd).
  { repeat match goal with
           | H : Forall _ (_ :: _) |- _ => inversion H; clear H; subst
           end.
    repeat split; repeat constructor; assumption. }
  pose proof (parse_digits_value [y0; y1; y2; y3] 0
                ["-"%char; m0; m1; "-"%char; d0; d1] Gy) as Py.
  cbn [List.length app] in Py. rewrite Py in D. cbn [expect] in D.
  change (Ascii.eqb "-" "-") with true in D. cbv iota in D.
  pose proof (parse_digits_value [m0; m1] 0 ["-"%char; d0; d1] Gm) as Pm.
  cbn [List.length app] in Pm. rewrite Pm in D. cbn [expect] in D.
  change (Ascii.eqb "-" "-") with true in D. cbv iota in D.
  pose proof (parse_digits_value [d0; d1] 0 [] Gd) as Pd.
  cbn [List.length app] in Pd. rewrite Pd in D.
  injection D as <- <- <-.
  destruct (skipn 10 s) as [|sep tstr].
  - apply new_datetime_spec in F as (-> & _). auto.
  - destruct (parse_isoformat_time tstr) as [[[[[h mi] sec] us] tz]|];
      [|discriminate].
    destruct (tz_of_components tz) as [tzi|e]; [|discriminate].
    cbn [bind] in F. apply new_datetime_spec in F as (-> & _). auto.
Qed.

Lemma fromisoformat_length (s : str) (dt : datetime) :
  fromisoformat s = Returns dt -> (10 <= List.length s)%nat.
Proof.
  intros F.
  destruct (fromisoformat_date_part _ _ F)
    as (y0 & y1 & y2 & y3 & m0 & m1 & d0 & d1 & E & _).
  apply (f_equal (@List.length ascii)) in E.
  rewrite length_firstn in E. cbn [List.length] in E. lia.
Qed.

(** A colon among the first ten characters is not a date. *)
Lemma fromisoformat_colon_position (a b : str) (dt : datetime) :
  fromisoformat (a ++ ":"%char :: b) = Returns dt ->
  (10 <= List.length a)%nat.
Proof.
  intros F.
  destruct (fromisoformat_date_part _ _ F)
    as (y0 & y1 & y2 & y3 & m0 & m1 & d0 & d1 & E & Dg & _).
  destruct (Nat.le_gt_cases 10 (List.length a)) as [L|L]; [exact L|].
  exfalso.
  assert (In ":"%char (firstn 10 (a ++ ":"%char :: b))) as Hin.
  { rewrite firstn_app, (firstn_all2 a) by lia.
    apply in_or_app. right.
    destruct (10 - List.length a)%nat as [|k] eqn:K; [lia|].
    now left. }
  rewrite E in Hin. unfold all_digits in Dg.
  repeat match goal with
         | H : Forall _ (_ :: _) |- _ => inversion H; clear H; subst
         end.
  cbn in Hin.
  repeat (destruct Hin as [Hin|Hin]; [subst; discriminate|]).
  exact Hin.
Qed.

(** The date of a parsed value is written in the first ten characters of
    the input, also when the value comes from the retry. *)
Lemma parse_timestamp_date_part (ts : str) (dt : datetime) :
  parse_timestamp ts = Returns dt ->
  exists y0 y1 y2 y3 m0 m1 d0 d1,
    firstn 10 ts = [y0; y1; y2; y3; "-"%char; m0; m1; "-"%char; d0; d1]
    /\ all_digits [y0; y1; y2; y3; m0; m1; d0; d1]
    /\ year dt = digits_value 0 [y0; y1; y2; y3]
    /\ month dt = digits_value 0 [m0; m1]
    /\ day dt = digits_value 0 [d0; d1].
Proof.
  intros P. apply parse_timestamp_spec in P as [F|[_ F]].
  - now apply fromisoformat_date_part.
  - cbn [app list_ascii_of_string] in F.
    pose proof (fromisoformat_colon_position _ _ _ F) as L.
    rewrite length_firstn in L.
    destruct (fromisoformat_date_part _ _ F)
      as (y0 & y1 & y2 & y3 & m0 & m1 & d0 & d1 & E & R).
    exists y0, y1, y2, y3, m0, m1, d0, d1. split; [|exact R].
    rewrite <- E, firstn_app, firstn_firstn, length_firstn.
    replace (10 - Nat.min (List.length ts - 2) (List.length ts))%nat
      with 0%nat by lia.
    rewrite firstn_O, app_nil_r. f_equal. lia.
Qed.

(** X2. An input of fewer than five characters, the empty input included,
    is rejected whatever the target format: the retry of lines 73-76 is not
    attempted, and the [Exception] that comes out names the input after the
    prefixes of lines 79 and 139. *)
Theorem short_input_is_rejected `{Host} (ts target_format : str) :
  (List.length ts < 5)%nat ->
  convert_timestamp_format ts target_format
  = Raises (mk_exn Exception
              ("Error converting timestamp: Could not parse timestamp: "
               ++ ts)).
Proof.
  intros L.
  destruct (fromisoformat ts) as [dt|e] eqn:F.
  { apply fromisoformat_length in F. lia. }
  apply (parse_failure_is_wrapped _ _
           (mk_exn ValueError ("Could not parse timestamp: " ++ ts))).
  apply (parse_failure_names_input ts e F).
  destruct (5 <=? List.length ts)%nat eqn:E5; [|reflexivity].
  apply Nat.leb_le in E5. lia.
Qed.

Lemma short_input_is_rejected_witness :
  convert_timestamp_format (H := utc_host) "" "YYYY-MM-DD"
  = Raises (mk_exn Exception
              "Error converting timestamp: Could not parse timestamp: ")
  /\ convert_timestamp_format (H := utc_host) "2025" "epoch_ms"
     = Raises (mk_exn Exception
                 "Error converting timestamp: Could not parse timestamp: 2025").
Proof.
  split.
  - apply (short_input_is_rejected (H := utc_host) "" "YYYY-MM-DD").
    cbn. lia.
  - apply (short_input_is_rejected (H := utc_host) "2025" "epoch_ms").
    cbn. lia.
Defined.

(** [strftime] copies a pattern without [%] and without NUL. *)
Lemma strftime_literal `{Host} (dt : datetime) (s : str) :
  ~ In "%"%char s -> ~ In NUL s -> strftime dt s = s.
Proof.
  induction s as [|c s IH]; intros Hp Hn; [reflexivity|].
  rewrite strftime_ordinary.
  - rewrite IH; [reflexivity| |]; intros X; [apply Hp|apply Hn]; now right.
  - split; intros ->; [apply Hp|apply Hn]; now left.
Qed.

Lemma str_eqb_neq (a b : str) : a <> b -> str_eqb a b = false.
Proof.
  intros N. destruct (str_eqb a b) eqn:E; [|reflexivity].
  apply str_eqb_eq in E. contradiction.
Qed.

(** X3. A target format that is not one of the two epoch names and has no
    token, no [nnnnnnnnn], no [Z], no [%] and no NUL character is returned
    as it is, for every input that is parsed. *)
Theorem literal_format_is_returned `{Host} (ts target_format : str)
        (dt : datetime) :
  parse_timestamp ts = Returns dt ->
  (forall tok rep, In (tok, rep) substitution_table ->
                   contains tok target_format = false) ->
  contains "nnnnnnnnn" target_format = false ->
  contains "Z" target_format = false ->
  ~ In "%"%char target_format ->
  ~ In NUL target_format ->
  target_format <> "epoch_ms" -> target_format <> "epoch_sec" ->
  convert_timestamp_format ts target_format = Returns target_format.
Proof.
  intros P Tk Hn Hz Hp Hnul N1 N2.
  unfold convert_timestamp_format, convert_body. rewrite P. cbn [bind].
  rewrite (str_eqb_neq _ _ N1), (str_eqb_neq _ _ N2), Hn, Hz.
  rewrite (no_token_identity _ Tk), (strftime_literal _ _ Hp Hnul).
  reflexivity.
Qed.

Lemma literal_format_is_returned_witness :
  convert_timestamp_format (H := utc_host) "2025-11-01T00:00:00-08:00"
    "week 44" = Returns ("week 44" : str).
Proof.
  apply (literal_format_is_returned (H := utc_host) _ _
           (mk_datetime 2025 11 1 0 0 0 0 (Some (-28800000000)))).
  - vm_compute. reflexivity.
  - intros tok rep Hin. cbn in Hin.
    repeat (destruct Hin as [Hin|Hin];
            [injection Hin as <- <-; reflexivity|]).
    destruct Hin.
  - reflexivity.
  - reflexivity.
  - cbn. intuition discriminate.
  - cbn. intuition discriminate.
  - discriminate.
  - discriminate.
Defined.

Lemma digit_char_val (c : ascii) :
  is_digit c = true -> digit_char (digit_val c) = c.
Proof.
  destruct c as [[|] [|] [|] [|] [|] [|] [|] [|]];
    intros D; try discriminate D; reflexivity.
Qed.

Lemma digits_value_inj (a : str) :
  forall b, all_digits a -> all_digits b ->
    List.length a = List.length b ->
    digits_value 0 a = digits_value 0 b -> a = b.
Proof.
  induction a as [|c a IH]; intros [|c' b] Da Db L E; try discriminate L.
  - reflexivity.
  - inversion Da as [|? ? Dc Da']; subst.
    inversion Db as [|? ? Dc' Db']; subst.
    injection L as L.
    change (digits_value 0 (c :: a))
      with (digits_value (0 * 10 + digit_val c) a) in E.
    change (digits_value 0 (c' :: b))
      with (digits_value (0 * 10 + digit_val c') b) in E.
    rewrite (digits_value_linear a), (digits_value_linear b), L in E.
    pose proof (digits_value_bounds a Da') as Ba. rewrite L in Ba.
    pose proof (digits_value_bounds b Db') as Bb.
    pose proof (digit_val_bounds c Dc) as Bc.
    pose proof (digit_val_bounds c' Dc') as Bc'.
    set (P := 10 ^ Z.of_nat (List.length b)) in *.
    assert (digit_val c = digit_val c') as Ec.
    { destruct (Z.lt_trichotomy (digit_val c) (digit_val c'))
        as [Hlt|[Heq|Hgt]]; [exfalso|exact Heq|exfalso].
      - assert (P <= (digit_val c' - digit_val c) * P) by nia. lia.
      - assert (P <= (digit_val c - digit_val c') * P) by nia. lia. }
    assert (digits_value 0 a = digits_value 0 b) as Er
      by (rewrite Ec in E; lia).
    f_equal.
    + rewrite <- (digit_char_val c Dc), <- (digit_char_val c' Dc').
      now rewrite Ec.
    + now apply IH.
Qed.

(** A run of [w] digits is what [pad w] writes for its value. *)
Lemma pad_of_digits (ds : str) :
  all_digits ds -> (1 <= List.length ds)%nat ->
  pad (List.length ds) (digits_value 0 ds) = ds.
Proof.
  intros D L. pose proof (digits_value_bounds ds D) as B.
  destruct (parse_digits_pad (List.length ds) (digits_value 0 ds) L B)
    as (Lp & Dp & Pp).
  apply digits_value_inj; auto.
  specialize (Pp []). rewrite <- Lp in Pp at 1.
  rewrite (parse_digits_value _ 0 [] Dp) in Pp. now injection Pp.
Qed.

(** X4. The template [YYYY-MM-DD] gives the first ten characters of the
    input, for every input that begins with its date in the form
    [YYYY-MM-DD], is parsed, and has a year written with four digits: the
    date is the one written in the input, in the input's own offset. *)
Theorem date_template_copies_the_date `{Host} (ts : str) (dt : datetime) :
  parse_timestamp ts = Returns dt ->
  begins_with_date ts = true ->
  four_digit_year dt ->
  convert_timestamp_format ts "YYYY-MM-DD" = Returns (firstn 10 ts).
Proof.
  intros P _ Y. unfold convert_timestamp_format, convert_body.
  rewrite P. cbn [bind].
  change (str_eqb "YYYY-MM-DD" "epoch_ms") with false.
  change (str_eqb "YYYY-MM-DD" "epoch_sec") with false.
  change (contains "nnnnnnnnn" "YYYY-MM-DD") with false.
  change (contains "Z" "YYYY-MM-DD") with false.
  cbv iota.
  change (_convert_readable_to_strftime "YYYY-MM-DD")
    with (list_ascii_of_string "%Y-%m-%d").
  destruct (parse_timestamp_date_part _ _ P)
    as (y0 & y1 & y2 & y3 & m0 & m1 & d0 & d1 & E & Dg & Ey & Em & Ed).
  assert (strftime dt "%Y-%m-%d"
          = pad 4 (year dt) ++ "-" ++ pad 2 (month dt) ++ "-"
            ++ pad 2 (day dt)) as ->.
  { cbn [list_ascii_of_string].
    repeat first [rewrite strftime_conversion by (cbn; tauto)
                 |rewrite strftime_ordinary by (split; discriminate)].
    unfold conversion, c_conversion. cbn [Ascii.eqb Bool.eqb].
    change (strftime dt []) with ([] : str). rewrite app_nil_r.
    rewrite year_text_four_digits; [reflexivity|exact Y|].
    pose proof (parse_timestamp_valid _ _ P) as V.
    unfold valid_datetime in V. tauto. }
  unfold all_digits in Dg.
  assert (all_digits [y0; y1; y2; y3] /\ all_digits [m0; m1]
          /\ all_digits [d0; d1]) as (Gy & Gm & Gd).
  { repeat match goal with
           | H : Forall _ (_ :: _) |- _ => inversion H; clear H; subst
           end.
    repeat split; repeat constructor; assumption. }
  rewrite Ey, Em, Ed, E.
  pose proof (pad_of_digits [y0; y1; y2; y3] Gy ltac:(cbn; lia)) as Py.
  pose proof (pad_of_digits [m0; m1] Gm ltac:(cbn; lia)) as Pm.
  pose proof (pad_of_digits [d0; d1] Gd ltac:(cbn; lia)) as Pd.
  cbn [List.length] in Py, Pm, Pd. rewrite Py, Pm, Pd.
  reflexivity.
Qed.

Lemma date_template_copies_the_date_witness :
  convert_timestamp_format (H := utc_host) "2025-11-01 23:30:00+09:00"
    "YYYY-MM-DD" = Returns ("2025-11-01" : str).
Proof.
  rewrite (date_template_copies_the_date (H := utc_host) _
             (mk_datetime 2025 11 1 23 30 0 0 (Some 32400000000)))
    by first [right; cbn; lia|vm_compute; reflexivity].
  reflexivity.
Defined.

(** X5. Converting the result of the template [YYYY-MM-DDTHH:MI:SSoffset]
    once more with the same template gives the same string, for every
    input with an offset of whole minutes and a year written with four
    digits. *)
Theorem offset_template_is_idempotent (H : Host) (ts : str) (dt : datetime)
        (off : Z) :
  parse_timestamp ts = Returns dt ->
  tzinfo dt = Some off ->
  off mod 60000000 = 0 ->
  four_digit_year dt ->
  exists out,
    convert_timestamp_format ts "YYYY-MM-DDTHH:MI:SSoffset" = Returns out
    /\ convert_timestamp_format out "YYYY-MM-DDTHH:MI:SSoffset"
       = Returns out.
Proof.
  intros P T M Y.
  pose proof (iso_offset_read_back dt off (parse_timestamp_valid _ _ P) T M Y)
    as R.
  eexists. split; [exact (convert_iso_offset ts dt P)|].
  rewrite (convert_iso_offset _ _ R). f_equal.
  rewrite !strftime_iso_offset. reflexivity.
Qed.

Lemma offset_template_is_idempotent_witness :
  exists out,
    convert_timestamp_format (H := utc_host)
      "2025-11-07T10:49:44.015204-08:00" "YYYY-MM-DDTHH:MI:SSoffset"
    = Returns out
    /\ convert_timestamp_format (H := utc_host) out
         "YYYY-MM-DDTHH:MI:SSoffset" = Returns out.
Proof.
  apply (offset_template_is_idempotent utc_host _
           (mk_datetime 2025 11 7 10 49 44 15204 (Some (-28800000000)))
           (-28800000000)).
  - vm_compute. reflexivity.
  - reflexivity.
  - reflexivity.
  - right. cbn. lia.
Defined.

(* ----------------------------------------------------------------- *)
(** ** The calendar: dates and ordinals correspond one to one *)


Lemma month_cases (m : Z) :
  1 <= m <= 12 ->
  m = 1 \/ m = 2 \/ m = 3 \/ m = 4 \/ m = 5 \/ m = 6 \/ m = 7 \/ m = 8
  \/ m = 9 \/ m = 10 \/ m = 11 \/ m = 12.
Proof. lia. Qed.

Ltac each_month H :=
  apply month_cases in H;
  repeat (destruct H as [H|H]; [subst|]); [..|subst].

Ltac month_tables :=
  cbv [nth Z.to_nat Pos.to_nat Pos.iter_op Init.Nat.add _DAYS_IN_MONTH
       _DAYS_BEFORE_MONTH Z.eqb Z.ltb Z.compare Pos.compare
       Pos.compare_cont Pos.eqb andb] in *.

Lemma month_and_day_valid (leapyear : bool) (n : Z) :
  0 <= n < 365 ->
  let '(m, d) := month_and_day leapyear n in
  1 <= m <= 12
  /\ 1 <= d <= nth (Z.to_nat m) _DAYS_IN_MONTH (-1)
               + (if (m =? 2) && leapyear then 1 else 0).
Proof.
  intros Hn.
  pose (check := fun leap n =>
          let '(m, d) := month_and_day leap n in
          (1 <=? m) && (m <=? 12) && (1 <=? d)
          && (d <=? nth (Z.to_nat m) _DAYS_IN_MONTH (-1)
                    + (if (m =? 2) && leap then 1 else 0))).
  assert (check leapyear n = true) as C.
  { destruct leapyear;
      apply (forall_guarded 9 365 (check _)); try assumption;
      vm_compute; try reflexivity; discriminate. }
  unfold check in C. destruct (month_and_day leapyear n) as [m d].
  repeat (apply andb_prop in C as [C ?]).
  repeat match goal with
         | H : (_ <=? _) = true |- _ => apply Z.leb_le in H
         end.
  lia.
Qed.

Lemma days_in_month_eq (y m : Z) :
  1 <= m <= 12 ->
  _days_in_month y m
  = nth (Z.to_nat m) _DAYS_IN_MONTH (-1)
    + (if (m =? 2) && _is_leap y then 1 else 0).
Proof.
  intros Hm. unfold _days_in_month.
  destruct (m =? 2) eqn:E; cbn [andb]; [|lia].
  apply Z.eqb_eq in E. subst. destruct (_is_leap y); reflexivity.
Qed.

(** Within the first 400 years, the date of an ordinal is a date of the
    calendar. *)
Lemma ord2ymd_cycle_valid (r : Z) :
  0 <= r < _DI400Y ->
  let '(y, m, d) := _ord2ymd (r + 1) in
  1 <= m <= 12 /\ 1 <= d <= _days_in_month y m.
Proof.
  change _DI400Y with 146097. intros Hr.
  unfold _ord2ymd. cbv zeta.
  change _DI400Y with 146097. change _DI100Y with 36524.
  change _DI4Y with 1461.
  replace (r + 1 - 1) with r by lia.
  rewrite (Z.mod_small r 146097), (Z.div_small r 146097) by lia.
  set (n100 := r / 36524). set (r1 := r mod 36524).
  set (n4 := r1 / 1461). set (r2 := r1 mod 1461).
  set (n1 := r2 / 365). set (r3 := r2 mod 365).
  assert (r = 36524 * n100 + 1461 * n4 + 365 * n1 + r3
          /\ 0 <= n100 <= 4 /\ 0 <= n4 <= 24 /\ 0 <= n1 <= 4
          /\ 0 <= r3 < 365 /\ (n1 = 4 -> r3 = 0 /\ n4 <= 23 /\ n100 <= 3)
          /\ (n100 = 4 -> n4 = 0 /\ n1 = 0 /\ r3 = 0)) as D.
  { subst n100 r1 n4 r2 n1 r3. Z.div_mod_to_equations. lia. }
  clearbody n100 r1 n4 r2 n1 r3.
  destruct D as (Er & B100 & B4 & B1 & B3 & S1 & S100).
  destruct ((n1 =? 4) || (n100 =? 4)) eqn:Sp.
  - split; [lia|]. rewrite days_in_month_eq by lia.
    change (nth (Z.to_nat 12) _DAYS_IN_MONTH (-1)) with 31.
    change (12 =? 2) with false. cbn [andb]. lia.
  - apply orb_false_elim in Sp as [Sp1 Sp100].
    apply Z.eqb_neq in Sp1, Sp100.
    set (i := 100 * n100 + 4 * n4 + n1).
    replace (0 * 400 + 1 + n100 * 100 + n4 * 4 + n1) with (i + 1)
      by (subst i; lia).
    assert (0 <= i < 400 /\ i / 100 = n100 /\ i mod 100 / 4 = n4
            /\ i mod 4 = n1) as (Bi & I100 & I4 & I1).
    { subst i. Z.div_mod_to_equations. lia. }
    destruct (year_in_cycle i Bi) as [Y L].
    rewrite I100, I4, I1 in Y, L.
    set (leapyear := (n1 =? 3) && (negb (n4 =? 24) || (n100 =? 3))) in *.
    pose proof (month_and_day_valid leapyear r3 B3) as M.
    unfold month_and_day in M. cbv zeta in M.
    match goal with
    | |- context [if r3 <? ?p then _ else _] => destruct (r3 <? p)
    end; destruct M as [M1 M2]; (split; [exact M1|]);
      rewrite days_in_month_eq, L by exact M1; exact M2.
Qed.

Lemma ord2ymd_valid (n : Z) :
  let '(y, m, d) := _ord2ymd n in
  1 <= m <= 12 /\ 1 <= d <= _days_in_month y m.
Proof.
  rewrite ord2ymd_period.
  assert (0 <= (n - 1) mod _DI400Y < _DI400Y) as Hr
    by (apply Z.mod_pos_bound; reflexivity).
  pose proof (ord2ymd_cycle_valid _ Hr) as C.
  destruct (_ord2ymd ((n - 1) mod _DI400Y + 1)) as [[y m] d].
  destruct C as [C1 C2]. split; [exact C1|].
  unfold _days_in_month in *. now rewrite is_leap_period.
Qed.

Lemma days_before_next_year (y : Z) :
  _days_before_year (y + 1) = _days_before_year y + days_in_year y.
Proof.
  unfold _days_before_year, days_in_year, _is_leap. cbv zeta.
  replace (y + 1 - 1) with y by lia.
  destruct (y mod 4 =? 0) eqn:E4; destruct (y mod 100 =? 0) eqn:E100;
    destruct (y mod 400 =? 0) eqn:E400; cbn [andb orb negb];
    repeat match goal with
           | H : (_ =? _) = true |- _ => apply Z.eqb_eq in H
           | H : (_ =? _) = false |- _ => apply Z.eqb_neq in H
           end;
    Z.div_mod_to_equations; lia.
Qed.

Lemma days_before_year_monotone (y y' : Z) :
  y <= y' -> _days_before_year y <= _days_before_year y'.
Proof.
  intros H. unfold _days_before_year. cbv zeta.
  Z.div_mod_to_equations. lia.
Qed.

(** The day of the year of a date of the calendar. *)
Lemma day_of_year_bounds (y m d : Z) :
  1 <= m <= 12 -> 1 <= d <= _days_in_month y m ->
  1 <= _days_before_month y m + d <= days_in_year y.
Proof.
  intros Hm Hd. rewrite days_in_month_eq in Hd by exact Hm.
  unfold _days_before_month, days_in_year.
  set (leap := _is_leap y) in *. clearbody leap.
  each_month Hm; month_tables; destruct leap; lia.
Qed.

Lemma day_of_year_inj (y m d m' d' : Z) :
  1 <= m <= 12 -> 1 <= d <= _days_in_month y m ->
  1 <= m' <= 12 -> 1 <= d' <= _days_in_month y m' ->
  _days_before_month y m + d = _days_before_month y m' + d' ->
  m = m' /\ d = d'.
Proof.
  intros Hm Hd Hm' Hd' E.
  rewrite days_in_month_eq in Hd, Hd' by assumption.
  unfold _days_before_month in E.
  set (leap := _is_leap y) in *. clearbody leap.
  each_month Hm; each_month Hm'; month_tables; destruct leap; lia.
Qed.

Lemma ymd2ord_inj (y m d y' m' d' : Z) :
  1 <= m <= 12 -> 1 <= d <= _days_in_month y m ->
  1 <= m' <= 12 -> 1 <= d' <= _days_in_month y' m' ->
  _ymd2ord y m d = _ymd2ord y' m' d' ->
  y = y' /\ m = m' /\ d = d'.
Proof.
  intros Hm Hd Hm' Hd' E. unfold _ymd2ord in E.
  pose proof (day_of_year_bounds y m d Hm Hd) as B.
  pose proof (day_of_year_bounds y' m' d' Hm' Hd') as B'.
  pose proof (days_before_next_year y) as N.
  pose proof (days_before_next_year y') as N'.
  assert (y = y') as <-.
  { destruct (Z.lt_trichotomy y y') as [L|[L|L]]; [exfalso|exact L|exfalso].
    - pose proof (days_before_year_monotone (y + 1) y' ltac:(lia)). lia.
    - pose proof (days_before_year_monotone (y' + 1) y ltac:(lia)). lia. }
  split; [reflexivity|].
  apply (day_of_year_inj y); auto. lia.
Qed.

(** The ordinal of a date of the calendar has that date. *)
Lemma ord2ymd_ymd2ord (y m d : Z) :
  1 <= m <= 12 -> 1 <= d <= _days_in_month y m ->
  _ord2ymd (_ymd2ord y m d) = (y, m, d).
Proof.
  intros Hm Hd.
  pose proof (ymd2ord_ord2ymd (_ymd2ord y m d)) as R.
  pose proof (ord2ymd_valid (_ymd2ord y m d)) as V.
  destruct (_ord2ymd (_ymd2ord y m d)) as [[y' m'] d'].
  destruct V as [V1 V2].
  destruct (ymd2ord_inj _ _ _ _ _ _ V1 V2 Hm Hd R) as (-> & -> & ->).
  reflexivity.
Qed.

Lemma ymd2ord_bounds (y m d : Z) :
  1 <= y <= 9999 -> 1 <= m <= 12 -> 1 <= d <= _days_in_month y m ->
  1 <= _ymd2ord y m d <= _MAXORDINAL.
Proof.
  intros Hy Hm Hd. unfold _ymd2ord.
  pose proof (day_of_year_bounds y m d Hm Hd) as B.
  pose proof (days_before_next_year y) as N.
  pose proof (days_before_year_monotone 1 y ltac:(lia)) as L.
  pose proof (days_before_year_monotone (y + 1) 10000 ltac:(lia)) as U.
  change (_days_before_year 1) with 0 in L.
  change (_days_before_year 10000) with 3652059 in U.
  change _MAXORDINAL with 3652059. lia.
Qed.

(** Adding nothing to a value of the calendar gives the value. *)
Lemma add_micros_zero (dt : datetime) :
  valid_datetime dt -> add_micros dt 0 = Returns dt.
Proof.
  intros V. destruct dt as [y mo d h mi s us tz].
  unfold valid_datetime in V. cbn in V.
  destruct V as (Vy & Vmo & Vd & Vh & Vmi & Vs & Vus & _).
  pose proof (ymd2ord_bounds y mo d Vy Vmo Vd) as B.
  unfold add_micros. cbv zeta. rewrite Z.add_0_r.
  unfold wall_micros, wall_seconds.
  cbn [year month day hour minute second microsecond tzinfo].
  set (o := _ymd2ord y mo d) in *.
  assert (((o * 86400 + h * 3600 + mi * 60 + s) * 1000000 + us)
            / 86400000000 = o
          /\ ((o * 86400 + h * 3600 + mi * 60 + s) * 1000000 + us)
               mod 86400000000
             = (h * 3600 + mi * 60 + s) * 1000000 + us) as [-> ->].
  { Z.div_mod_to_equations. lia. }
  replace ((0 <? o) && (o <=? _MAXORDINAL)) with true
    by (symmetry; apply andb_true_intro; split;
        [apply Z.ltb_lt|apply Z.leb_le]; lia).
  subst o. rewrite ord2ymd_ymd2ord by assumption.
  f_equal.
  assert (((h * 3600 + mi * 60 + s) * 1000000 + us) / 1000000
          = h * 3600 + mi * 60 + s
          /\ ((h * 3600 + mi * 60 + s) * 1000000 + us) mod 1000000 = us)
    as [-> ->] by (Z.div_mod_to_equations; lia).
  assert ((h * 3600 + mi * 60 + s) / 3600 = h
          /\ (h * 3600 + mi * 60 + s) mod 3600 / 60 = mi
          /\ (h * 3600 + mi * 60 + s) mod 60 = s) as (-> & -> & ->)
    by (Z.div_mod_to_equations; lia).
  reflexivity.
Qed.

(** The result of a shift depends on the two arguments through the wall
    clock that is reached. *)
Lemma add_micros_same_total (dt1 dt2 : datetime) (d1 d2 : Z)
      (tz : option Z) :
  wall_micros dt1 + d1 = wall_micros dt2 + d2 ->
  (u <- add_micros dt1 d1 ;; Returns (replace_tzinfo u tz))
  = (u <- add_micros dt2 d2 ;; Returns (replace_tzinfo u tz)).
Proof.
  intros E. unfold add_micros. cbv zeta. rewrite E.
  destruct ((0 <? _) && (_ <=? _MAXORDINAL)); [|reflexivity].
  destruct (_ord2ymd _) as [[y m] d]. cbn [bind]. unfold replace_tzinfo.
  cbn [year month day hour minute second microsecond]. reflexivity.
Qed.

(** [astimezone(timezone.utc)] of a value with an offset: the shift by the
    offset, also when the offset is zero. *)
Lemma astimezone_utc_aware `{Host} (dt : datetime) (off : Z) :
  valid_datetime dt -> tzinfo dt = Some off ->
  astimezone_utc dt
  = (u <- add_micros dt (- off) ;; Returns (replace_tzinfo u (Some 0))).
Proof.
  intros V T. unfold astimezone_utc. rewrite T.
  destruct off as [|p|p]; try reflexivity.
  cbn [Z.opp]. rewrite add_micros_zero by exact V. cbn [bind].
  destruct dt as [y mo d h mi s us tz]. cbn in T. subst tz. reflexivity.
Qed.

(** Whether the shift to UTC stays within the years 1 to 9999. *)
Lemma add_micros_returns (dt : datetime) (delta : Z) :
  (exists u, add_micros dt delta = Returns u)
  <-> 86400000000 <= wall_micros dt + delta
      < (_MAXORDINAL + 1) * 86400000000.
Proof.
  unfold add_micros. cbv zeta. set (total := wall_micros dt + delta).
  change _MAXORDINAL with 3652059.
  destruct ((0 <? total / 86400000000)
            && (total / 86400000000 <=? 3652059)) eqn:E.
  - apply andb_prop in E as [E1 E2].
    apply Z.ltb_lt in E1. apply Z.leb_le in E2.
    split.
    + intros _. Z.div_mod_to_equations. lia.
    + intros _. destruct (_ord2ymd _) as [[y m] d]. eauto.
  - split; [intros [u Hu]; discriminate|].
    intros B. exfalso.
    apply andb_false_iff in E as [E|E];
      [apply Z.ltb_ge in E|apply Z.leb_gt in E];
      Z.div_mod_to_equations; lia.
Qed.

Lemma add_micros_raises (dt : datetime) (delta : Z) (e : exn) :
  add_micros dt delta = Raises e ->
  e = mk_exn OverflowError "date value out of range".
Proof.
  unfold add_micros. cbv zeta.
  destruct ((0 <? _) && (_ <=? _MAXORDINAL)).
  - destruct (_ord2ymd _) as [[y m] d]. discriminate.
  - now intros [= <-].
Qed.

(* ----------------------------------------------------------------- *)
(** ** The UTC marker (lines 104-109 and 125-130) *)

(** With [Z] in the format and a value with an offset, the converter needs
    the UTC value and nothing else of [astimezone]. *)
Lemma convert_utc_marker `{Host} (ts target_format : str) (dt : datetime) :
  parse_timestamp ts = Returns dt ->
  contains "Z" target_format = true ->
  convert_body ts target_format
  = (u <- astimezone_utc dt ;;
     let text :=
       strftime (replace_tzinfo u None)
         (_convert_readable_to_strftime
            (replace "Z" ""
               (replace "nnnnnnnnn" "{NANOS}" target_format))) ++ "Z" in
     Returns (if contains "nnnnnnnnn" target_format
              then replace "{NANOS}" (nanos_str dt) text else text)).
Proof.
  intros P Hz. unfold convert_body. rewrite P. cbn [bind].
  rewrite (contains_not_name "Z" target_format "epoch_ms")
    by (exact Hz || reflexivity).
  rewrite (contains_not_name "Z" target_format "epoch_sec")
    by (exact Hz || reflexivity).
  rewrite Hz.
  destruct (contains "nnnnnnnnn" target_format) eqn:Hn.
  - destruct (astimezone_utc dt); reflexivity.
  - rewrite (replace_absent "nnnnnnnnn") by (discriminate || exact Hn).
    destruct (astimezone_utc dt); reflexivity.
Qed.

(** Two values of the calendar that denote the same instant have the same
    UTC value. *)
Lemma same_instant_same_utc `{Host} (dt1 dt2 : datetime) (i : Z) :
  valid_datetime dt1 -> valid_datetime dt2 ->
  instant dt1 = Some i -> instant dt2 = Some i ->
  astimezone_utc dt1 = astimezone_utc dt2.
Proof.
  intros V1 V2 I1 I2. unfold instant in I1, I2.
  destruct (tzinfo dt1) as [off1|] eqn:T1; [|discriminate].
  destruct (tzinfo dt2) as [off2|] eqn:T2; [|discriminate].
  injection I1 as I1. injection I2 as I2.
  assert (wall_micros dt1 + - off1 = wall_micros dt2 + - off2) as X.
  { revert I1 I2. unfold utc_micros.
    generalize (wall_micros dt1) (wall_micros dt2) epoch_seconds.
    intros. lia. }
  etransitivity; [exact (astimezone_utc_aware dt1 off1 V1 T1)|].
  etransitivity;
    [exact (add_micros_same_total dt1 dt2 (- off1) (- off2) (Some 0) X)|].
  symmetry. exact (astimezone_utc_aware dt2 off2 V2 T2).
Qed.

(** X7. With [Z] and without [nnnnnnnnn] in the target format, two inputs
    that denote the same instant give the same result, whatever their
    offsets. *)
Theorem utc_marker_depends_on_the_instant (H : Host)
        (ts1 ts2 target_format : str) (dt1 dt2 : datetime) (i : Z) :
  parse_timestamp ts1 = Returns dt1 ->
  parse_timestamp ts2 = Returns dt2 ->
  instant dt1 = Some i -> instant dt2 = Some i ->
  contains "Z" target_format = true ->
  contains "nnnnnnnnn" target_format = false ->
  convert_timestamp_format ts1 target_format
  = convert_timestamp_format ts2 target_format.
Proof.
  intros P1 P2 I1 I2 Hz Hn.
  unfold convert_timestamp_format.
  rewrite (convert_utc_marker ts1 _ dt1 P1 Hz).
  rewrite (convert_utc_marker ts2 _ dt2 P2 Hz).
  rewrite Hn.
  rewrite (same_instant_same_utc dt1 dt2 i
             (parse_timestamp_valid _ _ P1) (parse_timestamp_valid _ _ P2)
             I1 I2).
  reflexivity.
Qed.

Lemma utc_marker_depends_on_the_instant_witness :
  convert_timestamp_format (H := utc_host) "2025-11-01T00:00:00-08:00"
    "YYYY-MM-DD HH:MI:SSZ"
  = convert_timestamp_format (H := utc_host) "2025-11-01T13:30:00+05:30"
      "YYYY-MM-DD HH:MI:SSZ".
Proof.
  apply (utc_marker_depends_on_the_instant utc_host _ _ _
           (mk_datetime 2025 11 1 0 0 0 0 (Some (-28800000000)))
           (mk_datetime 2025 11 1 13 30 0 0 (Some 19800000000))
           1761984000000000);
    vm_compute; reflexivity.
Defined.

(** X8. With [Z] in the target format and an input with an offset, the
    conversion returns exactly when the instant lies between
    0001-01-01T00:00:00 and 9999-12-31T23:59:59.999999 UTC (in seconds from
    the epoch: from -62135596800 to below 253402300800); otherwise the
    [OverflowError] of [astimezone] is raised again with the prefix of line
    139. *)
Theorem utc_marker_range (H : Host) (ts target_format : str)
        (dt : datetime) (off : Z) :
  parse_timestamp ts = Returns dt ->
  tzinfo dt = Some off ->
  contains "Z" target_format = true ->
  if (-62135596800000000 <=? utc_micros dt off)
     && (utc_micros dt off <? 253402300800000000)
  then exists out, convert_timestamp_format ts target_format = Returns out
  else convert_timestamp_format ts target_format
       = Raises (mk_exn Exception
                   "Error converting timestamp: date value out of range").
Proof.
  intros P T Hz. unfold convert_timestamp_format.
  rewrite (convert_utc_marker ts _ dt P Hz).
  rewrite (astimezone_utc_aware dt off (parse_timestamp_valid _ _ P) T).
  pose proof (add_micros_returns dt (- off)) as R.
  change _MAXORDINAL with 3652059 in R.
  unfold utc_micros. change epoch_seconds with 62135683200.
  destruct (add_micros dt (- off)) as [u|e] eqn:A.
  - destruct R as [R _]. specialize (R (ex_intro _ u eq_refl)).
    replace ((-62135596800000000
              <=? wall_micros dt - 62135683200 * 1000000 - off)
             && (wall_micros dt - 62135683200 * 1000000 - off
                 <? 253402300800000000)) with true
      by (symmetry; apply andb_true_intro; split;
          [apply Z.leb_le|apply Z.ltb_lt]; lia).
    cbn [bind]. eauto.
  - apply add_micros_raises in A as E. subst e.
    replace ((-62135596800000000
              <=? wall_micros dt - 62135683200 * 1000000 - off)
             && (wall_micros dt - 62135683200 * 1000000 - off
                 <? 253402300800000000)) with false; [reflexivity|].
    symmetry. apply not_true_is_false. intros B.
    apply andb_prop in B as [B1 B2].
    apply Z.leb_le in B1. apply Z.ltb_lt in B2.
    destruct R as [_ R]. destruct R as [u Hu]; [lia|discriminate].
Qed.

Lemma utc_marker_range_witness :
  convert_timestamp_format (H := utc_host) "0001-01-01T00:30:00+01:00"
    "YYYY-MM-DDTHH:MI:SSZ"
  = Raises (mk_exn Exception
              "Error converting timestamp: date value out of range").
Proof.
  exact (utc_marker_range utc_host "0001-01-01T00:30:00+01:00"
           "YYYY-MM-DDTHH:MI:SSZ"
           (mk_datetime 1 1 1 0 30 0 0 (Some 3600000000)) 3600000000
           eq_refl eq_refl eq_refl).
Defined.

(* ----------------------------------------------------------------- *)
(** ** Signs through binary64 rounding *)

Lemma shr_1_nonneg (mrs : shr_record) :
  0 <= shr_m mrs -> 0 <= shr_m (shr_1 mrs).
Proof.
  destruct mrs as [m r s]. cbn [shr_m]. intros Hm.
  destruct m as [|[p|p|]|p]; cbn; lia.
Qed.

Lemma iter_shr_1_nonneg (p : positive) :
  forall mrs, 0 <= shr_m mrs -> 0 <= shr_m (iter_pos shr_1 p mrs).
Proof.
  induction p as [p IH|p IH|]; intros mrs Hm; cbn [iter_pos].
  - apply IH, IH, shr_1_nonneg, Hm.
  - apply IH, IH, Hm.
  - apply shr_1_nonneg, Hm.
Qed.

Lemma shr_fexp_nonneg (m e : Z) (l : location) :
  0 <= m -> 0 <= shr_m (fst (shr_fexp prec emax m e l)).
Proof.
  intros Hm. unfold shr_fexp, shr.
  assert (0 <= shr_m (shr_record_of_loc m l)) as H0
    by (destruct l as [|[| |]]; exact Hm).
  destruct (fexp prec emax (Zdigits2 m + e) - e) as [|p|p]; cbn [fst];
    auto using iter_shr_1_nonneg.
Qed.

Lemma round_nearest_even_nonneg (m : Z) (l : location) :
  0 <= m -> 0 <= round_nearest_even m l.
Proof.
  intros Hm. destruct l as [|[| |]]; cbn [round_nearest_even]; try lia.
  destruct (Z.even m); lia.
Qed.

(** Rounding a non-negative mantissa gives a zero, a finite number or an
    infinity of the given sign. *)
Lemma binary_round_aux_sign (s : bool) (m e : Z) (l : location) :
  0 <= m -> sign_of (binary_round_aux prec emax s m e l) = Some s.
Proof.
  intros Hm. unfold binary_round_aux.
  pose proof (shr_fexp_nonneg m e l Hm) as H1.
  destruct (shr_fexp prec emax m e l) as [mrs' e'] eqn:E1. cbn [fst] in H1.
  pose proof (shr_fexp_nonneg
                (round_nearest_even (shr_m mrs') (loc_of_shr_record mrs'))
                e' loc_Exact (round_nearest_even_nonneg _ _ H1)) as H2.
  destruct (shr_fexp prec emax _ e' loc_Exact) as [mrs'' e''].
  cbn [fst] in H2.
  destruct (shr_m mrs'') as [|p|p]; [reflexivity| |lia].
  destruct (e'' <=? emax - prec); reflexivity.
Qed.

Lemma binary_round_aux_opp (s : bool) (m e : Z) (l : location) :
  binary_round_aux prec emax (negb s) m e l
  = SFopp (binary_round_aux prec emax s m e l).
Proof.
  unfold binary_round_aux.
  destruct (shr_fexp prec emax m e l) as [mrs' e'].
  destruct (shr_fexp prec emax _ e' loc_Exact) as [mrs'' e''].
  destruct (shr_m mrs'') as [|p|p]; try reflexivity.
  destruct (e'' <=? emax - prec); reflexivity.
Qed.

Lemma float_of_Z_sign (z : Z) :
  z <> 0 -> sign_of (float_of_Z z) = Some (z <? 0).
Proof.
  intros Hz. unfold float_of_Z, binary_normalize, binary_round.
  destruct z as [|p|p]; [congruence| |];
    destruct (shl_align p 0 _) as [mz ez];
    now rewrite binary_round_aux_sign.
Qed.

Lemma float_of_Z_opp (z : Z) :
  z <> 0 -> float_of_Z (- z) = SFopp (float_of_Z z).
Proof.
  intros Hz. unfold float_of_Z, binary_normalize, binary_round.
  destruct z as [|p|p]; [congruence| |]; cbn [Z.opp];
    destruct (shl_align p 0 _) as [mz ez].
  - exact (binary_round_aux_opp false _ _ _).
  - exact (binary_round_aux_opp true _ _ _).
Qed.

Lemma fdiv_sign (x : float) (sx s : bool) (m : positive) (e : Z) :
  sign_of x = Some sx ->
  sign_of (fdiv x (S754_finite s m e)) = Some (xorb sx s).
Proof.
  destruct x as [s'|s'| |s' m' e']; cbn [sign_of]; intros [= <-];
    try reflexivity.
  unfold fdiv, SFdiv.
  destruct (SFdiv_core_binary prec emax (Z.pos m') e' (Z.pos m) e)
    as [[mz ez] lz] eqn:E.
  apply binary_round_aux_sign.
  unfold SFdiv_core_binary in E. cbv zeta in E.
  match type of E with
  | (let '(q, r) := Z.div_eucl ?a ?b in _) = _ =>
      assert (0 <= a) as Ha;
      [|pose proof (Z.div_pos a b Ha ltac:(lia)) as Hq;
        unfold Z.div in Hq; destruct (Z.div_eucl a b) as [q r];
        injection E as <- _ _; exact Hq]
  end.
  destruct (e' - e - _) as [|p|p]; try lia.
  apply Z.shiftl_nonneg. lia.
Qed.

Lemma fdiv_opp (x y : float) : fdiv (SFopp x) y = SFopp (fdiv x y).
Proof.
  destruct x as [sx|sx| |sx mx ex], y as [sy|sy| |sy my ey];
    cbn [fdiv SFdiv SFopp]; try reflexivity;
    try (now destruct sx, sy).
  unfold fdiv, SFdiv. cbn [SFopp].
  destruct (SFdiv_core_binary _ _ _ _ _ _) as [[mz ez] lz].
  rewrite <- binary_round_aux_opp. now destruct sx, sy.
Qed.

(** The [.2f] rendering is the sign followed by the rendering of the
    magnitude. *)
Lemma format_2f_sign (x : float) (s : bool) :
  sign_of x = Some s -> format_2f x = sign_str s ++ format_2f (SFabs x).
Proof.
  destruct x as [s'|s'| |s' m e]; cbn [sign_of]; intros [= <-]; reflexivity.
Qed.

Lemma sign_of_opp (x : float) (s : bool) :
  sign_of x = Some s -> sign_of (SFopp x) = Some (negb s).
Proof. destruct x; cbn; congruence. Qed.

Lemma SFabs_opp (x : float) : SFabs (SFopp x) = SFabs x.
Proof. now destruct x. Qed.

(* ----------------------------------------------------------------- *)
(** ** Exact results of binary64 operations *)

Lemma digits2_size (p : positive) : digits2_pos p = Pos.size p.
Proof. induction p as [p IH|p IH|]; cbn; now rewrite ?IH. Qed.

Lemma digits2_log2 (p : positive) :
  Z.pos (digits2_pos p) = Z.log2 (Z.pos p) + 1.
Proof.
  rewrite digits2_size.
  destruct p as [p|p|]; cbn [Pos.size Z.log2]; try reflexivity;
    now rewrite Pos2Z.inj_succ.
Qed.

Lemma Zdigits2_log2 (m : Z) : 0 < m -> Zdigits2 m = Z.log2 m + 1.
Proof. destruct m as [|p|p]; try lia. intros _. apply digits2_log2. Qed.

Lemma fexp_normal (x : Z) : -1021 <= x -> fexp prec emax x = x - 53.
Proof. unfold fexp, emin, prec, emax. lia. Qed.

Lemma shr_1_exact (m : Z) :
  0 < m ->
  shr_1 {| shr_m := m * 2; shr_r := false; shr_s := false |}
  = {| shr_m := m; shr_r := false; shr_s := false |}.
Proof.
  destruct m as [|p|p]; try lia. intros _.
  rewrite Z.mul_comm. reflexivity.
Qed.

Lemma iter_shr_1_exact (n : positive) :
  forall m, 0 < m ->
    iter_pos shr_1 n
      {| shr_m := m * 2 ^ Z.pos n; shr_r := false; shr_s := false |}
    = {| shr_m := m; shr_r := false; shr_s := false |}.
Proof.
  induction n as [n IH|n IH|]; intros m Hm; cbn [iter_pos].
  - replace (m * 2 ^ Z.pos n~1)
      with (m * 2 ^ Z.pos n * 2 ^ Z.pos n * 2)
      by (replace (Z.pos n~1) with (Z.pos n + Z.pos n + 1) by lia;
          rewrite !Z.pow_add_r by lia; change (2 ^ 1) with 2; ring).
    assert (0 < 2 ^ Z.pos n) as P by (apply Z.pow_pos_nonneg; lia).
    rewrite shr_1_exact by nia. rewrite IH by nia. now apply IH.
  - replace (m * 2 ^ Z.pos n~0) with (m * 2 ^ Z.pos n * 2 ^ Z.pos n)
      by (replace (Z.pos n~0) with (Z.pos n + Z.pos n) by lia;
          rewrite Z.pow_add_r by lia; ring).
    assert (0 < 2 ^ Z.pos n) as P by (apply Z.pow_pos_nonneg; lia).
    rewrite IH by nia. now apply IH.
  - change (2 ^ 1) with 2. now apply shr_1_exact.
Qed.

(** Shifting out [n] zero bits loses nothing. *)
Lemma shr_exact (m e n : Z) :
  0 < m -> 0 <= n ->
  shr {| shr_m := m * 2 ^ n; shr_r := false; shr_s := false |} e n
  = ({| shr_m := m; shr_r := false; shr_s := false |}, e + n).
Proof.
  intros Hm Hn. destruct n as [|p|p]; try lia; cbn [shr].
  - now rewrite Z.mul_1_r, Z.add_0_r.
  - now rewrite iter_shr_1_exact.
Qed.

(** Rounding an integer of at most 53 bits, given with at least 53 bits of
    mantissa: the result is its double. *)
Lemma binary_round_aux_exact (s : bool) (k j : Z) :
  0 < k < 2 ^ 53 -> 52 - Z.log2 k <= j ->
  binary_round_aux prec emax s (k * 2 ^ j) (- j) loc_Exact
  = normal_double s k.
Proof.
  intros Hk Hj.
  assert (0 <= Z.log2 k <= 52) as HL.
  { split; [apply Z.log2_nonneg|].
    assert (Z.log2 k < 53) by (apply Z.log2_lt_pow2; lia). lia. }
  set (t := 52 - Z.log2 k). set (n := j - t).
  assert (0 <= t <= 52 /\ 0 <= n /\ j = t + n) as (Ht & Hn & Ej)
    by (subst t n; lia).
  set (M0 := k * 2 ^ t).
  assert (0 < 2 ^ t) as Pt by (apply Z.pow_pos_nonneg; lia).
  assert (0 < M0) as HM by (subst M0; nia).
  assert (Z.log2 M0 = 52) as LM
    by (subst M0; rewrite Z.log2_mul_pow2 by lia; subst t; lia).
  assert (k * 2 ^ j = M0 * 2 ^ n) as EM
    by (subst M0; rewrite Ej, Z.pow_add_r by lia; ring).
  assert (0 < 2 ^ n) as Pn by (apply Z.pow_pos_nonneg; lia).
  unfold binary_round_aux.
  assert (shr_fexp prec emax (k * 2 ^ j) (- j) loc_Exact
          = ({| shr_m := M0; shr_r := false; shr_s := false |}, - t)) as ->.
  { unfold shr_fexp. rewrite EM at 1 2.
    rewrite Zdigits2_log2, Z.log2_mul_pow2, LM by nia.
    rewrite fexp_normal by lia. cbn [shr_record_of_loc].
    replace (n + 52 + 1 + - j - 53 - - j) with n by lia.
    rewrite shr_exact by lia. f_equal. lia. }
  cbn [shr_m loc_of_shr_record round_nearest_even].
  assert (shr_fexp prec emax M0 (- t) loc_Exact
          = ({| shr_m := M0; shr_r := false; shr_s := false |}, - t)) as ->.
  { unfold shr_fexp. rewrite Zdigits2_log2, LM by lia.
    rewrite fexp_normal by lia. cbn [shr_record_of_loc].
    replace (52 + 1 + - t - 53 - - t) with 0 by lia. reflexivity. }
  cbn [shr_m]. unfold normal_double. fold t. fold M0.
  destruct M0 as [|p|p]; try lia.
  replace (- t <=? emax - prec) with true
    by (symmetry; apply Z.leb_le; unfold emax, prec; lia).
  cbn [Z.to_pos]. f_equal. subst t. lia.
Qed.

Lemma iter_xO (p d : positive) :
  Z.pos (Pos.iter xO p d) = Z.pos p * 2 ^ Z.pos d.
Proof.
  induction d as [|d IH] using Pos.peano_ind.
  - cbn [Pos.iter]. change (2 ^ 1) with 2. lia.
  - rewrite Pos.iter_succ, Pos2Z.inj_xO, IH, Pos2Z.inj_succ, Z.pow_succ_r
      by lia. ring.
Qed.

(** The double of an integer below [2^53] in magnitude. *)
Lemma float_of_Z_normal (k : Z) :
  0 < k < 2 ^ 53 ->
  float_of_Z k = normal_double false k
  /\ float_of_Z (- k) = normal_double true k.
Proof.
  intros Hk.
  assert (float_of_Z k = normal_double false k) as E.
  { assert (0 <= Z.log2 k <= 52) as HL.
    { split; [apply Z.log2_nonneg|].
      assert (Z.log2 k < 53) by (apply Z.log2_lt_pow2; lia). lia. }
    destruct k as [|p|p]; try lia.
    unfold float_of_Z, binary_normalize, binary_round.
    rewrite digits2_log2, fexp_normal by lia.
    unfold shl_align.
    destruct (Z.log2 (Z.pos p) + 1 + 0 - 53 - 0) as [|d|d] eqn:D; try lia.
    - rewrite <- (binary_round_aux_exact false (Z.pos p) 0) by lia.
      now rewrite Z.mul_1_r.
    - rewrite iter_xO.
      rewrite <- (binary_round_aux_exact false (Z.pos p) (Z.pos d)) by lia.
      do 2 f_equal. lia. }
  split; [exact E|].
  rewrite float_of_Z_opp by lia. now rewrite E.
Qed.

(** [int(x)] for the double of an integer. *)
Lemma int_of_float_normal (s : bool) (k : Z) :
  0 < k < 2 ^ 53 ->
  int_of_float (normal_double s k) = Returns (if s then - k else k).
Proof.
  intros Hk.
  assert (0 <= Z.log2 k <= 52) as HL.
  { split; [apply Z.log2_nonneg|].
    assert (Z.log2 k < 53) by (apply Z.log2_lt_pow2; lia). lia. }
  unfold normal_double, int_of_float.
  assert (0 < 2 ^ (52 - Z.log2 k)) as P by (apply Z.pow_pos_nonneg; lia).
  rewrite Z2Pos.id by nia.
  destruct (0 <=? Z.log2 k - 52) eqn:E.
  - apply Z.leb_le in E. replace (Z.log2 k) with 52 by lia.
    cbn [Z.sub Z.opp Z.add Z.pos_sub Z.pow Z.pow_pos Pos.iter].
    now rewrite !Z.mul_1_r.
  - replace (- (Z.log2 k - 52)) with (52 - Z.log2 k) by lia.
    rewrite Z.div_mul by lia. reflexivity.
Qed.

(** The product of the doubles of two integers whose product is below
    [2^53] is the double of the product. *)
Lemma fmul_normal (sa sb : bool) (a b : Z) :
  0 < a -> 0 < b -> a * b < 2 ^ 53 ->
  fmul (normal_double sa a) (normal_double sb b)
  = normal_double (xorb sa sb) (a * b).
Proof.
  intros Ha Hb Hab.
  assert (0 <= Z.log2 a /\ 0 <= Z.log2 b) as [La Lb]
    by (split; apply Z.log2_nonneg).
  pose proof (Z.log2_mul_below a b Ha Hb) as LB.
  assert (Z.log2 (a * b) < 53) as LU by (apply Z.log2_lt_pow2; nia).
  unfold fmul, normal_double, SFmul.
  assert (0 < 2 ^ (52 - Z.log2 a)) as Pa by (apply Z.pow_pos_nonneg; lia).
  assert (0 < 2 ^ (52 - Z.log2 b)) as Pb by (apply Z.pow_pos_nonneg; lia).
  rewrite Pos2Z.inj_mul, !Z2Pos.id by nia.
  replace (a * 2 ^ (52 - Z.log2 a) * (b * 2 ^ (52 - Z.log2 b)))
    with (a * b * 2 ^ (52 - Z.log2 a + (52 - Z.log2 b)))
    by (rewrite Z.pow_add_r by lia; ring).
  replace (Z.log2 a - 52 + (Z.log2 b - 52))
    with (- (52 - Z.log2 a + (52 - Z.log2 b))) by lia.
  apply binary_round_aux_exact; [nia|lia].
Qed.

(** The quotient of two finite doubles that denote integers [k * b] and
    [b], for an integer [k] below [2^53], is the double of [k]. *)
Lemma fdiv_exact (s1 s2 : bool) (k b ta tb : Z) :
  0 < k < 2 ^ 53 -> 0 < b -> 0 <= ta -> 0 <= tb ->
  fdiv (S754_finite s1 (Z.to_pos (k * b * 2 ^ ta)) (- ta))
       (S754_finite s2 (Z.to_pos (b * 2 ^ tb)) (- tb))
  = normal_double (xorb s1 s2) k.
Proof.
  intros Hk Hb Hta Htb.
  assert (0 < 2 ^ ta) as Pa by (apply Z.pow_pos_nonneg; lia).
  assert (0 < 2 ^ tb) as Pb by (apply Z.pow_pos_nonneg; lia).
  assert (0 < k * b) as Hkb by nia.
  assert (0 <= Z.log2 k <= 52) as HL.
  { split; [apply Z.log2_nonneg|].
    assert (Z.log2 k < 53) by (apply Z.log2_lt_pow2; lia). lia. }
  pose proof (Z.log2_nonneg b) as Lb.
  pose proof (Z.log2_mul_below k b ltac:(lia) Hb) as LB.
  pose proof (Z.log2_mul_above k b ltac:(lia) ltac:(lia)) as LA.
  unfold fdiv, SFdiv, SFdiv_core_binary. cbv zeta.
  rewrite !Z2Pos.id by nia.
  rewrite !Zdigits2_log2, !Z.log2_mul_pow2 by nia.
  set (L := Z.log2 (k * b) - Z.log2 b).
  replace (ta + Z.log2 (k * b) + 1 + - ta - (tb + Z.log2 b + 1 + - tb))
    with L by (subst L; lia).
  rewrite fexp_normal by (subst L; lia).
  set (e' := Z.min (L - 53) (- ta - - tb)).
  set (j := - e').
  assert (52 - Z.log2 k <= j /\ 0 <= j /\ 0 <= - ta - - tb - e'
          /\ ta + (- ta - - tb - e') = tb + j) as (Hj & Hj0 & Hs & Ej)
    by (subst j e' L; lia).
  assert (0 < 2 ^ j) as Pj by (apply Z.pow_pos_nonneg; lia).
  assert ((match - ta - - tb - e' with
           | 0 => k * b * 2 ^ ta
           | Z.pos _ => Z.shiftl (k * b * 2 ^ ta) (- ta - - tb - e')
           | Z.neg _ => 0
           end) = k * 2 ^ j * (b * 2 ^ tb)) as ->.
  { assert (k * b * 2 ^ ta * 2 ^ (- ta - - tb - e')
            = k * 2 ^ j * (b * 2 ^ tb)) as X.
    { assert (2 ^ ta * 2 ^ (- ta - - tb - e') = 2 ^ tb * 2 ^ j) as Y
        by (rewrite <- !Z.pow_add_r by lia; now rewrite Ej).
      rewrite <- (Z.mul_assoc (k * b)), Y.
      rewrite (Z.mul_comm (2 ^ tb)), !Z.mul_assoc.
      rewrite <- (Z.mul_assoc k b), (Z.mul_comm b), Z.mul_assoc.
      reflexivity. }
    destruct (- ta - - tb - e') as [|p|p] eqn:S; try lia.
    rewrite Z.shiftl_mul_pow2 by lia. exact X. }
  pose proof (Z.div_mul (k * 2 ^ j) (b * 2 ^ tb) ltac:(nia)) as Q.
  pose proof (Z.mod_mul (k * 2 ^ j) (b * 2 ^ tb) ltac:(nia)) as R.
  unfold Z.div in Q. unfold Z.modulo in R.
  destruct (Z.div_eucl (k * 2 ^ j * (b * 2 ^ tb)) (b * 2 ^ tb)) as [q r].
  subst q r.
  assert (new_location (b * 2 ^ tb) 0 = loc_Exact) as ->
    by (unfold new_location; destruct (Z.even _); reflexivity).
  fold j. replace e' with (- j) by (subst j; lia).
  now apply binary_round_aux_exact.
Qed.

(* ----------------------------------------------------------------- *)
(** ** The epoch formats on whole seconds (lines 82-88) *)

Lemma float_of_Z_nonzero (k : Z) :
  k <> 0 -> Z.abs k < 2 ^ 53 ->
  float_of_Z k = normal_double (k <? 0) (Z.abs k).
Proof.
  intros Hk Hb.
  destruct (float_of_Z_normal (Z.abs k) ltac:(lia)) as [P N].
  destruct (k <? 0) eqn:E.
  - apply Z.ltb_lt in E. rewrite <- N. f_equal. lia.
  - apply Z.ltb_ge in E. rewrite <- P. f_equal. lia.
Qed.

Lemma normal_double_exponent (s : bool) (k : Z) :
  normal_double s k
  = S754_finite s (Z.to_pos (k * 2 ^ (52 - Z.log2 k))) (- (52 - Z.log2 k)).
Proof. unfold normal_double. f_equal. lia. Qed.

(** The quotient of two [int]s that divide exactly, when it is below
    [2^53] in magnitude: its double, on both paths of the division. *)
Lemma int_true_divide_exact (k b : Z) :
  Z.abs k < 2 ^ 53 -> 0 < b ->
  int_true_divide (k * b) b = Returns (float_of_Z k).
Proof.
  intros Hk Hb. unfold int_true_divide.
  destruct (b =? 0) eqn:E0; [apply Z.eqb_eq in E0; lia|].
  destruct (Z.eq_dec k 0) as [->|Hk0].
  { cbn [Z.mul Z.abs]. change (0 <? 2 ^ 53) with true. cbn [andb].
    destruct (Z.abs b <? 2 ^ 53) eqn:Eb.
    - apply Z.ltb_lt in Eb.
      rewrite (float_of_Z_nonzero b) by lia.
      replace (b <? 0) with false by (symmetry; apply Z.ltb_ge; lia).
      reflexivity.
    - replace (b <? 0) with false by (symmetry; apply Z.ltb_ge; lia).
      reflexivity. }
  set (k' := Z.abs k). set (s := k <? 0).
  assert (0 < k' < 2 ^ 53) as Hk' by (subst k'; lia).
  assert ((k * b <? 0) = s /\ Z.abs (k * b) = k' * b) as [Es Ea].
  { subst s k'. split.
    - destruct (k <? 0) eqn:E;
        [apply Z.ltb_lt in E; apply Z.ltb_lt
        |apply Z.ltb_ge in E; apply Z.ltb_ge]; nia.
    - rewrite Z.abs_mul. f_equal. lia. }
  rewrite (float_of_Z_nonzero k) by lia. fold s. fold k'.
  assert (0 < k' * b) as Hkb by nia.
  pose proof (Z.log2_nonneg b) as Lb.
  destruct ((Z.abs (k * b) <? 2 ^ 53) && (Z.abs b <? 2 ^ 53)) eqn:Fast.
  - apply andb_prop in Fast as [F1 F2].
    apply Z.ltb_lt in F1, F2.
    rewrite (float_of_Z_nonzero (k * b)), (float_of_Z_nonzero b) by lia.
    rewrite Es, Ea.
    replace (b <? 0) with false by (symmetry; apply Z.ltb_ge; lia).
    replace (Z.abs b) with b by lia.
    rewrite (normal_double_exponent s), (normal_double_exponent false).
    assert (Z.log2 (k' * b) < 53) by (apply Z.log2_lt_pow2; lia).
    assert (Z.log2 b < 53) by (apply Z.log2_lt_pow2; lia).
    pose proof (Z.log2_nonneg (k' * b)).
    rewrite fdiv_exact by lia. now destruct s.
  - pose proof (fdiv_exact s false k' b 0 0 Hk' Hb ltac:(lia) ltac:(lia))
      as F.
    change (2 ^ 0) with 1 in F. rewrite !Z.mul_1_r in F.
    change (- 0) with 0 in F.
    destruct (k * b) as [|p|p] eqn:Ekb; [nia| |];
      rewrite Es;
      replace (b <? 0) with false by (symmetry; apply Z.ltb_ge; lia);
      replace (Z.abs b) with b by lia;
      rewrite Ea, F; now destruct s.
Qed.

(** The seconds since the epoch of a value with an offset, when they are
    whole. *)
Lemma whole_seconds_since_epoch (dt : datetime) (off : Z) :
  valid_datetime dt -> tzinfo dt = Some off ->
  microsecond dt = 0 -> off mod 1000000 = 0 ->
  utc_micros dt off = utc_micros dt off / 1000000 * 1000000
  /\ Z.abs (utc_micros dt off / 1000000) < 2 ^ 40.
Proof.
  intros V T U M. unfold valid_datetime in V. rewrite T in V.
  destruct V as (Vy & Vmo & Vd & Vh & Vmi & Vs & _ & Voff).
  pose proof (ymd2ord_bounds _ _ _ Vy Vmo Vd) as B.
  change _MAXORDINAL with 3652059 in B.
  unfold utc_micros, wall_micros, wall_seconds.
  change epoch_seconds with 62135683200. rewrite U.
  set (o := _ymd2ord (year dt) (month dt) (day dt)) in *. clearbody o.
  change (2 ^ 40) with 1099511627776.
  generalize dependent (hour dt). generalize dependent (minute dt).
  generalize dependent (second dt). intros.
  Z.div_mod_to_equations. lia.
Qed.

Lemma int_of_float_of_Z (k : Z) :
  Z.abs k < 2 ^ 53 -> int_of_float (float_of_Z k) = Returns k.
Proof.
  intros Hk. destruct (Z.eq_dec k 0) as [->|Hk0]; [reflexivity|].
  rewrite float_of_Z_nonzero, int_of_float_normal by lia.
  f_equal. destruct (k <? 0) eqn:E;
    [apply Z.ltb_lt in E|apply Z.ltb_ge in E]; lia.
Qed.

Lemma fmul_thousand (k : Z) :
  Z.abs k < 2 ^ 40 ->
  fmul (float_of_Z k) (float_of_Z 1000) = float_of_Z (k * 1000).
Proof.
  intros Hk. change (2 ^ 40) with 1099511627776 in Hk.
  destruct (Z.eq_dec k 0) as [->|Hk0]; [reflexivity|].
  assert (Z.abs k * 1000 < 2 ^ 53)
    by (change (2 ^ 53) with 9007199254740992; lia).
  rewrite (float_of_Z_nonzero k), (float_of_Z_nonzero 1000),
    (float_of_Z_nonzero (k * 1000)) by lia.
  change (1000 <? 0) with false. change (Z.abs 1000) with 1000.
  rewrite fmul_normal by lia. f_equal.
  - rewrite xorb_false_r.
    destruct (k <? 0) eqn:E; symmetry;
      [apply Z.ltb_lt in E; apply Z.ltb_lt
      |apply Z.ltb_ge in E; apply Z.ltb_ge]; lia.
  - lia.
Qed.

(** X9. On an input with an offset of whole seconds and without a fraction
    of a second, both epoch formats are exact: [epoch_sec] is the number of
    seconds from the epoch to the instant and [epoch_ms] is that number
    times 1000. *)
Theorem epoch_exact_on_whole_seconds (H : Host) (ts : str) (dt : datetime)
        (off : Z) :
  parse_timestamp ts = Returns dt ->
  tzinfo dt = Some off ->
  microsecond dt = 0 ->
  off mod 1000000 = 0 ->
  let seconds := utc_micros dt off / 1000000 in
  utc_micros dt off = seconds * 1000000
  /\ convert_timestamp_format ts "epoch_sec" = Returns (str_of_int seconds)
  /\ convert_timestamp_format ts "epoch_ms"
     = Returns (str_of_int (seconds * 1000)).
Proof.
  intros P T U M seconds.
  destruct (whole_seconds_since_epoch dt off (parse_timestamp_valid _ _ P)
              T U M) as [E B].
  fold seconds in E, B.
  assert (Z.abs seconds < 2 ^ 53) as B53.
  { change (2 ^ 40) with 1099511627776 in B.
    change (2 ^ 53) with 9007199254740992. lia. }
  assert (timestamp dt = Returns (float_of_Z seconds)) as Ht.
  { unfold timestamp. rewrite T, E.
    apply int_true_divide_exact; [exact B53|lia]. }
  split; [exact E|]. unfold convert_timestamp_format. split.
  - rewrite (epoch_sec_dispatch ts dt P), Ht. cbn [bind].
    now rewrite int_of_float_of_Z.
  - rewrite (epoch_ms_dispatch ts dt P), Ht. cbn [bind].
    rewrite fmul_thousand by exact B.
    rewrite int_of_float_of_Z; [reflexivity|].
    change (2 ^ 40) with 1099511627776 in B.
    change (2 ^ 53) with 9007199254740992. lia.
Qed.

Lemma epoch_exact_on_whole_seconds_witness :
  convert_timestamp_format (H := utc_host) "1969-12-31T23:59:59+00:00"
    "epoch_sec" = Returns ("-1" : str)
  /\ convert_timestamp_format (H := utc_host) "1969-12-31T23:59:59+00:00"
       "epoch_ms" = Returns ("-1000" : str).
Proof.
  destruct (epoch_exact_on_whole_seconds utc_host
              "1969-12-31T23:59:59+00:00"
              (mk_datetime 1969 12 31 23 59 59 0 (Some 0)) 0)
    as (_ & S & Ms); try reflexivity.
  rewrite S, Ms. split; reflexivity.
Defined.

(* ----------------------------------------------------------------- *)
(** ** The sign of [format_number] (lines 23, 38-48) *)

Lemma scale_float (largest : number) :
  exists m e, float_of_Z (fst (scale_class largest)) = S754_finite false m e.
Proof.
  destruct (scale_class_cases largest) as [E|[E|[E|E]]]; rewrite E;
    cbn [fst]; vm_compute; eauto.
Qed.

Lemma scale_bounds (largest : number) :
  0 < fst (scale_class largest) < 2 ^ 53.
Proof.
  destruct (scale_class_cases largest) as [E|[E|[E|E]]]; rewrite E;
    simpl; lia.
Qed.

(** What is rendered for an [int]: its double, divided by the scale unless
    the scale is 1. *)
Lemma scaled_by_int (z scale : Z) :
  Z.abs z < 2 ^ 53 -> 0 < scale < 2 ^ 53 ->
  scaled_by (PyInt z) scale
  = Returns (if scale =? 1 then float_of_Z z
             else fdiv (float_of_Z z) (float_of_Z scale)).
Proof.
  intros Hz Hs. unfold scaled_by. destruct (scale =? 1).
  - now apply float_of_int_small.
  - cbn [num_truediv]. now apply int_true_divide_small.
Qed.

Lemma scaled_by_float (f : float) (scale : Z) :
  0 < scale < 2 ^ 53 ->
  scaled_by (PyFloat f) scale
  = Returns (if scale =? 1 then f else fdiv f (float_of_Z scale)).
Proof.
  intros Hs. unfold scaled_by. destruct (scale =? 1); [reflexivity|].
  cbn [num_truediv].
  destruct (scale =? 0) eqn:E0; [apply Z.eqb_eq in E0; lia|].
  rewrite float_of_int_small by lia. reflexivity.
Qed.

(** A negative number has the sign bit set. *)
Lemma negative_sign (num : number) :
  num_lt num (PyInt 0) = true ->
  match num with
  | PyInt z => z < 0
  | PyFloat f => sign_of f = Some true
  end.
Proof.
  unfold num_lt, num_compare. destruct num as [z|[s|s| |s m e]]; cbn [ext].
  - unfold fin_compare. cbn. rewrite Z.mul_1_r.
    destruct (z ?= 0) eqn:C; try discriminate. intros _.
    now rewrite Z.compare_lt_iff in C.
  - unfold fin_compare. cbn. discriminate.
  - destruct s; [reflexivity|discriminate].
  - discriminate.
  - destruct s; [reflexivity|].
    unfold fin_compare. cbv zeta.
    assert (0 < 2 ^ (e - Z.min e 0)) as HK by (apply Z.pow_pos_nonneg; lia).
    destruct (Z.pos m * 2 ^ (e - Z.min e 0) ?= 0 * 2 ^ (0 - Z.min e 0)) eqn:C;
      try discriminate.
    rewrite Z.compare_lt_iff in C.
    assert (0 < Z.pos m * 2 ^ (e - Z.min e 0)) by (apply Z.mul_pos_pos; lia).
    lia.
Qed.

Lemma scaled_sign (num : number) (largest : number) (scaled : float) :
  exact_or_float num -> num_lt num (PyInt 0) = true ->
  scaled_by num (fst (scale_class largest)) = Returns scaled ->
  sign_of scaled = Some true.
Proof.
  intros Hx Hneg Hs. apply negative_sign in Hneg.
  pose proof (scale_bounds largest) as Hb.
  destruct (scale_float largest) as (m & e & Hf).
  destruct num as [z|f]; simpl in Hx.
  - rewrite scaled_by_int in Hs by assumption. injection Hs as <-.
    assert (sign_of (float_of_Z z) = Some true) as Sz.
    { rewrite float_of_Z_sign by lia.
      destruct (z <? 0) eqn:E; [reflexivity|apply Z.ltb_ge in E; lia]. }
    destruct (_ =? 1); [exact Sz|].
    rewrite Hf. now rewrite (fdiv_sign _ true).
  - rewrite scaled_by_float in Hs by assumption. injection Hs as <-.
    destruct (_ =? 1); [exact Hneg|].
    rewrite Hf. now rewrite (fdiv_sign _ true).
Qed.

(** X10. For every negative number ([int] below [2^53] in magnitude, or
    [float]), the display string of [format_number] is two ["-"], the [.2f]
    rendering of the magnitude of the scaled number, and the suffix. *)
Theorem format_number_negative_two_signs (num : number) :
  exact_or_float num -> not_nan num -> num_lt num (PyInt 0) = true ->
  let scale := fst (scale_class (num_abs num)) in
  let suffix := snd (scale_class (num_abs num)) in
  exists scaled,
    scaled_by num scale = Returns scaled
    /\ sign_of scaled = Some true
    /\ format_number num
       = Returns ("--" ++ format_2f (SFabs scaled) ++ suffix,
                  match suffix with [] => None | s => Some s end,
                  scale).
Proof.
  intros Hx Hn Hneg scale suffix.
  destruct (format_number_spec num Hx Hn) as (scaled & Hs & Hf).
  pose proof (scaled_sign num _ scaled Hx Hneg Hs) as Sg.
  exists scaled. split; [exact Hs|]. split; [exact Sg|].
  rewrite Hf, Hneg, (format_2f_sign _ _ Sg). reflexivity.
Qed.

Lemma format_number_negative_two_signs_witness :
  format_number (PyInt (-1500))
  = Returns ("--1.50K" : str, Some ("K" : str), 1000).
Proof.
  destruct (format_number_negative_two_signs (PyInt (-1500)))
    as (scaled & Hs & _ & Hf);
    [vm_compute; reflexivity|discriminate|reflexivity|].
  rewrite Hf. vm_compute in Hs. injection Hs as <-.
  vm_compute. reflexivity.
Defined.

(* ----------------------------------------------------------------- *)
(** ** [format_difference] against zero and exchanged *)

(** What [format_difference] computes once the difference is known and the
    larger magnitude is not a NaN. *)
Lemma format_difference_eq (x1 x2 d : number) :
  exact_or_float x1 -> exact_or_float x2 ->
  not_nan (num_max (num_abs x1) (num_abs x2)) ->
  num_sub x1 x2 = Returns d ->
  let class := scale_class (num_max (num_abs x1) (num_abs x2)) in
  format_difference x1 x2
  = (f <- scaled_by d (fst class) ;; Returns (format_2f f ++ snd class)).
Proof.
  intros H1 H2 HL Hd class. unfold format_difference.
  destruct (format_number_returns x1 H1) as [r1 ->].
  destruct (format_number_returns x2 H2) as [r2 ->].
  cbn [bind]. rewrite (to_use_scale_class _ HL), Hd. cbn [bind].
  subst class.
  destruct (scale_class_cases (num_max (num_abs x1) (num_abs x2)))
    as [E|[E|[E|E]]]; rewrite E; cbn [fst snd list_ascii_of_string];
    try reflexivity.
  rewrite num_format_2f_scaled.
  destruct (scaled_by d 1); cbn [bind]; [now rewrite app_nil_r|reflexivity].
Qed.

Lemma fin_compare_int (a b : Z) : fin_compare a 0 b 0 = (a ?= b).
Proof.
  unfold fin_compare. change (Z.min 0 0) with 0.
  change (2 ^ (0 - 0)) with 1. now rewrite !Z.mul_1_r.
Qed.

(** No magnitude is below zero. *)
Lemma zero_not_above_abs (x : number) : num_gt (PyInt 0) (num_abs x) = false.
Proof.
  unfold num_gt, num_compare.
  destruct x as [z|[s|s| |s m e]]; cbn [num_abs SFabs ext]; try reflexivity.
  - rewrite fin_compare_int.
    destruct (0 ?= Z.abs z) eqn:C; try reflexivity.
    rewrite Z.compare_gt_iff in C. lia.
  - unfold fin_compare. cbv zeta.
    assert (0 < Z.pos m * 2 ^ (e - Z.min 0 e))
      by (apply Z.mul_pos_pos; [lia|apply Z.pow_pos_nonneg; lia]).
    destruct (0 * 2 ^ (0 - Z.min 0 e) ?= Z.pos m * 2 ^ (e - Z.min 0 e)) eqn:C;
      try reflexivity.
    rewrite Z.compare_gt_iff in C. lia.
Qed.

Lemma num_sub_zero (x : number) : num_sub x (PyInt 0) = Returns x.
Proof.
  destruct x as [z|f]; cbn [num_sub].
  - now rewrite Z.sub_0_r.
  - change (float_of_int 0) with (Returns (S754_zero false)). cbn [bind].
    destruct f as [[|]|[|]| |s m e]; reflexivity.
Qed.

(** X11. [format_difference(x, 0)] and [format_number(x)] render the same
    number at the same scale: the display string of [format_number] is the
    result of [format_difference], preceded by one more ["-"] when [x] is
    negative. *)
Theorem format_difference_from_zero (x : number) :
  exact_or_float x -> not_nan x ->
  exists text suffix scale,
    format_difference x (PyInt 0) = Returns text
    /\ format_number x
       = Returns ((if num_lt x (PyInt 0) then "-" else "") ++ text,
                  suffix, scale).
Proof.
  intros Hx Hn.
  destruct (format_number_spec x Hx Hn) as (scaled & Hs & Hf).
  assert (num_max (num_abs x) (num_abs (PyInt 0)) = num_abs x) as HM
    by (unfold num_max; cbn [num_abs Z.abs]; now rewrite zero_not_above_abs).
  pose proof (format_difference_eq x (PyInt 0) x Hx) as D.
  rewrite HM in D. cbv zeta in D.
  rewrite D, Hs by
    (reflexivity || now apply num_abs_not_nan || now apply num_sub_zero).
  cbn [bind]. rewrite Hf.
  eexists _, _, _. split; [reflexivity|].
  destruct (num_lt x (PyInt 0)); reflexivity.
Qed.

Lemma format_difference_from_zero_witness :
  exists text suffix scale,
    format_difference (PyInt (-2500)) (PyInt 0) = Returns text
    /\ format_number (PyInt (-2500)) = Returns ("-" ++ text, suffix, scale).
Proof.
  apply (format_difference_from_zero (PyInt (-2500)));
    [vm_compute; reflexivity|discriminate].
Defined.

Lemma num_gt_int (a b : Z) : num_gt (PyInt a) (PyInt b) = (b <? a).
Proof.
  unfold num_gt, num_compare. cbn [ext]. rewrite fin_compare_int.
  destruct (a ?= b) eqn:C; symmetry.
  - apply Z.compare_eq in C. apply Z.ltb_ge. lia.
  - rewrite Z.compare_lt_iff in C. apply Z.ltb_ge. lia.
  - rewrite Z.compare_gt_iff in C. apply Z.ltb_lt. lia.
Qed.

Lemma num_max_int (a b : Z) :
  num_max (PyInt a) (PyInt b) = PyInt (Z.max a b).
Proof.
  unfold num_max. rewrite num_gt_int.
  destruct (a <? b) eqn:E; f_equal;
    [apply Z.ltb_lt in E|apply Z.ltb_ge in E]; lia.
Qed.

(** [format_difference] on two [int]s: the rendering of the double of the
    difference, divided by the scale of the larger magnitude. *)
Lemma format_difference_int (a b : Z) :
  Z.abs a < 2 ^ 52 -> Z.abs b < 2 ^ 52 ->
  let class := scale_class (PyInt (Z.max (Z.abs a) (Z.abs b))) in
  format_difference (PyInt a) (PyInt b)
  = Returns
      (format_2f (if fst class =? 1 then float_of_Z (a - b)
                  else fdiv (float_of_Z (a - b)) (float_of_Z (fst class)))
       ++ snd class).
Proof.
  intros Ha Hb class.
  pose proof (format_difference_eq (PyInt a) (PyInt b) (PyInt (a - b))) as D.
  cbn [num_abs] in D. rewrite num_max_int in D. cbv zeta in D.
  rewrite D; try reflexivity; try discriminate; try (simpl; lia).
  fold class. rewrite scaled_by_int; [reflexivity|lia|apply scale_bounds].
Qed.

(** X12. For two [int]s [b < a], [format_difference(b, a)] is
    [format_difference(a, b)] with a ["-"] in front and nothing else
    changed; the difference of an [int] with itself is ["0.00"] with the
    suffix of its class. *)
Theorem format_difference_exchanged :
  (forall a b : Z,
      Z.abs a < 2 ^ 52 -> Z.abs b < 2 ^ 52 -> b < a ->
      exists text,
        format_difference (PyInt a) (PyInt b) = Returns text
        /\ format_difference (PyInt b) (PyInt a) = Returns ("-" ++ text))
  /\ (forall a : Z,
         Z.abs a < 2 ^ 52 ->
         format_difference (PyInt a) (PyInt a)
         = Returns ("0.00" ++ snd (scale_class (PyInt (Z.abs a))))).
Proof.
  split.
  - intros a b Ha Hb Hab.
    rewrite (format_difference_int a b), (format_difference_int b a)
      by assumption.
    rewrite (Z.max_comm (Z.abs b)).
    set (class := scale_class (PyInt (Z.max (Z.abs a) (Z.abs b)))).
    destruct (scale_float (PyInt (Z.max (Z.abs a) (Z.abs b))))
      as (m & e & Hf). fold class in Hf.
    replace (b - a) with (- (a - b)) by lia.
    rewrite float_of_Z_opp by lia.
    assert (sign_of (float_of_Z (a - b)) = Some false) as Sd.
    { rewrite float_of_Z_sign by lia.
      destruct (a - b <? 0) eqn:E; [apply Z.ltb_lt in E; lia|reflexivity]. }
    eexists. split; [reflexivity|].
    destruct (fst class =? 1).
    + rewrite (format_2f_sign _ _ (sign_of_opp _ _ Sd)), SFabs_opp.
      rewrite (format_2f_sign _ _ Sd). reflexivity.
    + rewrite fdiv_opp, Hf.
      pose proof (fdiv_sign _ _ false m e Sd) as Sq. cbn [xorb] in Sq.
      rewrite (format_2f_sign _ _ (sign_of_opp _ _ Sq)), SFabs_opp.
      rewrite (format_2f_sign _ _ Sq). reflexivity.
  - intros a Ha. rewrite format_difference_int by assumption.
    rewrite Z.max_id, Z.sub_diag.
    destruct (scale_class_cases (PyInt (Z.abs a))) as [E|[E|[E|E]]];
      rewrite E; reflexivity.
Qed.

Lemma format_difference_exchanged_witness :
  format_difference (PyInt 1234000000) (PyInt 1234567890)
  = Returns ("-0.00B" : str)
  /\ format_difference (PyInt 7) (PyInt 7) = Returns ("0.00" : str).
Proof.
  destruct format_difference_exchanged as [X Y]. split.
  - destruct (X 1234567890 1234000000) as (text & H1 & H2);
      [reflexivity|reflexivity|reflexivity|].
    rewrite H2. vm_compute in H1. injection H1 as <-. reflexivity.
  - apply (Y 7). reflexivity.
Defined.

Lemma nan_largest (x : number) :
  num_max (num_abs (PyFloat S754_nan)) x = PyFloat S754_nan
  /\ num_max x (num_abs (PyFloat S754_nan)) = x.
Proof.
  unfold num_max, num_gt, num_compare. cbn [num_abs SFabs ext].
  split; [|reflexivity]. now destruct (ext x).
Qed.

Lemma fsub_nan (f : float) : fsub f S754_nan = S754_nan.
Proof. now destruct f. Qed.

(* ----------------------------------------------------------------- *)
(** ** Exact multiples of the scale *)

(** The [.2f] rendering of the double of an integer: the integer and two
    zeros. *)
Lemma format_2f_normal (s : bool) (k : Z) :
  0 < k < 2 ^ 53 ->
  format_2f (normal_double s k) = sign_str s ++ str_of_nonneg k ++ ".00".
Proof.
  intros Hk.
  assert (0 <= Z.log2 k <= 52) as HL.
  { split; [apply Z.log2_nonneg|].
    assert (Z.log2 k < 53) by (apply Z.log2_lt_pow2; lia). lia. }
  assert (0 < 2 ^ (52 - Z.log2 k)) as P by (apply Z.pow_pos_nonneg; lia).
  unfold normal_double, format_2f. rewrite Z2Pos.id by nia.
  assert (round_hundredths (k * 2 ^ (52 - Z.log2 k)) (Z.log2 k - 52)
          = k * 100) as ->.
  { unfold round_hundredths.
    destruct (0 <=? Z.log2 k - 52) eqn:E.
    - apply Z.leb_le in E. replace (Z.log2 k) with 52 by lia.
      change (2 ^ (52 - 52)) with 1. lia.
    - cbv zeta.
      replace (- (Z.log2 k - 52)) with (52 - Z.log2 k) by lia.
      replace (k * 2 ^ (52 - Z.log2 k) * 100)
        with (k * 100 * 2 ^ (52 - Z.log2 k)) by ring.
      rewrite Z.div_mul, Z.mod_mul by lia.
      replace (2 * 0 ?= 2 ^ (52 - Z.log2 k)) with Lt
        by (symmetry; apply Z.compare_lt_iff; lia).
      reflexivity. }
  rewrite Z.div_mul, Z.mod_mul by lia. reflexivity.
Qed.

Lemma format_2f_of_Z (k : Z) :
  Z.abs k < 2 ^ 53 -> format_2f (float_of_Z k) = str_of_int k ++ ".00".
Proof.
  intros Hk. destruct (Z.eq_dec k 0) as [->|Hk0]; [reflexivity|].
  rewrite float_of_Z_nonzero, format_2f_normal by lia.
  unfold str_of_int. destruct (k <? 0) eqn:E.
  - apply Z.ltb_lt in E. replace (Z.abs k) with (- k) by lia. reflexivity.
  - apply Z.ltb_ge in E. replace (Z.abs k) with k by lia. reflexivity.
Qed.

(** What is rendered for an [int] that is a multiple of the scale. *)
Lemma scaled_by_multiple (k scale : Z) :
  Z.abs (k * scale) < 2 ^ 53 -> 0 < scale < 2 ^ 53 ->
  scaled_by (PyInt (k * scale)) scale = Returns (float_of_Z k).
Proof.
  intros Hk Hs.
  assert (Z.abs k < 2 ^ 53) as Hk'
    by (rewrite Z.abs_mul in Hk; nia).
  unfold scaled_by. destruct (scale =? 1) eqn:E.
  - apply Z.eqb_eq in E. subst. rewrite Z.mul_1_r.
    now apply float_of_int_small.
  - cbn [num_truediv]. apply int_true_divide_exact; lia.
Qed.

(** X14. A non-negative [int] below [2^53] that is a multiple of the scale
    of its class is shown exactly: the quotient, [.00] and the suffix. *)
Theorem format_number_exact_multiples (n : Z) :
  0 <= n < 2 ^ 53 ->
  let scale := fst (scale_class (PyInt n)) in
  let suffix := snd (scale_class (PyInt n)) in
  n mod scale = 0 ->
  format_number (PyInt n)
  = Returns (str_of_int (n / scale) ++ ".00" ++ suffix,
             match suffix with [] => None | s => Some s end,
             scale).
Proof.
  intros Hn scale suffix Hm.
  pose proof (scale_bounds (PyInt n)) as Hs. fold scale in Hs.
  destruct (format_number_spec (PyInt n)) as (scaled & Hsc & Hf);
    [simpl; lia|discriminate|].
  cbn [num_abs] in Hsc, Hf. replace (Z.abs n) with n in Hsc, Hf by lia.
  fold scale in Hsc, Hf. fold suffix in Hf.
  assert (n = n / scale * scale) as En
    by (pose proof (Z.div_mod n scale ltac:(lia)); lia).
  rewrite En in Hsc at 1.
  rewrite scaled_by_multiple in Hsc by (try rewrite <- En; lia).
  injection Hsc as <-.
  rewrite Hf. replace (num_lt (PyInt n) (PyInt 0)) with false.
  - rewrite format_2f_of_Z; [now rewrite <- app_assoc|].
    assert (0 <= n / scale <= n)
      by (split; [apply Z.div_pos; lia|apply Z.div_le_upper_bound; nia]).
    lia.
  - unfold num_lt, num_compare. cbn [ext]. rewrite fin_compare_int.
    destruct (n ?= 0) eqn:C; try reflexivity.
    rewrite Z.compare_lt_iff in C. lia.
Qed.

Lemma format_number_exact_multiples_witness :
  format_number (PyInt 5000000000)
  = Returns ("5.00B" : str, Some ("B" : str), 1000000000).
Proof.
  exact (format_number_exact_multiples 5000000000
           ltac:(vm_compute; split; [discriminate|reflexivity]) eq_refl).
Defined.

(** X15. A difference of two [int]s that is a multiple of the shared scale
    is shown exactly: the signed quotient, [.00] and the suffix. *)
Theorem format_difference_exact_multiples (a b : Z) :
  Z.abs a < 2 ^ 52 -> Z.abs b < 2 ^ 52 ->
  let class := scale_class (PyInt (Z.max (Z.abs a) (Z.abs b))) in
  (a - b) mod fst class = 0 ->
  format_difference (PyInt a) (PyInt b)
  = Returns (str_of_int ((a - b) / fst class) ++ ".00" ++ snd class).
Proof.
  intros Ha Hb class Hm.
  pose proof (scale_bounds (PyInt (Z.max (Z.abs a) (Z.abs b)))) as Hs.
  fold class in Hs.
  pose proof (format_difference_eq (PyInt a) (PyInt b) (PyInt (a - b))) as D.
  cbn [num_abs] in D. rewrite num_max_int in D. cbv zeta in D.
  fold class in D.
  rewrite D; try reflexivity; try discriminate; try (simpl; lia).
  assert (a - b = (a - b) / fst class * fst class) as Ed
    by (pose proof (Z.div_mod (a - b) (fst class) ltac:(lia)); lia).
  assert (Z.abs (a - b) < 2 ^ 53)
    by (change (2 ^ 52) with 4503599627370496 in *;
        change (2 ^ 53) with 9007199254740992; lia).
  rewrite Ed at 1.
  rewrite scaled_by_multiple by (try rewrite <- Ed; lia).
  cbn [bind]. rewrite format_2f_of_Z; [now rewrite <- app_assoc|].
  rewrite Ed in H. rewrite Z.abs_mul in H. nia.
Qed.

Lemma format_difference_exact_multiples_witness :
  format_difference (PyInt 100) (PyInt 50) = Returns ("50.00" : str)
  /\ format_difference (PyInt 4000000000) (PyInt 5000000000)
     = Returns ("-1.00B" : str).
Proof.
  split.
  - exact (format_difference_exact_multiples 100 50 eq_refl eq_refl
             eq_refl).
  - exact (format_difference_exact_multiples 4000000000 5000000000
             eq_refl eq_refl eq_refl).
Defined.

(* ----------------------------------------------------------------- *)
(** ** Just below the next class (lines 30-40) *)

Lemma format_number_is_spec (n : Z) (text suffix : str) (scale : Z) :
  format_number_is n text suffix scale = true ->
  format_number (PyInt n) = Returns (text, Some suffix, scale).
Proof.
  unfold format_number_is.
  destruct (format_number (PyInt n)) as [[[t [s|]] m]|e]; try discriminate.
  intros H. apply andb_prop in H as [H Hm]. apply andb_prop in H as [Ht Hs].
  apply str_eqb_eq in Ht, Hs. apply Z.eqb_eq in Hm. now subst.
Qed.

(** X16. The class is chosen before the rounding: an [int] from 999995 to
    999999 is shown as ["1000.00K"], and one from 999995000 to 999999999
    as ["1000.00M"], not as [1.00] of the next class. *)
Theorem format_number_below_next_class (n : Z) :
  (999995 <= n < 1000000 ->
   format_number (PyInt n) = Returns ("1000.00K" : str, Some ("K" : str), 1000))
  /\ (999995000 <= n < 1000000000 ->
      format_number (PyInt n)
      = Returns ("1000.00M" : str, Some ("M" : str), 1000000)).
Proof.
  split; intros Hn; apply format_number_is_spec.
  - replace n with (999995 + (n - 999995)) by lia.
    apply (forall_guarded 3 5
             (fun i => format_number_is (999995 + i) "1000.00K" "K" 1000));
      [vm_compute; discriminate|vm_compute; reflexivity|lia].
  - replace n with (999995000 + (n - 999995000)) by lia.
    apply (forall_guarded 13 5000
             (fun i => format_number_is (999995000 + i) "1000.00M" "M"
                         1000000));
      [vm_compute; discriminate|vm_compute; reflexivity|lia].
Qed.

Lemma format_number_below_next_class_witness :
  format_number (PyInt 999999)
  = Returns ("1000.00K" : str, Some ("K" : str), 1000).
Proof.
  apply (proj1 (format_number_below_next_class 999999)). lia.
Defined.

(* ================================================================= *)
(** * Part IV: the difference at the shared scale (lines 53-97) *)
(* ================================================================= *)

(** ** Rounding without overflow *)

Lemma Zdigits2_nonneg (m : Z) : 0 <= Zdigits2 m.
Proof. destruct m; cbn; lia. Qed.

Lemma shr_1_digits (mrs : shr_record) :
  0 <= shr_m mrs ->
  Zdigits2 (shr_m (shr_1 mrs)) = Z.max 0 (Zdigits2 (shr_m mrs) - 1).
Proof.
  destruct mrs as [m r s]. cbn [shr_m]. intros Hm.
  destruct m as [|[p|p|]|p]; cbn [shr_1 shr_m Zdigits2 digits2_pos];
    rewrite ?Pos2Z.inj_succ; lia.
Qed.

Lemma iter_shr_1_digits (p : positive) :
  forall mrs, 0 <= shr_m mrs ->
    Zdigits2 (shr_m (iter_pos shr_1 p mrs))
    = Z.max 0 (Zdigits2 (shr_m mrs) - Zpos p).
Proof.
  induction p as [p IH|p IH|]; intros mrs Hm; cbn [iter_pos].
  - rewrite IH by (apply iter_shr_1_nonneg, shr_1_nonneg, Hm).
    rewrite IH by (apply shr_1_nonneg, Hm).
    rewrite shr_1_digits by exact Hm. lia.
  - rewrite IH by (apply iter_shr_1_nonneg, Hm). rewrite IH by exact Hm.
    lia.
  - now apply shr_1_digits.
Qed.

Lemma fexp_bound (x : Z) :
  fexp prec emax x = Z.max (x - 53) (-1074).
Proof. reflexivity. Qed.

(** After the shift of [shr_fexp], the exponent and the number of digits
    stay within the bounds of the input. *)
Lemma shr_fexp_bounds (m e : Z) (l : location) (B : Z) :
  0 <= m -> Zdigits2 m + e <= B -> e <= B - 53 -> -1021 <= B ->
  let '(mrs, e') := shr_fexp prec emax m e l in
  0 <= shr_m mrs /\ Zdigits2 (shr_m mrs) + e' <= B /\ e' <= B - 53.
Proof.
  intros Hm HD He HB.
  pose proof (shr_fexp_nonneg m e l Hm) as N.
  unfold shr_fexp, shr in *. rewrite fexp_bound in *.
  assert (shr_m (shr_record_of_loc m l) = m) as E0
    by (destruct l as [|[| |]]; reflexivity).
  destruct (Z.max (Zdigits2 m + e - 53) (-1074) - e) as [|p|p] eqn:E;
    cbn [fst] in N.
  - rewrite E0. lia.
  - split; [exact N|].
    rewrite iter_shr_1_digits by (rewrite E0; exact Hm).
    rewrite E0. lia.
  - rewrite E0. lia.
Qed.

Lemma round_nearest_even_digits (m : Z) (l : location) :
  0 <= m -> Zdigits2 (round_nearest_even m l) <= Zdigits2 m + 1.
Proof.
  intros Hm.
  assert (Zdigits2 (m + 1) <= Zdigits2 m + 1) as S.
  { destruct (Z.eq_dec m 0) as [->|Hne]; [cbn; lia|].
    rewrite !Zdigits2_log2 by lia.
    pose proof (Z.log2_succ_le m). unfold Z.succ in *. lia. }
  destruct l as [|[| |]]; cbn [round_nearest_even]; try lia.
  destruct (Z.even m); lia.
Qed.

(** A value whose digits end below [2^1023] is rounded to a finite
    double. *)
Lemma binary_round_aux_finite (s : bool) (m e : Z) (l : location) :
  0 <= m -> Zdigits2 m + e <= 1023 -> e <= 970 ->
  is_finite (binary_round_aux prec emax s m e l) = true.
Proof.
  intros Hm HD He. unfold binary_round_aux.
  pose proof (shr_fexp_bounds m e l 1023 Hm HD ltac:(lia) ltac:(lia)) as B1.
  destruct (shr_fexp prec emax m e l) as [mrs' e'].
  destruct B1 as (N1 & D1 & E1).
  pose proof (round_nearest_even_nonneg _ (loc_of_shr_record mrs') N1) as N2.
  pose proof (round_nearest_even_digits _ (loc_of_shr_record mrs') N1) as D2.
  pose proof (shr_fexp_bounds _ e' loc_Exact 1024 N2 ltac:(lia) ltac:(lia)
                ltac:(lia)) as B2.
  destruct (shr_fexp prec emax _ e' loc_Exact) as [mrs'' e''].
  destruct B2 as (N3 & D3 & E3).
  destruct (shr_m mrs'') as [|p|p]; [reflexivity| |lia].
  replace (e'' <=? emax - prec) with true; [reflexivity|].
  symmetry. apply Z.leb_le. unfold emax, prec. lia.
Qed.

Lemma Zdigits2_bound (m k : Z) :
  0 <= k -> 0 <= m < 2 ^ k -> Zdigits2 m <= k.
Proof.
  intros Hk Hm. destruct (Z.eq_dec m 0) as [->|Hne]; [cbn; lia|].
  rewrite Zdigits2_log2 by lia.
  assert (Z.log2 m < k) by (apply Z.log2_lt_pow2; lia). lia.
Qed.

Lemma Zdigits2_lower (m : Z) : 0 < m -> 2 ^ (Zdigits2 m - 1) <= m.
Proof.
  intros Hm. rewrite Zdigits2_log2 by lia.
  replace (Z.log2 m + 1 - 1) with (Z.log2 m) by lia.
  apply Z.log2_spec. lia.
Qed.

Lemma Zdigits2_upper (m : Z) : 0 <= m -> m < 2 ^ Zdigits2 m.
Proof.
  intros Hm. destruct (Z.eq_dec m 0) as [->|Hne]; [cbn; lia|].
  rewrite Zdigits2_log2 by lia. apply Z.log2_spec. lia.
Qed.

Lemma Zdigits2_mul_pow2 (m k : Z) :
  0 < m -> 0 <= k -> Zdigits2 (m * 2 ^ k) = Zdigits2 m + k.
Proof.
  intros Hm Hk.
  assert (0 < 2 ^ k) by (apply Z.pow_pos_nonneg; lia).
  rewrite !Zdigits2_log2 by nia.
  rewrite Z.log2_mul_pow2 by lia. lia.
Qed.

(** [float(n)] returns for every [int] below [2^1023] in magnitude. *)
Lemma float_of_Z_finite (z : Z) :
  Z.abs z < 2 ^ 1023 -> is_finite (float_of_Z z) = true.
Proof.
  intros Hz. unfold float_of_Z, binary_normalize, binary_round.
  assert (forall (s : bool) (p : positive),
             Z.pos p < 2 ^ 1023 ->
             is_finite
               (let '(mz, ez) :=
                  shl_align p 0 (fexp prec emax (Z.pos (digits2_pos p) + 0)) in
                binary_round_aux prec emax s (Z.pos mz) ez loc_Exact)
             = true) as P.
  { intros s p Hp.
    pose proof (Zdigits2_bound (Z.pos p) 1023 ltac:(lia) ltac:(lia)) as D.
    change (Zdigits2 (Z.pos p)) with (Z.pos (digits2_pos p)) in D.
    unfold shl_align.
    destruct (fexp prec emax (Z.pos (digits2_pos p) + 0) - 0) as [|d|d] eqn:E.
    - apply binary_round_aux_finite; cbn [Zdigits2]; lia.
    - apply binary_round_aux_finite; cbn [Zdigits2]; lia.
    - rewrite fexp_bound in *.
      apply binary_round_aux_finite; [lia| |lia].
      rewrite iter_xO, Zdigits2_mul_pow2 by lia.
      change (Zdigits2 (Z.pos p)) with (Z.pos (digits2_pos p)). lia. }
  destruct z as [|p|p]; [reflexivity|apply P; lia|apply P; lia].
Qed.

Lemma float_of_int_returns (z : Z) :
  Z.abs z < 2 ^ 1023 -> float_of_int z = Returns (float_of_Z z).
Proof.
  intros Hz. unfold float_of_int.
  pose proof (float_of_Z_finite z Hz) as F.
  destruct (Z.abs z <? 2 ^ 53); [reflexivity|].
  destruct (float_of_Z z); try discriminate; reflexivity.
Qed.

(** The quotient of [SFdiv_core_binary] on two integers. *)
Lemma SFdiv_core_binary_bounds (m1 m2 : Z) :
  0 < m1 -> 0 < m2 ->
  let '(q, e, l) := SFdiv_core_binary prec emax m1 0 m2 0 in
  0 <= q /\ e <= 0
  /\ Zdigits2 q + e <= Z.max 0 (Zdigits2 m1 - Zdigits2 m2 + 1).
Proof.
  intros H1 H2. unfold SFdiv_core_binary.
  set (d1 := Zdigits2 m1). set (d2 := Zdigits2 m2).
  set (e' := Z.min (fexp prec emax (d1 + 0 - (d2 + 0))) (0 - 0)).
  assert (e' <= 0) as He by (subst e'; lia).
  set (s := 0 - 0 - e').
  assert (s = - e') as Es by (subst s; lia).
  clearbody s.
  assert (0 <= s) as Hs by lia.
  set (m' := match s with
             | 0 => m1
             | Z.pos _ => Z.shiftl m1 s
             | Z.neg _ => 0
             end).
  assert (m' = m1 * 2 ^ s) as Em.
  { subst m'. destruct s as [|sp|sp]; [|apply Z.shiftl_mul_pow2; lia|lia].
    change (2 ^ 0) with 1. lia. }
  clearbody m'.
  assert (0 < 2 ^ s) as Ps by (apply Z.pow_pos_nonneg; lia).
  pose proof (Z_div_mod m' m2 ltac:(lia)) as DM.
  destruct (Z.div_eucl m' m2) as [q r]. destruct DM as [Eq Hr].
  assert (0 <= q) as Hq by nia.
  split; [exact Hq|]. split; [exact He|].
  assert (Zdigits2 m' = d1 + s) as Dm
    by (rewrite Em; apply Zdigits2_mul_pow2; lia).
  pose proof (Zdigits2_upper m' ltac:(lia)) as U. rewrite Dm in U.
  pose proof (Zdigits2_lower m2 H2) as L. fold d2 in L.
  pose proof (Zdigits2_nonneg m2) as N2. fold d2 in N2.
  assert (1 <= d2).
  { subst d2. rewrite Zdigits2_log2 by lia.
    pose proof (Z.log2_nonneg m2). lia. }
  pose proof (Zdigits2_nonneg m1) as N1. fold d1 in N1.
  assert (Zdigits2 q <= Z.max 0 (d1 + s - d2 + 1)); [|lia].
  destruct (Z_lt_le_dec (d1 + s - d2 + 1) 0) as [Neg|Pos].
  - (* the dividend is smaller than the divisor *)
    assert (m' < m2).
    { assert (2 ^ (d1 + s) <= 2 ^ (d2 - 1))
        by (apply Z.pow_le_mono_r; lia).
      lia. }
    assert (q = 0) by nia. subst q. cbn. lia.
  - replace (Z.max 0 (d1 + s - d2 + 1)) with (d1 + s - d2 + 1) by lia.
    apply Zdigits2_bound; [lia|]. split; [exact Hq|].
    assert (2 ^ (d1 + s) = 2 ^ (d1 + s - d2 + 1) * 2 ^ (d2 - 1)) as Ep.
    { rewrite <- Z.pow_add_r by lia. f_equal. lia. }
    assert (0 < 2 ^ (d2 - 1)) by (apply Z.pow_pos_nonneg; lia).
    assert (0 < 2 ^ (d1 + s - d2 + 1)) by (apply Z.pow_pos_nonneg; lia).
    nia.
Qed.

Lemma fdiv_ints_finite (sa sb : bool) (pa pb : positive) :
  Z.pos pa < 2 ^ 1024 -> 2 <= Z.pos pb ->
  is_finite (fdiv (S754_finite sa pa 0) (S754_finite sb pb 0)) = true.
Proof.
  intros Ha Hb. unfold fdiv. cbn [SFdiv].
  pose proof (SFdiv_core_binary_bounds (Z.pos pa) (Z.pos pb)
                ltac:(lia) ltac:(lia)) as B.
  destruct (SFdiv_core_binary prec emax (Z.pos pa) 0 (Z.pos pb) 0)
    as [[q e] l].
  destruct B as (Hq & He & Hd).
  pose proof (Zdigits2_bound (Z.pos pa) 1024 ltac:(lia) ltac:(lia)).
  assert (2 <= Zdigits2 (Z.pos pb)).
  { rewrite Zdigits2_log2 by lia.
    assert (1 <= Z.log2 (Z.pos pb)) by (apply Z.log2_le_pow2; lia). lia. }
  apply binary_round_aux_finite; lia.
Qed.

(** [a / b] returns for every [int] below [2^1024] in magnitude and every
    divisor from 2 on. *)
Lemma int_true_divide_returns (a b : Z) :
  Z.abs a < 2 ^ 1024 -> 2 <= b ->
  exists f, int_true_divide a b = Returns f.
Proof.
  intros Ha Hb. unfold int_true_divide.
  destruct (b =? 0) eqn:E0; [apply Z.eqb_eq in E0; lia|].
  destruct ((Z.abs a <? 2 ^ 53) && (Z.abs b <? 2 ^ 53)); [eauto|].
  destruct b as [|pb|pb]; try lia.
  destruct a as [|pa|pa]; [eauto| |];
    cbn [Z.abs Z.to_pos];
    match goal with
    | |- context [fdiv (S754_finite ?sa pa 0) (S754_finite ?sb pb 0)] =>
        pose proof (fdiv_ints_finite sa sb pa pb ltac:(cbn in Ha; lia) Hb)
          as F;
        destruct (fdiv (S754_finite sa pa 0) (S754_finite sb pb 0));
        try discriminate F; eauto
    end.
Qed.

(** ** Numbers as rationals *)

Lemma Qcompare_mult_r (a b : Z) (c : Q) :
  (0 < c)%Q -> (inject_Z a * c ?= inject_Z b * c)%Q = (a ?= b).
Proof.
  intros Hc. destruct (Z.compare_spec a b) as [E|L|G].
  - subst. apply Qeq_alt. reflexivity.
  - apply Qlt_alt. apply Qmult_lt_compat_r; [exact Hc|].
    now rewrite <- Zlt_Qlt.
  - apply Qgt_alt. apply Qmult_lt_compat_r; [exact Hc|].
    now rewrite <- Zlt_Qlt.
Qed.

Lemma inject_Z_shift (m k e : Z) :
  0 <= k ->
  (inject_Z (m * 2 ^ k) * 2 ^ e == inject_Z m * 2 ^ (k + e))%Q.
Proof.
  intros Hk. rewrite inject_Z_mult, Zpower_Qpower by exact Hk.
  rewrite Qpower_plus by discriminate.
  change (inject_Z 2) with 2%Q. ring.
Qed.

(** The comparison of two values [m * 2^e] is the comparison of the
    rationals. *)
Lemma fin_compare_value (m1 e1 m2 e2 : Z) :
  fin_compare m1 e1 m2 e2
  = (inject_Z m1 * 2 ^ e1 ?= inject_Z m2 * 2 ^ e2)%Q.
Proof.
  unfold fin_compare. cbv zeta. set (e := Z.min e1 e2).
  rewrite <- (Qcompare_mult_r _ _ (2 ^ e)%Q)
    by (apply Qpower_0_lt; reflexivity).
  apply Qcompare_comp.
  - rewrite inject_Z_shift by lia. now replace (e1 - e + e) with e1 by lia.
  - rewrite inject_Z_shift by lia. now replace (e2 - e + e) with e2 by lia.
Qed.

Lemma ext_real_value (x : number) :
  real_number x ->
  exists m e, ext x = XFin m e /\ (real_value x == inject_Z m * 2 ^ e)%Q.
Proof.
  destruct x as [z|[s|s| |s m e]]; cbn [real_number is_finite ext real_value];
    try discriminate; intros _.
  - exists z, 0. split; [reflexivity|]. cbn. ring.
  - exists 0, 0. split; reflexivity.
  - eexists _, e. split; reflexivity.
Qed.

Lemma num_compare_value (a b : number) :
  real_number a -> real_number b ->
  num_compare a b = Some (real_value a ?= real_value b)%Q.
Proof.
  intros Ha Hb. unfold num_compare.
  destruct (ext_real_value a Ha) as (m1 & e1 & -> & V1).
  destruct (ext_real_value b Hb) as (m2 & e2 & -> & V2).
  rewrite fin_compare_value. f_equal. apply Qcompare_comp; now symmetry.
Qed.

(** [x >= t] is the comparison of the real_value with [t]. *)
Lemma num_ge_value (a : number) (t : Z) :
  real_number a -> num_ge a (PyInt t) = Qle_bool (inject_Z t) (real_value a).
Proof.
  intros Ha. unfold num_ge.
  rewrite (num_compare_value a (PyInt t) Ha I). cbn [real_value].
  destruct (Qcompare_spec (real_value a) (inject_Z t)) as [E|L|G].
  - symmetry. apply Qle_bool_iff. rewrite E. apply Qle_refl.
  - destruct (Qle_bool (inject_Z t) (real_value a)) eqn:B; [|reflexivity].
    apply Qle_bool_iff in B. exfalso. exact (Qlt_not_le _ _ L B).
  - symmetry. apply Qle_bool_iff. now apply Qlt_le_weak.
Qed.

Lemma real_abs (x : number) : real_number x -> real_number (num_abs x).
Proof. destruct x as [z|[s|s| |s m e]]; auto. Qed.

(** [abs(x)] is the absolute real_value. *)
Lemma real_value_abs (x : number) :
  real_number x -> (real_value (num_abs x) == Qabs (real_value x))%Q.
Proof.
  destruct x as [z|[s|s| |s m e]]; cbn [real_number is_finite];
    try discriminate; intros _; cbn [num_abs SFabs real_value]; try reflexivity.
  rewrite Qabs_Qmult.
  rewrite (Qabs_pos (2 ^ e))
    by (apply Qlt_le_weak, Qpower_0_lt; reflexivity).
  now destruct s.
Qed.

(** [max(a, b)] is the maximum. *)
Lemma real_value_max (a b : number) :
  real_number a -> real_number b ->
  real_value (num_max a b) = Qmax (real_value a) (real_value b)
  /\ real_number (num_max a b).
Proof.
  intros Ha Hb. unfold num_max, num_gt.
  rewrite (num_compare_value b a Hb Ha).
  unfold Qmax, GenericMinMax.gmax.
  rewrite <- Qcompare_antisym.
  destruct (real_value a ?= real_value b)%Q; cbn [CompOpp]; auto.
Qed.

Lemma class_of_max (a b a' b' : Q) :
  (a == a')%Q -> (b == b')%Q ->
  class_of (Qmax a b) = class_of (Qmax a' b').
Proof.
  intros Ea Eb.
  assert (forall t, Qle_bool t (Qmax a b) = Qle_bool t (Qmax a' b')) as E.
  { intros t.
    destruct (Qle_bool t (Qmax a b)) eqn:E1;
      destruct (Qle_bool t (Qmax a' b')) eqn:E2; try reflexivity.
    - apply Qle_bool_iff, Q.max_le_iff in E1.
      rewrite Ea, Eb in E1. apply Q.max_le_iff, Qle_bool_iff in E1.
      congruence.
    - apply Qle_bool_iff, Q.max_le_iff in E2.
      rewrite <- Ea, <- Eb in E2. apply Q.max_le_iff, Qle_bool_iff in E2.
      congruence. }
  unfold class_of. now rewrite !E.
Qed.

(** The class that lines 71-85 select is the class of [max(|x1|, |x2|)]. *)
Lemma scale_class_shared (x1 x2 : number) :
  real_number x1 -> real_number x2 ->
  scale_class (num_max (num_abs x1) (num_abs x2))
  = class_of (Qmax (Qabs (real_value x1)) (Qabs (real_value x2))).
Proof.
  intros H1 H2.
  destruct (real_value_max _ _ (real_abs _ H1) (real_abs _ H2)) as [V R].
  rewrite <- (class_of_max _ _ _ _ (real_value_abs x1 H1) (real_value_abs x2 H2)).
  rewrite <- V. unfold scale_class, class_of.
  now rewrite !num_ge_value by exact R.
Qed.

Lemma scale_class_value (largest : number) :
  real_number largest -> scale_class largest = class_of (real_value largest).
Proof.
  intros R. unfold scale_class, class_of. now rewrite !num_ge_value by exact R.
Qed.

Lemma real_not_nan (x : number) : real_number x -> not_nan x.
Proof.
  destruct x as [z|[s|s| |s m e]]; cbn; unfold not_nan; cbn;
    congruence.
Qed.

Lemma in_float_range_real (x : number) : in_float_range x -> real_number x.
Proof. destruct x; cbn; auto. Qed.

(** [format_number] returns on every number within the range of a
    [float]. *)
Lemma format_number_returns_in_range (num : number) :
  in_float_range num -> exists r, format_number num = Returns r.
Proof.
  intros Hx. destruct num as [z|f];
    [|now apply format_number_returns].
  cbn [in_float_range] in Hx.
  assert (Z.abs z < 2 ^ 1024) as Hz.
  { assert (2 ^ 1023 < 2 ^ 1024) by (apply Z.pow_lt_mono_r; lia). lia. }
  unfold format_number.
  assert (exists f, num_format_2f (PyInt z) = Returns f) as [f0 F0].
  { cbn [num_format_2f]. rewrite float_of_int_returns by exact Hx.
    cbn [bind]. eauto. }
  destruct (num_ge (num_abs (PyInt z)) (PyInt 1000)).
  - destruct (first_threshold_cases (num_abs (PyInt z))) as [E|[E|[E|E]]];
      rewrite E; cbv beta iota zeta;
      try (cbn [num_truediv];
           match goal with
           | |- context [int_true_divide z ?t] =>
               destruct (int_true_divide_returns z t Hz ltac:(lia)) as [f ->]
           end; cbn [bind]; eauto).
    rewrite F0. cbn [bind]. eauto.
  - rewrite F0. cbn [bind]. eauto.
Qed.

(** What [format_difference] computes once the two calls of lines 67-68
    have returned, the difference is known and the larger magnitude is not
    a NaN. *)
Lemma format_difference_steps (x1 x2 d : number)
      (r1 r2 : str * option str * Z) :
  format_number x1 = Returns r1 -> format_number x2 = Returns r2 ->
  not_nan (num_max (num_abs x1) (num_abs x2)) ->
  num_sub x1 x2 = Returns d ->
  let class := scale_class (num_max (num_abs x1) (num_abs x2)) in
  format_difference x1 x2
  = (f <- scaled_by d (fst class) ;; Returns (format_2f f ++ snd class)).
Proof.
  intros H1 H2 HL Hd class. unfold format_difference.
  rewrite H1, H2. cbn [bind]. rewrite (to_use_scale_class _ HL), Hd.
  cbn [bind]. subst class.
  destruct (scale_class_cases (num_max (num_abs x1) (num_abs x2)))
    as [E|[E|[E|E]]]; rewrite E; cbn [fst snd list_ascii_of_string];
    try reflexivity.
  rewrite num_format_2f_scaled.
  destruct (scaled_by d 1); cbn [bind]; [now rewrite app_nil_r|reflexivity].
Qed.

Lemma Qabs_inject_Z (z : Z) : Qabs (inject_Z z) = inject_Z (Z.abs z).
Proof. reflexivity. Qed.

Lemma Qmax_inject_Z (a b : Z) :
  Qmax (inject_Z a) (inject_Z b) = inject_Z (Z.max a b).
Proof.
  unfold Qmax, GenericMinMax.gmax, Qcompare, inject_Z, Z.max. cbn [Qnum Qden].
  rewrite !Z.mul_1_r. now destruct (a ?= b).
Qed.

Lemma class_of_cases (q : Q) :
  class_of q = (1000000000, "B" : str)
  \/ class_of q = (1000000, "M" : str)
  \/ class_of q = (1000, "K" : str)
  \/ (class_of q = (1, [] : str) /\ (q < inject_Z 1000)%Q).
Proof.
  unfold class_of.
  destruct (Qle_bool (inject_Z 1000000000) q); auto.
  destruct (Qle_bool (inject_Z 1000000) q); auto.
  destruct (Qle_bool (inject_Z 1000) q) eqn:E; auto.
  right. right. right. split; [reflexivity|].
  apply Qnot_le_lt. intros L. apply Qle_bool_iff in L. congruence.
Qed.

Lemma class_of_bounds (q : Q) : 0 < fst (class_of q) < 2 ^ 53.
Proof.
  destruct (class_of_cases q) as [E|[E|[E|[E _]]]]; rewrite E; cbn; lia.
Qed.

(** At scale 1 both [int]s are below 1000 in magnitude. *)
Lemma class_one_small (a b : Z) :
  fst (class_of (inject_Z (Z.max (Z.abs a) (Z.abs b)))) = 1 ->
  Z.abs a < 1000 /\ Z.abs b < 1000.
Proof.
  destruct (class_of_cases (inject_Z (Z.max (Z.abs a) (Z.abs b))))
    as [E|[E|[E|[E L]]]]; rewrite E; cbn [fst]; try discriminate.
  intros _. rewrite <- Zlt_Qlt in L. lia.
Qed.

(** C6, where it does not hold.  An [int] outside the range of a [float]
    makes line 67 raise; and two finite [float]s whose difference overflows
    are rendered as ["inf"], not with two fractional digits. *)
Lemma format_difference_outside_float_range :
  format_difference (PyInt (10 ^ 400)) (PyInt 1)
  = Raises (mk_exn OverflowError
              "integer division result too large for a float")
  /\ is_finite (float_of_Z (10 ^ 308)) = true
  /\ format_difference (PyFloat (float_of_Z (10 ^ 308)))
       (PyFloat (float_of_Z (- 10 ^ 308)))
     = Returns ("infB" : str).
Proof. repeat split; vm_compute; reflexivity. Qed.

(** C6, as it holds.  For every two numbers within the range of a [float]
    (finite [float]s, [int]s below [2^1023] in magnitude),
    [format_difference] returns: the scale class is the class of
    [max(|x1|, |x2|)], the maximum of the two absolute values as real
    numbers, taken from the thresholds [10^9], [10^6], [10^3]; the result
    is the [.2f] rendering of the difference [x1 - x2] divided by the
    scale of the class, followed by the suffix of the class (none below
    [10^3]); and the rendering of a finite value has exactly two digits
    after the point.  For two [int]s below [2^52] the rendered value is the
    double of the exact difference, divided by the scale; for two [float]s
    it is the binary64 difference, divided by the scale.  The examples of
    the specification are instances, with others in which the second
    argument is the larger, an argument is negative, an [int] is above
    [2^53], and the arguments are [float]s. *)
Theorem format_difference_shared_scale :
  (forall x1 x2 : number,
      in_float_range x1 -> in_float_range x2 ->
      let class := class_of (Qmax (Qabs (real_value x1)) (Qabs (real_value x2))) in
      exists difference scaled,
        num_sub x1 x2 = Returns difference
        /\ scaled_by difference (fst class) = Returns scaled
        /\ format_difference x1 x2 = Returns (format_2f scaled ++ snd class)
        /\ (is_finite scaled = true -> two_decimals (format_2f scaled)))
  /\ (forall a b : Z,
         Z.abs a < 2 ^ 52 -> Z.abs b < 2 ^ 52 ->
         let class := class_of (inject_Z (Z.max (Z.abs a) (Z.abs b))) in
         format_difference (PyInt a) (PyInt b)
         = Returns
             (format_2f
                (if fst class =? 1 then float_of_Z (a - b)
                 else fdiv (float_of_Z (a - b)) (float_of_Z (fst class)))
              ++ snd class))
  /\ (forall f1 f2 : float,
         is_finite f1 = true -> is_finite f2 = true ->
         let class :=
           class_of (Qmax (Qabs (real_value (PyFloat f1)))
                          (Qabs (real_value (PyFloat f2)))) in
         format_difference (PyFloat f1) (PyFloat f2)
         = Returns
             (format_2f
                (if fst class =? 1 then fsub f1 f2
                 else fdiv (fsub f1 f2) (float_of_Z (fst class)))
              ++ snd class))
  /\ format_difference (PyInt 1234567890) (PyInt 1234000000)
     = Returns ("0.00B" : str)
  /\ format_difference (PyInt 100) (PyInt 50) = Returns ("50.00" : str)
  /\ format_difference (PyInt 50) (PyInt 1234567890)
     = Returns ("-1.23B" : str)
  /\ format_difference (PyInt (-5000)) (PyInt 1) = Returns ("-5.00K" : str)
  /\ format_difference (PyInt (10 ^ 16)) (PyInt 1)
     = Returns ("10000000.00B" : str)
  /\ format_difference
       (PyFloat (fdiv (float_of_Z 3001) (float_of_Z 2)))
       (PyFloat (fdiv (float_of_Z 1001) (float_of_Z 4)))
     = Returns ("1.25K" : str).
Proof.
  split; [|split; [|split; [|repeat split; vm_compute; reflexivity]]].
  - intros x1 x2 H1 H2 class.
    pose proof (in_float_range_real _ H1) as R1.
    pose proof (in_float_range_real _ H2) as R2.
    destruct (format_number_returns_in_range x1 H1) as [r1 F1].
    destruct (format_number_returns_in_range x2 H2) as [r2 F2].
    destruct (real_value_max _ _ (real_abs _ R1) (real_abs _ R2)) as [_ RL].
    pose proof (scale_class_shared x1 x2 R1 R2) as EC. fold class in EC.
    pose proof (class_of_bounds (Qmax (Qabs (real_value x1)) (Qabs (real_value x2))))
      as Hs. fold class in Hs.
    assert (exists d f, num_sub x1 x2 = Returns d
                        /\ scaled_by d (fst class) = Returns f)
      as (d & f & Hd & Hf).
    { destruct x1 as [a|f1], x2 as [b|f2]; cbn [num_sub].
      - exists (PyInt (a - b)). cbn [in_float_range] in H1, H2.
        unfold scaled_by. destruct (fst class =? 1) eqn:E1.
        + apply Z.eqb_eq in E1. subst class. cbn [real_value] in E1.
          rewrite !Qabs_inject_Z, Qmax_inject_Z in E1.
          apply class_one_small in E1.
          rewrite float_of_int_small
            by (change (2 ^ 53) with 9007199254740992; lia).
          eauto.
        + apply Z.eqb_neq in E1. cbn [num_truediv].
          destruct (int_true_divide_returns (a - b) (fst class))
            as [f Hf]; [|lia|eauto].
          replace (2 ^ 1024) with (2 * 2 ^ 1023) by reflexivity. lia.
      - cbn [in_float_range] in H1.
        rewrite float_of_int_returns by exact H1. cbn [bind].
        eexists. eexists. split; [reflexivity|].
        now rewrite scaled_by_float by exact Hs.
      - cbn [in_float_range] in H2.
        rewrite float_of_int_returns by exact H2. cbn [bind].
        eexists. eexists. split; [reflexivity|].
        now rewrite scaled_by_float by exact Hs.
      - eexists. eexists. split; [reflexivity|].
        now rewrite scaled_by_float by exact Hs. }
    exists d, f. split; [exact Hd|]. split; [exact Hf|].
    split; [|apply format_2f_two_decimals].
    rewrite (format_difference_steps x1 x2 d r1 r2 F1 F2
               (real_not_nan _ RL) Hd).
    rewrite EC, Hf. reflexivity.
  - intros a b Ha Hb class.
    rewrite (format_difference_int a b Ha Hb).
    rewrite (scale_class_value (PyInt _) I). reflexivity.
  - intros f1 f2 H1 H2 class.
    destruct (format_number_returns (PyFloat f1) I) as [r1 F1].
    destruct (format_number_returns (PyFloat f2) I) as [r2 F2].
    destruct (real_value_max _ _ (real_abs (PyFloat f1) H1)
                (real_abs (PyFloat f2) H2)) as [_ RL].
    rewrite (format_difference_steps _ _ (PyFloat (fsub f1 f2)) r1 r2 F1 F2
               (real_not_nan _ RL) eq_refl).
    rewrite (scale_class_shared (PyFloat f1) (PyFloat f2) H1 H2).
    fold class. rewrite scaled_by_float by apply class_of_bounds.
    reflexivity.
Qed.

Lemma format_difference_shared_scale_witness :
  in_float_range (PyInt (-5000)) /\ in_float_range (PyFloat (float_of_Z 7))
  /\ class_of (Qmax (Qabs (real_value (PyInt (-5000))))
                    (Qabs (real_value (PyFloat (float_of_Z 7)))))
     = (1000, "K" : str)
  /\ format_difference (PyInt (-5000)) (PyFloat (float_of_Z 7))
     = Returns ("-5.01K" : str).
Proof.
  assert (in_float_range (PyInt (-5000))) as H1 by (vm_compute; reflexivity).
  assert (in_float_range (PyFloat (float_of_Z 7))) as H2 by reflexivity.
  split; [exact H1|]. split; [exact H2|]. split; [reflexivity|].
  destruct (proj1 format_difference_shared_scale _ _ H1 H2)
    as (d & f & Hd & Hf & E & _).
  rewrite E. vm_compute in Hd. injection Hd as <-.
  vm_compute in Hf. injection Hf as <-. vm_compute. reflexivity.
Defined.

(* ----------------------------------------------------------------- *)
(** ** [format_difference] with a NaN *)

(** X13. With a NaN as first argument [format_difference] never returns,
    whatever the second argument: when the calls of lines 67-68 and the
    subtraction of line 88 return -- they do for every [float] and every
    [int] below [2^53] in magnitude --, none of the tests of lines 74-85
    holds, the scale is not bound and line 91 raises [UnboundLocalError].
    A NaN as second argument is not the maximum of line 71: for a first
    argument within the range of a [float] the result is ["nan"] with the
    suffix of the class of its magnitude. *)
Theorem format_difference_nan :
  (forall x2 : number,
      exists e,
        format_difference (PyFloat S754_nan) x2 = Raises e
        /\ (exact_or_float x2 -> exn_type e = UnboundLocalError))
  /\ (forall x1 : number,
         in_float_range x1 ->
         format_difference x1 (PyFloat S754_nan)
         = Returns ("nan" ++ snd (class_of (Qabs (real_value x1))))).
Proof.
  split.
  - intros x2. unfold format_difference.
    replace (format_number (PyFloat S754_nan))
      with (Returns ("nan" : str, @None str, 1)) by reflexivity.
    cbn [bind].
    destruct (format_number x2) as [r2|e2] eqn:F2; cbn [bind].
    + rewrite (proj1 (nan_largest _)).
      replace (num_lt (PyFloat S754_nan) (PyInt 1000)) with false
        by reflexivity.
      replace (num_ge (PyFloat S754_nan) (PyInt 1000000000)) with false
        by reflexivity.
      replace (num_ge (PyFloat S754_nan) (PyInt 1000000)) with false
        by reflexivity.
      replace (num_ge (PyFloat S754_nan) (PyInt 1000)) with false
        by reflexivity.
      destruct x2 as [z|f]; cbn [num_sub].
      * destruct (float_of_int z) as [fz|ez] eqn:Fz; cbn [bind].
        -- eexists. split; [reflexivity|reflexivity].
        -- exists ez. split; [reflexivity|]. cbn [exact_or_float].
           intros H2. rewrite float_of_int_small in Fz by exact H2.
           discriminate.
      * cbn [bind]. eexists. split; reflexivity.
    + exists e2. split; [reflexivity|]. intros H2.
      destruct (format_number_returns x2 H2) as [r2 R2]. congruence.
  - intros x1 H1.
    pose proof (in_float_range_real _ H1) as R1.
    assert (num_sub x1 (PyFloat S754_nan) = Returns (PyFloat S754_nan)) as Hd.
    { destruct x1 as [z|f]; cbn [num_sub].
      - cbn [in_float_range] in H1.
        rewrite float_of_int_returns by exact H1. cbn [bind].
        now rewrite fsub_nan.
      - now rewrite fsub_nan. }
    destruct (format_number_returns_in_range x1 H1) as [r1 F1].
    pose proof (format_difference_steps x1 (PyFloat S754_nan)
                  (PyFloat S754_nan) r1 ("nan" : str, None, 1) F1 eq_refl)
      as D.
    rewrite (proj2 (nan_largest _)) in D. cbv zeta in D.
    rewrite (D (real_not_nan _ (real_abs _ R1)) Hd).
    rewrite (scale_class_value _ (real_abs _ R1)).
    assert (class_of (real_value (num_abs x1))
            = class_of (Qabs (real_value x1))) as ->.
    { pose proof (class_of_max _ _ _ _ (real_value_abs x1 R1)
                    (real_value_abs x1 R1)) as M.
      assert (forall q, Qmax q q = q) as Idem.
      { intros q. unfold Qmax, GenericMinMax.gmax.
        now destruct (q ?= q)%Q. }
      now rewrite !Idem in M. }
    rewrite scaled_by_float by apply class_of_bounds. cbn [bind].
    destruct (_ =? 1); [reflexivity|].
    destruct (class_of_cases (Qabs (real_value x1))) as [E|[E|[E|[E _]]]];
      rewrite E; reflexivity.
Qed.

Lemma format_difference_nan_witness :
  (exists msg,
      format_difference (PyFloat S754_nan) (PyInt 5)
      = Raises (mk_exn UnboundLocalError msg))
  /\ format_difference (PyInt (-2000)) (PyFloat S754_nan)
     = Returns ("nanK" : str).
Proof.
  destruct format_difference_nan as [X Y]. split.
  - destruct (X (PyInt 5)) as ([c msg] & E & T).
    cbn [exn_type] in T. rewrite (T ltac:(vm_compute; reflexivity)) in E.
    eauto.
  - apply (Y (PyInt (-2000))). vm_compute. reflexivity.
Defined.
